(** * squad_goals.agent: a ReAct agent loop and its action parser

    A shallow embedding of [src/squad_goals/agent.py] and the properties of
    its loop that the specification states.

    Python text is modelled by [string]: a character is a code point below
    256.  The interpreter's own library ([re], [str.format], [str.strip],
    [str.join]) is embedded as far as the agent uses it, after CPython 3.11;
    what the agent only calls through ([json.loads], the language model, the
    tools, the rendering of a replacement field that carries a conversion or
    a format spec) is an interface.  A tool is a function of its keyword
    arguments; what the agent prints is left out. *)

From Stdlib Require Import String Ascii List ZArith Bool Arith Lia DecimalString.
Import ListNotations.
Open Scope string_scope.

(** ** Python strings *)

Module PyStr.

Definition chr (n : nat) : string := String (ascii_of_nat n) EmptyString.

Definition dq : string := chr 34.
Definition nl : string := chr 10.
Definition tab : string := chr 9.

Definition code (c : ascii) : nat := nat_of_ascii c.

(** [str.isspace] on one character, which is also the class [\s] of a
    [str] pattern. *)
Definition isspace (c : ascii) : bool :=
  let n := code c in
  (Nat.leb 9 n && Nat.leb n 13) || (Nat.leb 28 n && Nat.leb n 32)
  || Nat.eqb n 133 || Nat.eqb n 160.

Fixpoint mem (c : ascii) (chars : string) : bool :=
  match chars with
  | EmptyString => false
  | String d chars' => Ascii.eqb c d || mem c chars'
  end.

Fixpoint lstrip_by (p : ascii -> bool) (s : string) : string :=
  match s with
  | EmptyString => EmptyString
  | String c s' => if p c then lstrip_by p s' else s
  end.

Fixpoint rstrip_by (p : ascii -> bool) (s : string) : string :=
  match s with
  | EmptyString => EmptyString
  | String c s' =>
      match rstrip_by p s' with
      | EmptyString => if p c then EmptyString else String c EmptyString
      | r => String c r
      end
  end.

Definition strip_by (p : ascii -> bool) (s : string) : string :=
  lstrip_by p (rstrip_by p s).

(** [s.strip()] *)
Definition strip (s : string) : string := strip_by isspace s.

(** [s.strip(chars)] *)
Definition strip_chars (chars s : string) : string :=
  strip_by (fun c => mem c chars) s.

(** [sep.join(l)] *)
Fixpoint join (sep : string) (l : list string) : string :=
  match l with
  | [] => EmptyString
  | [x] => x
  | x :: l' => x ++ sep ++ join sep l'
  end.

Fixpoint filter (p : ascii -> bool) (s : string) : string :=
  match s with
  | EmptyString => EmptyString
  | String c s' => if p c then String c (filter p s') else filter p s'
  end.

Fixpoint forallb (p : ascii -> bool) (s : string) : bool :=
  match s with
  | EmptyString => true
  | String c s' => p c && forallb p s'
  end.

Definition first (s : string) : option ascii :=
  match s with
  | EmptyString => None
  | String c _ => Some c
  end.

Fixpoint last (s : string) : option ascii :=
  match s with
  | EmptyString => None
  | String c EmptyString => Some c
  | String _ s' => last s'
  end.

(** [s.startswith(x)] *)
Fixpoint startswith (x s : string) : bool :=
  match x, s with
  | EmptyString, _ => true
  | String _ _, EmptyString => false
  | String a x', String b s' => Ascii.eqb a b && startswith x' s'
  end.

(** [x in s] *)
Fixpoint contains (x s : string) : bool :=
  startswith x s
  || match s with
     | EmptyString => false
     | String _ s' => contains x s'
     end.

End PyStr.

(** ** The pattern matcher of [re]

    A backtracking matcher in the manner of [sre]: a pattern is a sequence
    of nodes, alternatives are tried in priority order (a greedy repeat
    takes the longest run first, a lazy one the shortest), and the first
    success is the match.  Only the node kinds the agent's pattern uses are
    embedded. *)

Module Sre.

Inductive cset : Type :=
| AnyChar                       (* [.] under DOTALL *)
| OneOf (chars : string)        (* [[...]] *)
| Space.                        (* [\s] *)

Definition cset_mem (cs : cset) (c : ascii) : bool :=
  match cs with
  | AnyChar => true
  | OneOf chars => PyStr.mem c chars
  | Space => PyStr.isspace c
  end.

Inductive node : Type :=
| Lit (c : ascii)               (* a literal character *)
| Opt (cs : cset)               (* [cs?] *)
| Star (cs : cset)              (* [cs*] *)
| MinStar (cs : cset)           (* [cs*?] *)
| Mark (i : nat).               (* group boundary: 2g-2 opens g, 2g-1 closes it *)

Definition pattern := list node.

Fixpoint lits (s : string) : pattern :=
  match s with
  | EmptyString => []
  | String c s' => Lit c :: lits s'
  end.

Definition marks := list (nat * nat).

Fixpoint get_mark (i : nat) (ms : marks) : option nat :=
  match ms with
  | [] => None
  | (j, p) :: ms' => if Nat.eqb i j then Some p else get_mark i ms'
  end.

(** [match_here p s pos ms]: match [p] against [s], the text from offset
    [pos] on. *)
Fixpoint match_here (p : pattern) (s : string) (pos : nat) (ms : marks)
  : option marks :=
  match p with
  | [] => Some ms
  | Lit c :: k =>
      match s with
      | String x s' => if Ascii.eqb x c then match_here k s' (S pos) ms else None
      | EmptyString => None
      end
  | Opt cs :: k =>
      match s with
      | String x s' =>
          if cset_mem cs x then
            match match_here k s' (S pos) ms with
            | Some r => Some r
            | None => match_here k s pos ms
            end
          else match_here k s pos ms
      | EmptyString => match_here k s pos ms
      end
  | Star cs :: k =>
      (fix star (s : string) (pos : nat) : option marks :=
         match s with
         | String x s' =>
             if cset_mem cs x then
               match star s' (S pos) with
               | Some r => Some r
               | None => match_here k s pos ms
               end
             else match_here k s pos ms
         | EmptyString => match_here k s pos ms
         end) s pos
  | MinStar cs :: k =>
      (fix lazy (s : string) (pos : nat) : option marks :=
         match match_here k s pos ms with
         | Some r => Some r
         | None =>
             match s with
             | String x s' => if cset_mem cs x then lazy s' (S pos) else None
             | EmptyString => None
             end
         end) s pos
  | Mark i :: k => match_here k s pos ((i, pos) :: ms)
  end.

(** The leftmost match: [match_here] is tried at every offset in turn. *)
Fixpoint search_from (p : pattern) (s : string) (pos : nat) : option marks :=
  match match_here p s pos [] with
  | Some r => Some r
  | None =>
      match s with
      | EmptyString => None
      | String _ s' => search_from p s' (S pos)
      end
  end.

Record Match : Type := { subject : string; spans : marks }.

(** [re.search(p, s, re.DOTALL)] *)
Definition search (p : pattern) (s : string) : option Match :=
  match search_from p s 0 with
  | Some ms => Some {| subject := s; spans := ms |}
  | None => None
  end.

(** [m.group(g)] for a group that took part in the match. *)
Definition group (g : nat) (m : Match) : string :=
  match get_mark (2 * g - 2) (spans m), get_mark (2 * g - 1) (spans m) with
  | Some a, Some b => substring a (b - a) (subject m)
  | _, _ => EmptyString
  end.

End Sre.

(** The pattern of [Agent._parse]: the text [Action: ], an optional opening
    square bracket, group 1 (a lazy run of any characters), an optional
    closing square bracket, a run of newlines, the text [Action Input:], a run
    of whitespace, and group 2 (a greedy run of any characters, newlines
    included: the search is made under DOTALL). *)
Definition regex : Sre.pattern :=
  (Sre.lits "Action: "
   ++ [Sre.Opt (Sre.OneOf "["); Sre.Mark 0; Sre.MinStar Sre.AnyChar; Sre.Mark 1;
       Sre.Opt (Sre.OneOf "]"); Sre.Star (Sre.OneOf PyStr.nl)]
   ++ Sre.lits "Action Input:"
   ++ [Sre.Star Sre.Space; Sre.Mark 2; Sre.Star Sre.AnyChar; Sre.Mark 3])%list.

(** ** Python values and exceptions *)

(** The objects that reach the agent: decoded JSON, text, and the date put in
    the prompt (kept as its ISO text, which is what [str] gives). *)
#[warnings="-register-all"]
Inductive pyobj : Type :=
| PNone
| PBool (b : bool)
| PInt (z : Z)
| PFloat (text : string)
| PStr (s : string)
| PList (l : list pyobj)
| PDict (items : list (string * pyobj))
| PDate (iso : string).

Definition kwargs : Type := list (string * pyobj).

Definition type_name (v : pyobj) : string :=
  match v with
  | PNone => "NoneType"
  | PBool _ => "bool"
  | PInt _ => "int"
  | PFloat _ => "float"
  | PStr _ => "str"
  | PList _ => "list"
  | PDict _ => "dict"
  | PDate _ => "datetime.date"
  end.

(** An exception raised by a collaborator: its class, [str(e)], and whether
    it is an instance of [Exception], which is what [except Exception]
    catches ([SystemExit], [KeyboardInterrupt] and [GeneratorExit] are
    not). *)
Record raised : Type := {
  exc_class : string;
  exc_str : string;
  is_exception : bool
}.

Inductive exn : Type :=
| ValueError (msg : string)
| KeyError (key : string)
| IndexError (msg : string)
| AttributeError (msg : string)
| JSONDecodeError (msg : string)
| Raised (e : raised).

Fixpoint lookup {A : Type} (k : string) (l : list (string * A)) : option A :=
  match l with
  | [] => None
  | (k', v) :: l' => if String.eqb k k' then Some v else lookup k l'
  end.

(** What the agent calls without defining: the clock, the JSON decoder and
    the part of [str.format] that renders a value under an attribute or
    index lookup, a conversion or a format spec. *)
Class Runtime : Type := {
  (** [str(datetime.date.today())] *)
  today : string;
  (** [json.loads]: the decoded object, or what it raises: a
      [JSONDecodeError] with its [str(e)], or another exception, as the
      [RecursionError] of a deep nesting and the [ValueError] of an integer
      of too many digits *)
  json_loads : string -> exn + pyobj;
  (** a replacement field whose value was found and that has a rest of the
      field name, a conversion or a format spec *)
  format_field : kwargs -> pyobj -> string -> option ascii -> string -> exn + string
}.

(** ** [str.format] with keyword arguments only *)

Module Fmt.

Import PyStr.

Definition PY_SSIZE_T_MAX : Z := 2 ^ 63 - 1.

Definition digit (c : ascii) : option Z :=
  let n := code c in
  if Nat.leb 48 n && Nat.leb n 57 then Some (Z.of_nat (n - 48)) else None.

Inductive integer : Type :=
| NotInteger
| TooManyDigits
| Index (i : Z).

Fixpoint get_integer_from (accumulator : Z) (s : string) : integer :=
  match s with
  | EmptyString => Index accumulator
  | String c s' =>
      match digit c with
      | None => NotInteger
      | Some digitval =>
          if (accumulator >? (PY_SSIZE_T_MAX - digitval) / 10)%Z
          then TooManyDigits
          else get_integer_from (accumulator * 10 + digitval) s'
      end
  end.

Definition get_integer (s : string) : integer :=
  match s with
  | EmptyString => NotInteger
  | _ => get_integer_from 0 s
  end.

(** The field name up to its first [.] or [[], and the rest. *)
Fixpoint field_name_split (s : string) : string * string :=
  match s with
  | EmptyString => (EmptyString, EmptyString)
  | String c s' =>
      if mem c ".[" then (EmptyString, s)
      else let (a, b) := field_name_split s' in (String c a, b)
  end.

Definition decimal (i : Z) : string :=
  DecimalString.NilZero.string_of_uint (N.to_uint (Z.to_N i)).

Definition out_of_range (i : Z) : exn :=
  IndexError ("Replacement index " ++ decimal i
              ++ " out of range for positional args tuple").

Record field : Type := {
  field_name : string;
  conversion : option ascii;
  format_spec : string
}.

(** One replacement field: the object is looked up (no positional
    argument is ever given), then rendered. *)
Definition render_field {R : Runtime} (kw : kwargs) (f : field) : exn + string :=
  let (first, rest) := field_name_split (field_name f) in
  match get_integer first with
  | TooManyDigits => inl (ValueError "Too many decimal digits in format string")
  | Index i => inl (out_of_range i)
  | NotInteger =>
      match first with
      | EmptyString => inl (out_of_range 0)
      | _ =>
          match lookup first kw with
          | None => inl (KeyError first)
          | Some v =>
              match rest, conversion f, format_spec f, v with
              | EmptyString, None, EmptyString, PStr s => inr s
              | EmptyString, None, EmptyString, PDate iso => inr iso
              | _, _, _, _ => format_field kw v rest (conversion f) (format_spec f)
              end
          end
      end
  end.

(** Where the scan of the format string stands: in literal text, in the
    name of a replacement field (inside a bracketed index or not), after
    the [!] of a conversion, after the conversion character, or in a
    format spec under [depth] nested braces. *)
Inductive mode : Type :=
| Text
| Name (name : string) (bracket : bool)
| Conv (name : string)
| ConvEnd (name : string) (conv : ascii)
| Spec (name : string) (conv : option ascii) (depth : nat) (spec : string).

Definition snoc (s : string) (c : ascii) : string := s ++ String c EmptyString.

Definition cons_out (c : ascii) (r : exn + string) : exn + string :=
  match r with
  | inl e => inl e
  | inr t => inr (String c t)
  end.

Definition app_out (r1 r2 : exn + string) : exn + string :=
  match r1 with
  | inl e => inl e
  | inr t =>
      match r2 with
      | inl e => inl e
      | inr u => inr (t ++ u)
      end
  end.

Definition unmatched : exn := ValueError "unmatched '{' in format spec".

Fixpoint scan {R : Runtime} (kw : kwargs) (m : mode) (s : string) : exn + string :=
  match m with
  | Text =>
      match s with
      | EmptyString => inr EmptyString
      | String "{" EmptyString =>
          inl (ValueError "Single '{' encountered in format string")
      | String "{" (String "{" s') => cons_out "{" (scan kw Text s')
      | String "{" s' => scan kw (Name EmptyString false) s'
      | String "}" (String "}" s') => cons_out "}" (scan kw Text s')
      | String "}" _ =>
          inl (ValueError "Single '}' encountered in format string")
      | String c s' => cons_out c (scan kw Text s')
      end
  | Name name bracket =>
      match s with
      | EmptyString => inl (ValueError "expected '}' before end of string")
      | String c s' =>
          if bracket then scan kw (Name (snoc name c) (negb (Ascii.eqb c "]"))) s'
          else if Ascii.eqb c "{" then
            inl (ValueError "unexpected '{' in field name")
          else if Ascii.eqb c "[" then scan kw (Name (snoc name c) true) s'
          else if Ascii.eqb c "}" then
            app_out (render_field kw {| field_name := name; conversion := None;
                                        format_spec := EmptyString |})
                    (scan kw Text s')
          else if Ascii.eqb c ":" then scan kw (Spec name None 0 EmptyString) s'
          else if Ascii.eqb c "!" then scan kw (Conv name) s'
          else scan kw (Name (snoc name c) false) s'
      end
  | Conv name =>
      match s with
      | EmptyString =>
          inl (ValueError "end of string while looking for conversion specifier")
      | String c s' => scan kw (ConvEnd name c) s'
      end
  | ConvEnd name conv =>
      match s with
      | EmptyString => inl unmatched
      | String c s' =>
          if Ascii.eqb c "}" then
            app_out (render_field kw {| field_name := name; conversion := Some conv;
                                        format_spec := EmptyString |})
                    (scan kw Text s')
          else if Ascii.eqb c ":" then scan kw (Spec name (Some conv) 0 EmptyString) s'
          else inl (ValueError "expected ':' after conversion specifier")
      end
  | Spec name conv depth spec =>
      match s with
      | EmptyString => inl unmatched
      | String c s' =>
          if Ascii.eqb c "{" then scan kw (Spec name conv (S depth) (snoc spec c)) s'
          else if Ascii.eqb c "}" then
            match depth with
            | 0 =>
                app_out (render_field kw {| field_name := name; conversion := conv;
                                            format_spec := spec |})
                        (scan kw Text s')
            | S depth' => scan kw (Spec name conv depth' (snoc spec c)) s'
            end
          else scan kw (Spec name conv depth (snoc spec c)) s'
      end
  end.

(** [template.format] called with the keyword arguments [kw] *)
Definition format {R : Runtime} (template : string) (kw : kwargs) : exn + string :=
  scan kw Text template.

End Fmt.

(** ** The collaborators *)

Record message : Type := { role : string; content : string }.

(** [llms.base_llm.LLM]: the model is a transition system; [generate] gives
    the text and the model's next state. *)
Class LLM : Type := {
  llm_state : Type;
  generate : llm_state -> list message -> list string -> string * llm_state
}.

(** [tools.base_tool.BaseTool], as the agent sees a tool.  [run] takes the
    keyword arguments and returns text or raises; [run_qualname] is how the
    interpreter names the method in the error of a failed call;
    [is_final_answer] is [isinstance(tool, ReturnFinalAnswerTool)]. *)
Record BaseTool : Type := {
  name : string;
  description : string;
  _describe_run : string;
  run : kwargs -> raised + string;
  run_qualname : string;
  is_final_answer : bool
}.

(** [task.Task] *)
Record Task : Type := {
  goal : string;
  raw_output : option string;
  completed : bool
}.

(** ** The agent *)

Module Agent.

Import PyStr.

Definition OBSERVATION_TOKEN : string := "Observation:".
Definition THOUGHT_TOKEN : string := "Thought:".

Definition json_example : string :=
  "{{{{" ++ dq ++ "param" ++ dq ++ ": " ++ dq ++ "value" ++ dq ++ "}}}}".

Definition PROMPT_TEMPLATE : string :=
  join nl [
    "Today is {today} and you can use tools to get new information. ";
    "Respond to the user's input as best as you can using the following tools:";
    EmptyString;
    EmptyString;
    "{tool_description}";
    EmptyString;
    "First Thought:";
    "Thought: comment on what you want to do next.";
    "Action: the action to take, exactly one element of [{tool_names}]";
    "Action Input: the input to the action (must be a json loadable dictionary of parameters e.g. " ++ json_example ++ ")";
    "Observation: the result of the action";
    "Next Thought:";
    "Thought: Now comment on what you want to do next.";
    "Action: the next action to take, exactly one element of [{tool_names}]";
    "Action Input: the input to the next action (must be a json loadable dictionary of parameters e.g. " ++ json_example ++ ")";
    "Observation: the result of the next action";
    "... (this Thought/Action/Action Input/Observation repeats until you are sure of the answer)";
    "Next Thought:";
    "Thought: Now comment on what you want to do next.";
    "Action: the next action to take, exactly one element of [{tool_names}]";
    "Action Input: the input to the next action (must be a json loadable dictionary of parameters e.g. " ++ json_example ++ ")";
    "Observation: the result of the next action";
    "Next Thought:";
    "Thought: I can finally return the final answer";
    "Action: Return Final Answer Tool";
    "Action Input: The final answer to the task";
    EmptyString;
    "Begin:";
    EmptyString;
    "{goal}";
    EmptyString;
    "First Thought:";
    "{previous_responses}";
    EmptyString ].

Definition default_stop_pattern : list string :=
  [nl ++ OBSERVATION_TOKEN; nl ++ tab ++ OBSERVATION_TOKEN].

Definition FINAL_ANSWER : string := "Return Final Answer Tool".

(** The fields of an [Agent] instance. *)
Record t {L : LLM} : Type := {
  llm : llm_state;
  tools : list BaseTool;
  prompt_template : string;
  max_loops : Z;
  stop_pattern : list string;
  ai_responses : list string;
  verbose : bool;
  debug : bool;
  errors_encountered : list exn
}.
Arguments t : clear implicits.

(** [Agent.__init__]; [ReturnFinalAnswerTool] stands for the instance the
    constructor makes when the list has none. *)
Definition __init__ {L : LLM} (ReturnFinalAnswerTool : BaseTool)
    (llm : llm_state) (tools : list BaseTool)
    (prompt_template : string) (max_loops : Z) (stop_pattern : list string)
    (verbose debug : bool) : t L :=
  {| llm := llm;
     tools := if existsb is_final_answer tools then tools
              else (tools ++ [ReturnFinalAnswerTool])%list;
     prompt_template := prompt_template;
     max_loops := max_loops;
     stop_pattern := stop_pattern;
     ai_responses := [];
     verbose := verbose;
     debug := debug;
     errors_encountered := [] |}.

Definition tool_description {L : LLM} (self : t L) : string :=
  join nl (map (fun tool => name tool ++ ": " ++ description tool
                            ++ ". how to run: " ++ _describe_run tool)
               (tools self)).

Definition tool_names {L : LLM} (self : t L) : string :=
  join ", " (map name (tools self)).

(** The dictionary [tool_by_names] read at a key: of two tools of one
    name the later one stays. *)
Definition tool_by_names {L : LLM} (self : t L) (key : string) : option BaseTool :=
  fold_left (fun found tool => if String.eqb (name tool) key then Some tool else found)
            (tools self) None.

(** *** State and exceptions

    A method runs on the agent, the task and the record of the calls made
    to the collaborators; it ends with a value or an exception, and what
    it had written by then stays written. *)

Inductive event : Type :=
| Generated (messages : list message) (stop : list string)
| Invoked (tool : string) (arguments : kwargs).

Record world {L : LLM} : Type := {
  self : t L;
  task : Task;
  calls : list event
}.
Arguments world : clear implicits.

Definition M {L : LLM} (A : Type) : Type := world L -> (exn + A) * world L.

Definition ret {L : LLM} {A : Type} (a : A) : M A := fun w => (inr a, w).

Definition raise {L : LLM} {A : Type} (e : exn) : M A := fun w => (inl e, w).

Definition bind {L : LLM} {A B : Type} (m : M A) (f : A -> M B) : M B :=
  fun w =>
    match m w with
    | (inl e, w') => (inl e, w')
    | (inr a, w') => f a w'
    end.

Definition get {L : LLM} : M (t L) := fun w => (inr (self w), w).

Definition get_task {L : LLM} : M Task := fun w => (inr (task w), w).

Definition lift {L : LLM} {A : Type} (r : exn + A) : M A := fun w => (r, w).

Declare Scope agent_scope.
Delimit Scope agent_scope with agent.
Notation "x <- m ;; k" := (bind m (fun x => k))
  (at level 61, m at next level, right associativity) : agent_scope.
Notation "' p <- m ;; k" := (bind m (fun x => match x with p => k end))
  (at level 61, p pattern, m at next level, right associativity) : agent_scope.
Notation "m ;; k" := (bind m (fun _ => k))
  (at level 61, right associativity) : agent_scope.
Open Scope agent_scope.

(** The writes of the methods, as functions on the state. *)

Definition with_error {L : LLM} (e : exn) (w : world L) : world L :=
  let a := self w in
  {| self := {| llm := llm a; tools := tools a;
                prompt_template := prompt_template a;
                max_loops := max_loops a; stop_pattern := stop_pattern a;
                ai_responses := ai_responses a; verbose := verbose a;
                debug := debug a;
                errors_encountered := (errors_encountered a ++ [e])%list |};
     task := task w; calls := calls w |}.

Definition with_response {L : LLM} (s : string) (w : world L) : world L :=
  let a := self w in
  {| self := {| llm := llm a; tools := tools a;
                prompt_template := prompt_template a;
                max_loops := max_loops a; stop_pattern := stop_pattern a;
                ai_responses := (ai_responses a ++ [s])%list;
                verbose := verbose a; debug := debug a;
                errors_encountered := errors_encountered a |};
     task := task w; calls := calls w |}.

Definition with_llm {L : LLM} (st : llm_state) (w : world L) : world L :=
  let a := self w in
  {| self := {| llm := st; tools := tools a;
                prompt_template := prompt_template a;
                max_loops := max_loops a; stop_pattern := stop_pattern a;
                ai_responses := ai_responses a; verbose := verbose a;
                debug := debug a;
                errors_encountered := errors_encountered a |};
     task := task w; calls := calls w |}.

Definition with_call {L : LLM} (ev : event) (w : world L) : world L :=
  {| self := self w; task := task w; calls := (calls w ++ [ev])%list |}.

Definition with_output {L : LLM} (tool_result : string) (w : world L) : world L :=
  {| self := self w;
     task := {| goal := goal (task w); raw_output := Some tool_result;
                completed := true |};
     calls := calls w |}.

(** [self.errors_encountered.append(e)] *)
Definition log_error {L : LLM} (e : exn) : M unit :=
  fun w => (inr tt, with_error e w).

(** [self.ai_responses.append(s)] *)
Definition remember {L : LLM} (s : string) : M unit :=
  fun w => (inr tt, with_response s w).

Definition user (prompt : string) : list message :=
  [{| role := "user"; content := prompt |}].

(** [self.llm.generate(messages, stop=stop)] *)
Definition llm_generate {L : LLM} (messages : list message) (stop : list string)
  : M string :=
  fun w =>
    let (text, st) := generate (llm (self w)) messages stop in
    (inr text, with_call (Generated messages stop) (with_llm st w)).

(** What the call [tool.run] with the unpacked [tool_input] gives: what is
    unpacked must be a mapping, or the call fails before the tool is
    entered. *)
Definition apply_tool (tool : BaseTool) (tool_input : pyobj) : raised + string :=
  match tool_input with
  | PDict items => run tool items
  | _ => inl {| exc_class := "TypeError";
                exc_str := run_qualname tool
                           ++ "() argument after ** must be a mapping, not "
                           ++ type_name tool_input;
                is_exception := true |}
  end.

(** The state after the call of the tool with [tool_input]. *)
Definition invoked {L : LLM} (tool : BaseTool) (tool_input : pyobj) (w : world L)
  : world L :=
  match tool_input with
  | PDict items => with_call (Invoked (name tool) items) w
  | _ => w
  end.

Definition call_tool {L : LLM} (tool : BaseTool) (tool_input : pyobj)
  : M (raised + string) :=
  fun w => (inr (apply_tool tool tool_input), invoked tool tool_input w).

(** [task.raw_output = tool_result; task.completed = True] *)
Definition complete_task {L : LLM} (tool_result : string) : M unit :=
  fun w => (inr tt, with_output tool_result w).

Definition unparsable (generated : string) : string :=
  "Output of LLM is not parsable for next tool use: `" ++ generated ++ "`".

(** [Agent._parse].  When nothing matches, the replacement tool name is
    assigned and the method goes on to read the groups of the missing
    match. *)
Definition _parse {L : LLM} (generated : string) : M (string * string) :=
  let match_ := Sre.search regex generated in
  match match_ with
  | None =>
      log_error (ValueError (unparsable generated)) ;;
      self <- get ;;
      (if debug self then raise (ValueError (unparsable generated)) else ret tt) ;;
      let tool := "TOOL ERROR. MAKE SURE TO VERBTAIM STATE A TOOL NAME FROM THE LIST: "
                  ++ tool_names self in
      let tool_input := tool in
      raise (AttributeError "'NoneType' object has no attribute 'group'")
  | Some m =>
      let tool := strip (Sre.group 1 m) in
      let tool_input := Sre.group 2 m in
      ret (tool, strip_chars dq (strip_chars " " tool_input))
  end.

(** [Agent.decide_next_action] *)
Definition decide_next_action {L : LLM} (prompt : string)
  : M (string * string * string) :=
  self <- get ;;
  generated <- llm_generate (user prompt) (stop_pattern self) ;;
  '(tool, tool_input) <- _parse generated ;;
  ret (generated, tool, tool_input).

Definition is_control (c : ascii) : bool :=
  Nat.leb (code c) 31 || Nat.eqb (code c) 127.

(** [re.sub] of the class of control characters by the empty string *)
Definition remove_control (s : string) : string :=
  filter (fun c => negb (is_control c)) s.

(** The first [try] of the loop: the input without its control characters
    is decoded; when that fails with a [JSONDecodeError] and the agent is
    not in debug mode, the text stays.  The [except] clause names that
    class alone: another exception of the decoder leaves the method. *)
Definition load_input {L : LLM} {R : Runtime} (tool_input : string) : M pyobj :=
  let tool_input := remove_control tool_input in
  match json_loads tool_input with
  | inr decoded => ret decoded
  | inl (JSONDecodeError e) =>
      log_error (JSONDecodeError e) ;;
      self <- get ;;
      if debug self then raise (ValueError ("Error parsing JSON: " ++ e))
      else ret (PStr tool_input)
  | inl e => raise e
  end.

(** The second [try] of the loop.  Its [except] clause names [Exception]:
    what is raised and is not of that class leaves the method. *)
Definition dispatch {L : LLM} (tool : BaseTool) (tool_input : pyobj) : M string :=
  outcome <- call_tool tool tool_input ;;
  match outcome with
  | inr tool_result => ret tool_result
  | inl e =>
      if is_exception e then
        log_error (Raised e) ;;
        self <- get ;;
        if debug self then raise (ValueError ("Error from tool: " ++ exc_str e))
        else ret ("Error from tool: " ++ exc_str e)
      else raise (Raised e)
  end.

(** [prompt.format(previous_responses=...)] of a turn *)
Definition fill {R : Runtime} (prompt : string) (previous_responses : list string)
  : exn + string :=
  Fmt.format prompt
    [("previous_responses", PStr (strip (join nl previous_responses)))].

(** [generated] after the observation is added to it *)
Definition observed (generated tool_result : string) : string :=
  generated ++ nl ++ OBSERVATION_TOKEN ++ " " ++ tool_result ++ nl ++ "Next Thought:".

(** One turn of the [while] loop of [run]: the new [previous_responses],
    and the value [run] returns if the turn ends it. *)
Definition turn {L : LLM} {R : Runtime} (prompt : string)
    (previous_responses : list string) : M (list string * option string) :=
  curr_prompt <- lift (fill prompt previous_responses) ;;
  '(generated, tool, tool_input) <- decide_next_action curr_prompt ;;
  self <- get ;;
  match tool_by_names self tool with
  | None => raise (ValueError ("Unknown tool: " ++ tool))
  | Some the_tool =>
      tool_input <- load_input tool_input ;;
      tool_result <- dispatch the_tool tool_input ;;
      let generated := observed generated tool_result in
      remember (strip generated) ;;
      let previous_responses := (previous_responses ++ [generated])%list in
      if String.eqb tool FINAL_ANSWER then
        complete_task tool_result ;;
        ret (previous_responses, Some tool_result)
      else ret (previous_responses, None)
  end.

(** The [while] loop with [turns] turns left, which is
    [max_loops - num_loops] when that is positive and none otherwise. *)
Fixpoint loop {L : LLM} {R : Runtime} (turns : nat) (prompt : string)
    (previous_responses : list string) : M (option string) :=
  match turns with
  | O => ret None
  | S turns' =>
      '(previous_responses, returned) <- turn prompt previous_responses ;;
      match returned with
      | Some tool_result => ret (Some tool_result)
      | None => loop turns' prompt previous_responses
      end
  end.

(** The prompt of a run: the template with everything filled in but the
    previous responses, for which the placeholder is put back. *)
Definition first_prompt {L : LLM} {R : Runtime} (self : t L) (task : Task)
  : exn + string :=
  Fmt.format (prompt_template self)
    [("today", PDate today);
     ("tool_description", PStr (tool_description self));
     ("tool_names", PStr (tool_names self));
     ("goal", PStr (goal task));
     ("previous_responses", PStr "{previous_responses}")].

(** [Agent.run]: [Some] of the returned text, or [None] when the method
    falls off its end. *)
Definition run {L : LLM} {R : Runtime} : M (option string) :=
  self <- get ;;
  let previous_responses := ai_responses self in
  task <- get_task ;;
  prompt <- lift (first_prompt self task) ;;
  loop (Z.to_nat (max_loops self)) prompt previous_responses.

(** *** Reading a run *)

(** What [_parse] returns for a text the pattern matches. *)
Definition parsed (generated : string) : option (string * string) :=
  match Sre.search regex generated with
  | Some m => Some (strip (Sre.group 1 m),
                    strip_chars dq (strip_chars " " (Sre.group 2 m)))
  | None => None
  end.

(** The text the model gives in state [w] for the prompt [curr_prompt]. *)
Definition reply {L : LLM} (w : world L) (curr_prompt : string) : string :=
  fst (generate (llm (self w)) (user curr_prompt) (stop_pattern (self w))).

(** The state after that call of the model. *)
Definition asked {L : LLM} (w : world L) (curr_prompt : string) : world L :=
  with_call (Generated (user curr_prompt) (stop_pattern (self w)))
    (with_llm (snd (generate (llm (self w)) (user curr_prompt)
                             (stop_pattern (self w)))) w).

(** The number of calls of the model among the recorded calls: one per
    turn of the loop. *)
Fixpoint generations (evs : list event) : nat :=
  match evs with
  | [] => 0
  | Generated _ _ :: evs' => S (generations evs')
  | Invoked _ _ :: evs' => generations evs'
  end.

(** No brace in the text. *)
Definition brace_free (s : string) : bool :=
  forallb (fun c => negb (mem c "{}")) s.

(** Neither end of the text is a character of the class [p]. *)
Definition trimmed (p : ascii -> bool) (s : string) : bool :=
  match first s, last s with
  | Some a, Some b => negb (p a) && negb (p b)
  | _, _ => true
  end.

(** The agent of [w'] is set up as the one of [w], and the task is as it
    was. *)
Definition same_setup {L : LLM} (w w' : world L) : Prop :=
  tools (self w') = tools (self w)
  /\ stop_pattern (self w') = stop_pattern (self w)
  /\ debug (self w') = debug (self w)
  /\ task w' = task w.



(** The end of the default prompt around a goal, and the template before
    it. *)
Definition prompt_end (goal : string) : string :=
  nl ++ goal ++ nl ++ nl ++ "First Thought:" ++ nl ++ "{previous_responses}" ++ nl.

Definition TEMPLATE_HEAD : string :=
  substring 0 (String.length PROMPT_TEMPLATE - String.length (prompt_end "{goal}"))
    PROMPT_TEMPLATE.

(** The number of calls of tools among the recorded calls. *)
Fixpoint invocations (evs : list event) : nat :=
  match evs with
  | [] => 0
  | Generated _ _ :: evs' => invocations evs'
  | Invoked _ _ :: evs' => S (invocations evs')
  end.

(** The text of a [JSONDecodeError], the one class the first [try] of the
    loop catches. *)
Definition decoding_error (e : exn) : option string :=
  match e with
  | JSONDecodeError msg => Some msg
  | _ => None
  end.

(** What the first [try] of a turn leaves in [tool_input], and the state it
    leaves, when the turn goes on: the decoded object, or outside debug mode
    the cleaned text with the failure logged. *)
Definition input_kept {L : LLM} {R : Runtime} (w : world L)
    (curr_prompt tool_input : string) (kept : pyobj) (w1 : world L) : Prop :=
  (json_loads (remove_control tool_input) = inr kept /\ w1 = asked w curr_prompt)
  \/ exists e : string,
       json_loads (remove_control tool_input) = inl (JSONDecodeError e)
       /\ debug (self w) = false
       /\ kept = PStr (remove_control tool_input)
       /\ w1 = with_error (JSONDecodeError e) (asked w curr_prompt).

(** What the second [try] leaves in [tool_result], and the state it leaves,
    when the turn goes on: what the tool returned, or outside debug mode the
    text made of the exception, which is logged. *)
Definition result_kept {L : LLM} (w : world L) (the_tool : BaseTool)
    (kept : pyobj) (w1 : world L) (tool_result : string) (w2 : world L) : Prop :=
  (apply_tool the_tool kept = inr tool_result /\ w2 = invoked the_tool kept w1)
  \/ exists e : raised,
       apply_tool the_tool kept = inl e
       /\ is_exception e = true
       /\ debug (self w) = false
       /\ tool_result = "Error from tool: " ++ exc_str e
       /\ w2 = with_error (Raised e) (invoked the_tool kept w1).

(** The eight ways a turn ends: the prompt does not render; the reply does
    not parse; the tool is unknown; the decoder raises what the loop does
    not catch; in debug mode the input does not decode, or the call raises;
    the call raises what the loop does not catch; or the turn goes
    through. *)
Inductive turn_ends {L : LLM} {R : Runtime} (w : world L) (prompt : string)
    (previous_responses : list string)
  : (exn + list string * option string) * world L -> Prop :=
| Unrendered (e : exn) :
    fill prompt previous_responses = inl e ->
    turn_ends w prompt previous_responses (inl e, w)
| Unparsed (curr_prompt : string) :
    fill prompt previous_responses = inr curr_prompt ->
    parsed (reply w curr_prompt) = None ->
    turn_ends w prompt previous_responses
      (inl (if debug (self w)
            then ValueError (unparsable (reply w curr_prompt))
            else AttributeError "'NoneType' object has no attribute 'group'"),
       with_error (ValueError (unparsable (reply w curr_prompt)))
                  (asked w curr_prompt))
| Unknown (curr_prompt tool tool_input : string) :
    fill prompt previous_responses = inr curr_prompt ->
    parsed (reply w curr_prompt) = Some (tool, tool_input) ->
    tool_by_names (self w) tool = None ->
    turn_ends w prompt previous_responses
      (inl (ValueError ("Unknown tool: " ++ tool)), asked w curr_prompt)
| Undecoded (curr_prompt tool tool_input : string) (the_tool : BaseTool)
            (e : string) :
    fill prompt previous_responses = inr curr_prompt ->
    parsed (reply w curr_prompt) = Some (tool, tool_input) ->
    tool_by_names (self w) tool = Some the_tool ->
    json_loads (remove_control tool_input) = inl (JSONDecodeError e) ->
    debug (self w) = true ->
    turn_ends w prompt previous_responses
      (inl (ValueError ("Error parsing JSON: " ++ e)),
       with_error (JSONDecodeError e) (asked w curr_prompt))
| Escaped_decoder (curr_prompt tool tool_input : string) (the_tool : BaseTool)
                  (e : exn) :
    fill prompt previous_responses = inr curr_prompt ->
    parsed (reply w curr_prompt) = Some (tool, tool_input) ->
    tool_by_names (self w) tool = Some the_tool ->
    json_loads (remove_control tool_input) = inl e ->
    decoding_error e = None ->
    turn_ends w prompt previous_responses (inl e, asked w curr_prompt)
| Failed (curr_prompt tool tool_input : string) (the_tool : BaseTool)
         (decoded : pyobj) (e : raised) :
    fill prompt previous_responses = inr curr_prompt ->
    parsed (reply w curr_prompt) = Some (tool, tool_input) ->
    tool_by_names (self w) tool = Some the_tool ->
    json_loads (remove_control tool_input) = inr decoded ->
    apply_tool the_tool decoded = inl e ->
    is_exception e = true ->
    debug (self w) = true ->
    turn_ends w prompt previous_responses
      (inl (ValueError ("Error from tool: " ++ exc_str e)),
       with_error (Raised e) (invoked the_tool decoded (asked w curr_prompt)))
| Escaped_tool (curr_prompt tool tool_input : string) (the_tool : BaseTool)
               (kept : pyobj) (w1 : world L) (e : raised) :
    fill prompt previous_responses = inr curr_prompt ->
    parsed (reply w curr_prompt) = Some (tool, tool_input) ->
    tool_by_names (self w) tool = Some the_tool ->
    input_kept w curr_prompt tool_input kept w1 ->
    apply_tool the_tool kept = inl e ->
    is_exception e = false ->
    turn_ends w prompt previous_responses
      (inl (Raised e), invoked the_tool kept w1)
| Finished (curr_prompt tool tool_input : string) (the_tool : BaseTool)
           (kept : pyobj) (w1 : world L) (tool_result : string) (w2 : world L) :
    fill prompt previous_responses = inr curr_prompt ->
    parsed (reply w curr_prompt) = Some (tool, tool_input) ->
    tool_by_names (self w) tool = Some the_tool ->
    input_kept w curr_prompt tool_input kept w1 ->
    result_kept w the_tool kept w1 tool_result w2 ->
    turn_ends w prompt previous_responses
      (inr ((previous_responses
             ++ [observed (reply w curr_prompt) tool_result])%list,
            if String.eqb tool FINAL_ANSWER then Some tool_result else None),
       let w3 := with_response
                   (strip (observed (reply w curr_prompt) tool_result)) w2 in
       if String.eqb tool FINAL_ANSWER then with_output tool_result w3 else w3).

(** The agent of [w'] is configured as the one of [w]: a run writes
    neither of these attributes, nor the goal of the task. *)
Definition same_configuration {L : LLM} (w w' : world L) : Prop :=
  tools (self w') = tools (self w)
  /\ prompt_template (self w') = prompt_template (self w)
  /\ max_loops (self w') = max_loops (self w)
  /\ stop_pattern (self w') = stop_pattern (self w)
  /\ verbose (self w') = verbose (self w)
  /\ debug (self w') = debug (self w)
  /\ goal (task w') = goal (task w).

(** The list [l'] is [l] with elements appended. *)
Definition extends {A : Type} (l l' : list A) : Prop :=
  exists more : list A, l' = (l ++ more)%list.

(** The three lists a run appends to: the responses and the errors kept by
    the agent, and the calls made. *)
Definition grown {L : LLM} (w w' : world L) : Prop :=
  extends (ai_responses (self w)) (ai_responses (self w'))
  /\ extends (errors_encountered (self w)) (errors_encountered (self w'))
  /\ extends (calls w) (calls w').

(** Whatever the model replies, the decoder and the tool it names raise
    nothing but what the loop catches: a [JSONDecodeError] for the decoder,
    an instance of [Exception] for the call of the tool. *)
Definition contained {L : LLM} {R : Runtime} (a : t L) : Prop :=
  forall (st : llm_state) (messages : list message) (tool tool_input : string),
    parsed (fst (generate st messages (stop_pattern a))) = Some (tool, tool_input) ->
    (forall e : exn,
        json_loads (remove_control tool_input) = inl e -> decoding_error e <> None)
    /\ (forall (the_tool : BaseTool) (kept : pyobj) (e : raised),
          tool_by_names a tool = Some the_tool ->
          apply_tool the_tool kept = inl e -> is_exception e = true).

(** What is in [tool_input] after the first [try] of a turn that goes on:
    the decoded object, or the cleaned text when the decoder failed. *)
Definition kept_input {R : Runtime} (tool_input : string) : pyobj :=
  match json_loads (remove_control tool_input) with
  | inr decoded => decoded
  | inl _ => PStr (remove_control tool_input)
  end.

(** What is in [tool_result] after the second [try] of a turn that goes
    on: what the tool returned, or the text made of what it raised. *)
Definition kept_result (the_tool : BaseTool) (kept : pyobj) : string :=
  match apply_tool the_tool kept with
  | inr tool_result => tool_result
  | inl e => "Error from tool: " ++ exc_str e
  end.

(** The errors a turn logs between the choice of the tool and its end: the
    [JSONDecodeError] of the decoder, then what the call raised. *)
Definition logged {R : Runtime} (the_tool : BaseTool) (tool_input : string)
  : list exn :=
  (match json_loads (remove_control tool_input) with
   | inl (JSONDecodeError msg) => [JSONDecodeError msg]
   | _ => []
   end
   ++ match apply_tool the_tool (kept_input tool_input) with
      | inl e => [Raised e]
      | inr _ => []
      end)%list.

(** A turn that has chosen its tool goes through to its end when neither
    [try] raises: the decoder returns, or fails with a [JSONDecodeError]
    outside debug mode; the call returns, or raises an [Exception] outside
    debug mode. *)
Definition goes_through {R : Runtime} (debug : bool) (the_tool : BaseTool)
    (tool_input : string) : bool :=
  match json_loads (remove_control tool_input) with
  | inr _ => true
  | inl (JSONDecodeError _) => negb debug
  | inl _ => false
  end
  && match apply_tool the_tool (kept_input tool_input) with
     | inr _ => true
     | inl e => negb debug && is_exception e
     end.

(** The state after such a turn. *)
Definition after_turn {L : LLM} {R : Runtime} (w : world L)
    (curr_prompt tool tool_input : string) (the_tool : BaseTool) : world L :=
  let kept := kept_input tool_input in
  let tool_result := kept_result the_tool kept in
  let w1 := match json_loads (remove_control tool_input) with
            | inl (JSONDecodeError msg) =>
                with_error (JSONDecodeError msg) (asked w curr_prompt)
            | _ => asked w curr_prompt
            end in
  let w2 := match apply_tool the_tool kept with
            | inl e => with_error (Raised e) (invoked the_tool kept w1)
            | inr _ => invoked the_tool kept w1
            end in
  let w3 := with_response (strip (observed (reply w curr_prompt) tool_result)) w2 in
  if String.eqb tool FINAL_ANSWER then with_output tool_result w3 else w3.

(** A model that, whatever its state and the messages, gives no text that
    parses to the name the loop tests for. *)
Definition never_names_final {L : LLM} (a : t L) : Prop :=
  forall (st : llm_state) (messages : list message) (tool tool_input : string),
    parsed (fst (generate st messages (stop_pattern a))) = Some (tool, tool_input) ->
    tool <> FINAL_ANSWER.

(** The task when a run has returned [tool_result]. *)
Definition completed_with (task : Task) (tool_result : string) : Task :=
  {| goal := goal task; raw_output := Some tool_result; completed := true |}.

End Agent.

(** ** Instances of the collaborators

    Used to run the agent on examples. *)

Module Sample.

Import PyStr.

(** Modelled from the spec: [ReturnFinalAnswerTool] of [tools/base_tool.py],
    the sentinel tool whose [run] echoes its single input back as the final
    answer text, under the name the agent tests for.  A call that does not
    bind exactly one text argument raises. *)
Definition ReturnFinalAnswerTool : BaseTool :=
  {| name := "Return Final Answer Tool";
     description := "returns the final answer";
     _describe_run := "run(final_answer)";
     run := fun kw =>
              match kw with
              | [(_, PStr answer)] => inr answer
              | _ => inl {| exc_class := "TypeError";
                            exc_str := "run() takes one text argument";
                            is_exception := true |}
              end;
     run_qualname := "ReturnFinalAnswerTool.run";
     is_final_answer := true |}.

(** A tool that answers every query. *)
Definition Search : BaseTool :=
  {| name := "Search";
     description := "searches the web";
     _describe_run := "run(q)";
     run := fun kw =>
              match lookup "q" kw with
              | Some (PStr q) => inr ("results for " ++ q)
              | _ => inl {| exc_class := "TypeError"; exc_str := "run() needs q";
                            is_exception := true |}
              end;
     run_qualname := "Search.run";
     is_final_answer := false |}.

(** A tool whose [run] raises [ValueError("bad param")]. *)
Definition Broken : BaseTool :=
  {| name := "Broken";
     description := "always fails";
     _describe_run := "run()";
     run := fun _ => inl {| exc_class := "ValueError"; exc_str := "bad param";
                            is_exception := true |};
     run_qualname := "Broken.run";
     is_final_answer := false |}.

(** A tool under the name the agent tests for whose [run] raises
    [ValueError("bad param")]. *)
Definition BrokenFinal : BaseTool :=
  {| name := "Return Final Answer Tool";
     description := "always fails";
     _describe_run := "run()";
     run := fun _ => inl {| exc_class := "ValueError"; exc_str := "bad param";
                            is_exception := true |};
     run_qualname := "BrokenFinal.run";
     is_final_answer := true |}.

(** A tool of the final-answer class under another name. *)
Definition Renamed : BaseTool :=
  {| name := "Done";
     description := description ReturnFinalAnswerTool;
     _describe_run := _describe_run ReturnFinalAnswerTool;
     run := run ReturnFinalAnswerTool;
     run_qualname := run_qualname ReturnFinalAnswerTool;
     is_final_answer := true |}.

(** A tool of another class under the name the agent tests for. *)
Definition Impostor : BaseTool :=
  {| name := "Return Final Answer Tool";
     description := description Search;
     _describe_run := _describe_run Search;
     run := run Search;
     run_qualname := run_qualname Search;
     is_final_answer := false |}.

(** *** A decoder for a fragment of JSON

    Objects whose members are texts without escapes or plain non-negative
    integers, and such a text or integer alone.  An integer of more than
    4300 digits makes the decoder raise the [ValueError] of [int], which is
    not a [JSONDecodeError].  Anything else is reported as undecodable. *)

Inductive token : Type :=
| TOpen | TClose | TColon | TComma
| TStr (s : string)
| TInt (z : Z) (digits : nat)
| TBad.

Inductive lexing : Type :=
| Between
| InStr (s : string)
| InInt (z : Z) (digits : nat).

Definition json_space (c : ascii) : bool := mem c (" " ++ tab ++ nl ++ chr 13).

Fixpoint lex (m : lexing) (s : string) : list token :=
  match m, s with
  | Between, EmptyString => []
  | InStr _, EmptyString => [TBad]
  | InInt z n, EmptyString => [TInt z n]
  | InStr t, String c s' =>
      if Ascii.eqb c (ascii_of_nat 34) then TStr t :: lex Between s'
      else if Ascii.eqb c (ascii_of_nat 92) || Nat.leb (code c) 31 then [TBad]
      else lex (InStr (t ++ String c EmptyString)) s'
  | InInt z n, String c s' =>
      match Fmt.digit c with
      | Some d => if Z.eqb z 0 then [TBad] else lex (InInt (z * 10 + d) (S n)) s'
      | None =>
          TInt z n ::
          (if json_space c then lex Between s'
           else if Ascii.eqb c "}" then TClose :: lex Between s'
           else if Ascii.eqb c "," then TComma :: lex Between s'
           else [TBad])
      end
  | Between, String c s' =>
      if json_space c then lex Between s'
      else if Ascii.eqb c "{" then TOpen :: lex Between s'
      else if Ascii.eqb c "}" then TClose :: lex Between s'
      else if Ascii.eqb c ":" then TColon :: lex Between s'
      else if Ascii.eqb c "," then TComma :: lex Between s'
      else if Ascii.eqb c (ascii_of_nat 34) then lex (InStr EmptyString) s'
      else match Fmt.digit c with
           | Some d => lex (InInt d 1) s'
           | None => [TBad]
           end
  end.

(** What [int] raises for a literal of [digits] digits, more than the
    limit of 4300. *)
Definition too_long (digits : nat) : exn :=
  ValueError ("Exceeds the limit (4300 digits) for integer string conversion: value has "
              ++ Fmt.decimal (Z.of_nat digits)
              ++ " digits; use sys.set_int_max_str_digits() to increase the limit").

(** A text or an integer: the object, or what reading it raises. *)
Definition scalar (t : token) : option (exn + pyobj) :=
  match t with
  | TStr s => Some (inr (PStr s))
  | TInt z digits =>
      Some (if Nat.ltb 4300 digits then inl (too_long digits) else inr (PInt z))
  | _ => None
  end.

(** The members after the opening brace or after a comma. *)
Fixpoint members (ts : list token) : option (exn + list (string * pyobj)) :=
  match ts with
  | TStr k :: TColon :: v :: ts' =>
      match scalar v with
      | Some (inl e) => Some (inl e)
      | Some (inr o) =>
          match ts' with
          | [TClose] => Some (inr [(k, o)])
          | TComma :: ts'' =>
              match members ts'' with
              | Some (inr l) => Some (inr ((k, o) :: l))
              | other => other
              end
          | _ => None
          end
      | None => None
      end
  | _ => None
  end.

Definition decode (s : string) : exn + pyobj :=
  let undecodable := inl (JSONDecodeError "Expecting value: line 1 column 1 (char 0)") in
  match lex Between s with
  | [TOpen; TClose] => inr (PDict [])
  | TOpen :: ts =>
      match members ts with
      | Some (inr l) => inr (PDict l)
      | Some (inl e) => inl e
      | None => undecodable
      end
  | TInt z digits :: rest =>
      if Nat.ltb 4300 digits then inl (too_long digits)
      else match rest with
           | [] => inr (PInt z)
           | _ => undecodable
           end
  | [TStr s] => inr (PStr s)
  | _ => undecodable
  end.

(** The digit [1] written [n] times. *)
Fixpoint ones (n : nat) : string :=
  match n with
  | O => EmptyString
  | S n' => String "1" (ones n')
  end.

(** A runtime: a fixed day, the decoder above, and no rendering of
    replacement fields beyond the plain ones. *)
Definition runtime : Runtime :=
  {| today := "2024-01-01";
     json_loads := decode;
     format_field := fun _ _ _ _ _ => inl (ValueError "Invalid format specifier") |}.

(** A model that reads its replies from a script, and says nothing once
    the script is over. *)
Definition scripted : LLM :=
  {| llm_state := list string;
     generate := fun script _ _ =>
                   match script with
                   | [] => (EmptyString, [])
                   | reply :: script' => (reply, script')
                   end |}.

(** A model that always gives the same reply. *)
Definition constant (reply : string) : LLM :=
  {| llm_state := unit;
     generate := fun _ _ _ => (reply, tt) |}.

Definition action (tool tool_input : string) : string :=
  "Thought: x" ++ nl ++ "Action: " ++ tool ++ nl ++ "Action Input: " ++ tool_input.

Definition cats : string := "{" ++ dq ++ "q" ++ dq ++ ": " ++ dq ++ "cats" ++ dq ++ "}".

Definition answer42 : string :=
  "{" ++ dq ++ "final_answer" ++ dq ++ ": " ++ dq ++ "42" ++ dq ++ "}".

Definition a_task (goal : string) : Task :=
  {| goal := goal; raw_output := None; completed := false |}.

Definition start {L : LLM} (agent : Agent.t L) (task : Task) : Agent.world L :=
  {| Agent.self := agent; Agent.task := task; Agent.calls := [] |}.

(** An agent made by the constructor with its default template and stop
    sequences. *)
Definition agent {L : LLM} (llm : llm_state) (tools : list BaseTool)
    (max_loops : Z) (debug : bool) : Agent.t L :=
  Agent.__init__ ReturnFinalAnswerTool llm tools Agent.PROMPT_TEMPLATE max_loops
    Agent.default_stop_pattern false debug.


End Sample.

(** * Properties *)

(** ** Text *)

Module PyStrFacts.

Import PyStr.





Lemma filter_forallb (p : ascii -> bool) (s : string) :
  forallb p (filter p s) = true.
Proof.
  induction s as [|c s IH]; simpl; [reflexivity|].
  destruct (p c) eqn:E; simpl; [rewrite E|]; exact IH.
Qed.

Lemma filter_id (p : ascii -> bool) (s : string) :
  forallb p s = true -> filter p s = s.
Proof.
  induction s as [|c s IH]; simpl; [reflexivity|].
  intros H. apply andb_prop in H as [Hc Hs]. rewrite Hc, (IH Hs). reflexivity.
Qed.

Lemma filter_app (p : ascii -> bool) (s u : string) :
  filter p (s ++ u) = filter p s ++ filter p u.
Proof.
  induction s as [|c s IH]; simpl; [reflexivity|].
  rewrite IH. destruct (p c); reflexivity.
Qed.

End PyStrFacts.

(** ** The matcher *)

Module SreFacts.

Import PyStr Sre.

Lemma contains_startswith (x s : string) :
  startswith x s = true -> contains x s = true.
Proof. intros H. destruct s; cbn [contains]; rewrite H; reflexivity. Qed.

Lemma contains_cons (x : string) (c : ascii) (s : string) :
  contains x s = true -> contains x (String c s) = true.
Proof. intros H. cbn [contains]. rewrite H. apply orb_true_r. Qed.

(** A pattern that begins with the characters of [x] matches only where
    the text has [x]. *)
Lemma match_lits (x : string) (q : pattern) :
  forall (s : string) (pos : nat) (ms r : marks),
    match_here (lits x ++ q)%list s pos ms = Some r -> startswith x s = true.
Proof.
  induction x as [|a x IH]; intros s pos ms r H; [destruct s; reflexivity|].
  cbn in H. destruct s as [|b s]; [discriminate H|].
  destruct (Ascii.eqb b a) eqn:E; [|discriminate H].
  apply Ascii.eqb_eq in E. subst b. cbn. rewrite Ascii.eqb_refl.
  exact (IH s _ _ _ H).
Qed.

(** A pattern that has the characters of [x] somewhere in it matches only
    a text that has [x] somewhere in it. *)
Lemma match_here_contains (x : string) (q p : pattern) :
  forall (s : string) (pos : nat) (ms r : marks),
    match_here (p ++ lits x ++ q)%list s pos ms = Some r -> contains x s = true.
Proof.
  induction p as [|node p IH]; intros s pos ms r H.
  - apply contains_startswith. exact (match_lits x q s pos ms r H).
  - destruct node as [c|cs|cs|cs|i]; cbn [app match_here] in H.
    + destruct s as [|b s]; [discriminate H|].
      destruct (Ascii.eqb b c); [|discriminate H].
      apply contains_cons. exact (IH _ _ _ _ H).
    + destruct s as [|b s]; [exact (IH _ _ _ _ H)|].
      destruct (cset_mem cs b); [|exact (IH _ _ _ _ H)].
      destruct (match_here (p ++ lits x ++ q)%list s (S pos) ms) as [r'|] eqn:E.
      * apply contains_cons. exact (IH _ _ _ _ E).
      * exact (IH _ _ _ _ H).
    + revert pos r H. induction s as [|b s IHs]; intros pos r H.
      * exact (IH _ _ _ _ H).
      * destruct (cset_mem cs b); [|exact (IH _ _ _ _ H)].
        match type of H with
        | match ?star with _ => _ end = _ => destruct star as [r'|] eqn:E
        end.
        -- apply contains_cons. exact (IHs _ _ E).
        -- exact (IH _ _ _ _ H).
    + revert pos r H. induction s as [|b s IHs]; intros pos r H.
      * destruct (match_here (p ++ lits x ++ q)%list EmptyString pos ms)
          as [r'|] eqn:E; [exact (IH _ _ _ _ E)|discriminate H].
      * destruct (match_here (p ++ lits x ++ q)%list (String b s) pos ms)
          as [r'|] eqn:E; [exact (IH _ _ _ _ E)|].
        destruct (cset_mem cs b); [|discriminate H].
        apply contains_cons. exact (IHs _ _ H).
    + exact (IH _ _ _ _ H).
Qed.

Lemma search_from_contains (x : string) (q p : pattern) :
  forall (s : string) (pos : nat) (r : marks),
    search_from (p ++ lits x ++ q)%list s pos = Some r -> contains x s = true.
Proof.
  induction s as [|b s IHs]; intros pos r H; cbn [search_from] in H.
  - destruct (match_here (p ++ lits x ++ q)%list EmptyString pos [])
      as [r'|] eqn:E; [|discriminate H].
    exact (match_here_contains x q p _ _ _ _ E).
  - destruct (match_here (p ++ lits x ++ q)%list (String b s) pos [])
      as [r'|] eqn:E.
    + exact (match_here_contains x q p _ _ _ _ E).
    + apply contains_cons. exact (IHs _ _ H).
Qed.

(** The pattern of the parser does not match a text without
    [Action Input:]. *)
Lemma regex_needs_action_input (generated : string) :
  contains "Action Input:" generated = false -> search regex generated = None.
Proof.
  intros H. unfold search.
  destruct (search_from regex generated 0) as [r|] eqn:E; [|reflexivity].
  change regex
    with ((lits "Action: "
           ++ [Opt (OneOf "["); Mark 0; MinStar AnyChar; Mark 1;
               Opt (OneOf "]"); Star (OneOf nl)])
          ++ lits "Action Input:"
          ++ [Star Space; Mark 2; Star AnyChar; Mark 3])%list in E.
  rewrite (search_from_contains _ _ _ _ _ _ E) in H. discriminate H.
Qed.

End SreFacts.

(** ** The parser *)

Module ParseFacts.

Import PyStr Agent.

Section Parse.

Context {L : LLM}.

Lemma parse_matched (w : world L) (generated tool tool_input : string) :
  parsed generated = Some (tool, tool_input) ->
  _parse generated w = (inr (tool, tool_input), w).
Proof.
  unfold parsed, _parse. destruct (Sre.search regex generated); [|discriminate].
  intros H. injection H as <- <-. reflexivity.
Qed.

(** Nothing matches: the failure is logged, then debug mode raises it and
    the other mode fails on the groups of the missing match. *)
Lemma parse_unmatched (w : world L) (generated : string) :
  parsed generated = None ->
  _parse generated w =
    (inl (if debug (self w) then ValueError (unparsable generated)
          else AttributeError "'NoneType' object has no attribute 'group'"),
     with_error (ValueError (unparsable generated)) w).
Proof.
  unfold parsed, _parse. destruct (Sre.search regex generated); [discriminate|].
  intros _. unfold bind, log_error, get, raise, ret. cbn.
  destruct (debug (self w)); reflexivity.
Qed.


End Parse.

End ParseFacts.

(** C1.  A generated text without [Action Input:], so without an
    [Action:]/[Action Input:] pair: the parser records the failure in the
    error log; in debug mode it raises that failure, and otherwise it raises
    an [AttributeError] where the claim has it return the corrective tool
    name. *)
Theorem C1_unparsable_text_raises_in_both_modes :
  forall (L : LLM) (w : Agent.world L) (generated : string),
    PyStr.contains "Action Input:" generated = false ->
    Agent._parse generated w =
      (inl (if Agent.debug (Agent.self w)
            then ValueError (Agent.unparsable generated)
            else AttributeError "'NoneType' object has no attribute 'group'"),
       Agent.with_error (ValueError (Agent.unparsable generated)) w).
Proof.
  intros L w generated H. apply ParseFacts.parse_unmatched.
  unfold Agent.parsed. rewrite (SreFacts.regex_needs_action_input generated H).
  reflexivity.
Qed.

Lemma C1_unparsable_text_raises_in_both_modes_witness :
  let w := Sample.start (Sample.agent (L := Sample.scripted) [] [] 5 false)
                        (Sample.a_task "find cats") in
  Agent._parse "I do not know" w =
    (inl (AttributeError "'NoneType' object has no attribute 'group'"),
     Agent.with_error
       (ValueError "Output of LLM is not parsable for next tool use: `I do not know`")
       w).
Proof.
  intros w.
  exact (C1_unparsable_text_raises_in_both_modes Sample.scripted w "I do not know"
           eq_refl).
Defined.

(** ** The constructor *)

(** C8.  A tool list without a final-answer tool gets the one the
    constructor makes appended at its end, and that is then the only
    final-answer tool of the catalogue; a list that has one is kept as it
    is. *)
Theorem C8_constructor_adds_final_answer_tool :
  forall (L : LLM) (ReturnFinalAnswerTool : BaseTool) (llm : llm_state)
         (tools : list BaseTool) (prompt_template : string) (max_loops : Z)
         (stop_pattern : list string) (verbose debug : bool),
    is_final_answer ReturnFinalAnswerTool = true ->
    let agent := Agent.__init__ ReturnFinalAnswerTool llm tools prompt_template
                   max_loops stop_pattern verbose debug in
    (existsb is_final_answer tools = false ->
       Agent.tools agent = (tools ++ [ReturnFinalAnswerTool])%list
       /\ filter is_final_answer (Agent.tools agent) = [ReturnFinalAnswerTool])
    /\ (existsb is_final_answer tools = true -> Agent.tools agent = tools).
Proof.
  intros L rfat llm tools pt ml sp v d Hfinal agent. subst agent. cbn.
  split; intros H; rewrite H.
  - split; [reflexivity|].
    rewrite filter_app. cbn. rewrite Hfinal.
    replace (filter is_final_answer tools) with (@nil BaseTool); [reflexivity|].
    symmetry. induction tools as [|t ts IH]; [reflexivity|].
    cbn in H. apply orb_false_elim in H as [Ht Hts].
    cbn. rewrite Ht. exact (IH Hts).
  - reflexivity.
Qed.

Lemma C8_constructor_adds_final_answer_tool_witness :
  Agent.tools (Sample.agent (L := Sample.scripted) [] [Sample.Search] 5 false)
    = [Sample.Search; Sample.ReturnFinalAnswerTool]
  /\ filter is_final_answer
       (Agent.tools (Sample.agent (L := Sample.scripted) [] [Sample.Search] 5 false))
     = [Sample.ReturnFinalAnswerTool].
Proof.
  exact (proj1 (C8_constructor_adds_final_answer_tool Sample.scripted
                  Sample.ReturnFinalAnswerTool [] [Sample.Search]
                  Agent.PROMPT_TEMPLATE 5 Agent.default_stop_pattern false false
                  eq_refl) eq_refl).
Defined.

(** ** One turn of the loop *)

Module TurnFacts.

Import PyStr Agent.

Section Turn.

Context {L : LLM} {R : Runtime}.

Lemma tool_by_names_rev (a : t L) (key : string) :
  tool_by_names a key
  = find (fun tool => String.eqb (name tool) key) (rev (tools a)).
Proof.
  unfold tool_by_names. rewrite <- fold_left_rev_right.
  induction (rev (tools a)) as [|x l IH]; [reflexivity|].
  cbn. destruct (String.eqb (name x) key); [reflexivity|exact IH].
Qed.

(** The dictionary has the key exactly when a tool of the catalogue has
    that name. *)
Lemma tool_by_names_None (a : t L) (key : string) :
  tool_by_names a key = None <-> ~ In key (map name (tools a)).
Proof.
  rewrite tool_by_names_rev. split.
  - intros H Hin. apply in_map_iff in Hin as [x [Hx Hin]].
    pose proof (find_none _ _ H x (proj1 (in_rev _ _) Hin)) as Hf.
    cbn in Hf. rewrite (proj2 (String.eqb_eq _ _) Hx) in Hf. discriminate Hf.
  - intros H. destruct (find _ _) as [x|] eqn:E; [|reflexivity].
    apply find_some in E as [Hin Hx]. exfalso. apply H.
    apply in_map_iff. exists x. split; [apply String.eqb_eq; exact Hx|].
    apply in_rev. exact Hin.
Qed.

Lemma tool_by_names_Some (a : t L) (key : string) (tool : BaseTool) :
  tool_by_names a key = Some tool -> name tool = key /\ In tool (tools a).
Proof.
  rewrite tool_by_names_rev. intros H. apply find_some in H as [Hin Hx].
  split; [apply String.eqb_eq; exact Hx|apply in_rev; exact Hin].
Qed.

Lemma llm_generate_eq (w : world L) (curr_prompt : string) :
  llm_generate (user curr_prompt) (stop_pattern (self w)) w
  = (inr (reply w curr_prompt), asked w curr_prompt).
Proof.
  unfold llm_generate, reply, asked.
  destruct (generate _ _ _); reflexivity.
Qed.

Lemma decide_matched (w : world L) (curr_prompt tool tool_input : string) :
  parsed (reply w curr_prompt) = Some (tool, tool_input) ->
  decide_next_action curr_prompt w
  = (inr (reply w curr_prompt, tool, tool_input), asked w curr_prompt).
Proof.
  intros H. unfold decide_next_action, bind, get. cbn.
  rewrite llm_generate_eq, (ParseFacts.parse_matched _ _ _ _ H). reflexivity.
Qed.

Lemma decide_unmatched (w : world L) (curr_prompt : string) :
  parsed (reply w curr_prompt) = None ->
  decide_next_action curr_prompt w
  = (inl (if debug (self w)
          then ValueError (unparsable (reply w curr_prompt))
          else AttributeError "'NoneType' object has no attribute 'group'"),
     with_error (ValueError (unparsable (reply w curr_prompt)))
                (asked w curr_prompt)).
Proof.
  intros H. unfold decide_next_action, bind, get. cbn.
  rewrite llm_generate_eq, (ParseFacts.parse_unmatched _ _ H). reflexivity.
Qed.

Lemma invoked_self (tool : BaseTool) (tool_input : pyobj) (w : world L) :
  self (invoked tool tool_input w) = self w.
Proof. destruct tool_input; reflexivity. Qed.

Lemma invoked_task (tool : BaseTool) (tool_input : pyobj) (w : world L) :
  task (invoked tool tool_input w) = task w.
Proof. destruct tool_input; reflexivity. Qed.

Lemma generations_app (evs evs' : list event) :
  generations (evs ++ evs') = generations evs + generations evs'.
Proof.
  induction evs as [|ev evs IH]; [reflexivity|].
  destruct ev; cbn; rewrite IH; reflexivity.
Qed.

Lemma invoked_generations (tool : BaseTool) (tool_input : pyobj) (w : world L) :
  generations (calls (invoked tool tool_input w)) = generations (calls w).
Proof.
  destruct tool_input; try reflexivity.
  cbn. rewrite generations_app. cbn. apply Nat.add_0_r.
Qed.

Lemma asked_generations (w : world L) (curr_prompt : string) :
  generations (calls (asked w curr_prompt)) = S (generations (calls w)).
Proof. cbn. rewrite generations_app. cbn. apply Nat.add_1_r. Qed.

Lemma load_input_decoded (w : world L) (tool_input : string) (decoded : pyobj) :
  json_loads (remove_control tool_input) = inr decoded ->
  load_input tool_input w = (inr decoded, w).
Proof. intros H. unfold load_input. rewrite H. reflexivity. Qed.

Lemma load_input_failed (w : world L) (tool_input e : string) :
  json_loads (remove_control tool_input) = inl (JSONDecodeError e) ->
  load_input tool_input w
  = (if debug (self w) then inl (ValueError ("Error parsing JSON: " ++ e))
     else inr (PStr (remove_control tool_input)),
     with_error (JSONDecodeError e) w).
Proof.
  intros H. unfold load_input. rewrite H.
  unfold bind, log_error, get, raise, ret. cbn.
  destruct (debug (self w)); reflexivity.
Qed.

(** What the decoder raises and is not a [JSONDecodeError] leaves the
    method, with nothing written. *)
Lemma load_input_escaped (w : world L) (tool_input : string) (e : exn) :
  json_loads (remove_control tool_input) = inl e ->
  decoding_error e = None ->
  load_input tool_input w = (inl e, w).
Proof.
  intros H He. unfold load_input. rewrite H.
  destruct e; try reflexivity. discriminate He.
Qed.

Lemma decoding_error_Some (e : exn) (msg : string) :
  decoding_error e = Some msg -> e = JSONDecodeError msg.
Proof. destruct e; try discriminate. intros H. injection H as ->. reflexivity. Qed.

Lemma dispatch_returned (w : world L) (tool : BaseTool) (tool_input : pyobj)
    (tool_result : string) :
  apply_tool tool tool_input = inr tool_result ->
  dispatch tool tool_input w = (inr tool_result, invoked tool tool_input w).
Proof.
  intros H. unfold dispatch, bind, call_tool. rewrite H. reflexivity.
Qed.

Lemma dispatch_raised (w : world L) (tool : BaseTool) (tool_input : pyobj)
    (e : raised) :
  apply_tool tool tool_input = inl e ->
  is_exception e = true ->
  dispatch tool tool_input w
  = (if debug (self w) then inl (ValueError ("Error from tool: " ++ exc_str e))
     else inr ("Error from tool: " ++ exc_str e),
     with_error (Raised e) (invoked tool tool_input w)).
Proof.
  intros H He. unfold dispatch, bind, call_tool. rewrite H, He.
  unfold log_error, get, raise, ret. cbn.
  replace (debug (self (invoked tool tool_input w))) with (debug (self w))
    by (destruct tool_input; reflexivity).
  destruct (debug (self w)); reflexivity.
Qed.

(** What the call raises and is not an [Exception] leaves the method:
    the call was made, nothing is logged. *)
Lemma dispatch_escaped (w : world L) (tool : BaseTool) (tool_input : pyobj)
    (e : raised) :
  apply_tool tool tool_input = inl e ->
  is_exception e = false ->
  dispatch tool tool_input w = (inl (Raised e), invoked tool tool_input w).
Proof.
  intros H He. unfold dispatch, bind, call_tool. rewrite H, He. reflexivity.
Qed.

(** The part of a turn that follows the choice of a tool of the
    catalogue. *)
Lemma turn_known (w : world L) (prompt : string) (previous_responses : list string)
    (curr_prompt tool tool_input : string) (the_tool : BaseTool) :
  fill prompt previous_responses = inr curr_prompt ->
  parsed (reply w curr_prompt) = Some (tool, tool_input) ->
  tool_by_names (self w) tool = Some the_tool ->
  turn prompt previous_responses w
  = (tool_input <- load_input tool_input ;;
     tool_result <- dispatch the_tool tool_input ;;
     remember (strip (observed (reply w curr_prompt) tool_result)) ;;
     if String.eqb tool FINAL_ANSWER then
       complete_task tool_result ;;
       ret ((previous_responses
             ++ [observed (reply w curr_prompt) tool_result])%list,
            Some tool_result)
     else ret ((previous_responses
                ++ [observed (reply w curr_prompt) tool_result])%list, None))
      (asked w curr_prompt).
Proof.
  intros Hfill Hparsed Htool. unfold turn.
  unfold bind at 1. unfold lift. rewrite Hfill.
  unfold bind at 1. rewrite (decide_matched _ _ _ _ Hparsed).
  unfold bind at 1. unfold get.
  change (tool_by_names (self (asked w curr_prompt)) tool)
    with (tool_by_names (self w) tool).
  rewrite Htool. reflexivity.
Qed.

Lemma turn_unknown (w : world L) (prompt : string) (previous_responses : list string)
    (curr_prompt tool tool_input : string) :
  fill prompt previous_responses = inr curr_prompt ->
  parsed (reply w curr_prompt) = Some (tool, tool_input) ->
  tool_by_names (self w) tool = None ->
  turn prompt previous_responses w
  = (inl (ValueError ("Unknown tool: " ++ tool)), asked w curr_prompt).
Proof.
  intros Hfill Hparsed Htool. unfold turn.
  unfold bind at 1. unfold lift. rewrite Hfill.
  unfold bind at 1. rewrite (decide_matched _ _ _ _ Hparsed).
  unfold bind at 1. unfold get.
  change (tool_by_names (self (asked w curr_prompt)) tool)
    with (tool_by_names (self w) tool).
  rewrite Htool. reflexivity.
Qed.

(** The end of a turn, once the tool result is there. *)
Lemma turn_end (w : world L) (previous_responses : list string)
    (generated tool tool_result : string) :
  (remember (strip (observed generated tool_result)) ;;
   if String.eqb tool FINAL_ANSWER then
     complete_task tool_result ;;
     ret ((previous_responses ++ [observed generated tool_result])%list,
          Some tool_result)
   else ret ((previous_responses ++ [observed generated tool_result])%list, None)) w
  = (inr ((previous_responses ++ [observed generated tool_result])%list,
          if String.eqb tool FINAL_ANSWER then Some tool_result else None),
     let w' := with_response (strip (observed generated tool_result)) w in
     if String.eqb tool FINAL_ANSWER then with_output tool_result w' else w').
Proof.
  unfold bind, remember, complete_task, ret.
  destruct (String.eqb tool FINAL_ANSWER); reflexivity.
Qed.

Lemma turn_fill_raises (w : world L) (prompt : string)
    (previous_responses : list string) (e : exn) :
  fill prompt previous_responses = inl e ->
  turn prompt previous_responses w = (inl e, w).
Proof.
  intros Hfill. unfold turn. unfold bind at 1. unfold lift. rewrite Hfill.
  reflexivity.
Qed.

Lemma turn_parse_raises (w : world L) (prompt : string)
    (previous_responses : list string) (curr_prompt : string) :
  fill prompt previous_responses = inr curr_prompt ->
  parsed (reply w curr_prompt) = None ->
  turn prompt previous_responses w
  = (inl (if debug (self w)
          then ValueError (unparsable (reply w curr_prompt))
          else AttributeError "'NoneType' object has no attribute 'group'"),
     with_error (ValueError (unparsable (reply w curr_prompt)))
                (asked w curr_prompt)).
Proof.
  intros Hfill Hparsed. unfold turn. unfold bind at 1. unfold lift.
  rewrite Hfill. unfold bind at 1. rewrite (decide_unmatched _ _ Hparsed).
  reflexivity.
Qed.

Lemma turn_finishes (w w1 w2 : world L) (prompt : string)
    (previous_responses : list string) (curr_prompt tool tool_input : string)
    (the_tool : BaseTool) (kept : pyobj) (tool_result : string) :
  fill prompt previous_responses = inr curr_prompt ->
  parsed (reply w curr_prompt) = Some (tool, tool_input) ->
  tool_by_names (self w) tool = Some the_tool ->
  load_input tool_input (asked w curr_prompt) = (inr kept, w1) ->
  dispatch the_tool kept w1 = (inr tool_result, w2) ->
  turn prompt previous_responses w
  = (inr ((previous_responses
           ++ [observed (reply w curr_prompt) tool_result])%list,
          if String.eqb tool FINAL_ANSWER then Some tool_result else None),
     let w' := with_response
                 (strip (observed (reply w curr_prompt) tool_result)) w2 in
     if String.eqb tool FINAL_ANSWER then with_output tool_result w' else w').
Proof.
  intros Hfill Hparsed Htool Hload Hcall.
  rewrite (turn_known w prompt previous_responses curr_prompt tool tool_input
             the_tool Hfill Hparsed Htool).
  unfold bind at 1. rewrite Hload. unfold bind at 1. rewrite Hcall.
  apply turn_end.
Qed.

Lemma turn_load_raises (w w1 : world L) (prompt : string)
    (previous_responses : list string) (curr_prompt tool tool_input : string)
    (the_tool : BaseTool) (e : exn) :
  fill prompt previous_responses = inr curr_prompt ->
  parsed (reply w curr_prompt) = Some (tool, tool_input) ->
  tool_by_names (self w) tool = Some the_tool ->
  load_input tool_input (asked w curr_prompt) = (inl e, w1) ->
  turn prompt previous_responses w = (inl e, w1).
Proof.
  intros Hfill Hparsed Htool Hload.
  rewrite (turn_known w prompt previous_responses curr_prompt tool tool_input
             the_tool Hfill Hparsed Htool).
  unfold bind at 1. rewrite Hload. reflexivity.
Qed.

Lemma turn_dispatch_raises (w w1 w2 : world L) (prompt : string)
    (previous_responses : list string) (curr_prompt tool tool_input : string)
    (the_tool : BaseTool) (kept : pyobj) (e : exn) :
  fill prompt previous_responses = inr curr_prompt ->
  parsed (reply w curr_prompt) = Some (tool, tool_input) ->
  tool_by_names (self w) tool = Some the_tool ->
  load_input tool_input (asked w curr_prompt) = (inr kept, w1) ->
  dispatch the_tool kept w1 = (inl e, w2) ->
  turn prompt previous_responses w = (inl e, w2).
Proof.
  intros Hfill Hparsed Htool Hload Hcall.
  rewrite (turn_known w prompt previous_responses curr_prompt tool tool_input
             the_tool Hfill Hparsed Htool).
  unfold bind at 1. rewrite Hload. unfold bind at 1. rewrite Hcall. reflexivity.
Qed.

Lemma remove_control_clean (s : string) :
  forallb (fun c => negb (is_control c)) (remove_control s) = true.
Proof. apply PyStrFacts.filter_forallb. Qed.

Lemma remove_control_trailing (text : string) (c : ascii) :
  forallb (fun c => negb (is_control c)) text = true ->
  is_control c = true ->
  remove_control (text ++ String c EmptyString) = text.
Proof.
  intros Htext Hc. unfold remove_control.
  rewrite PyStrFacts.filter_app, (PyStrFacts.filter_id _ _ Htext).
  cbn. rewrite Hc. cbn. clear. induction text as [|d text IH]; cbn; congruence.
Qed.

Lemma is_control_spec (c : ascii) :
  is_control c = true <-> (code c <= 31 \/ code c = 127).
Proof.
  unfold is_control. rewrite orb_true_iff, Nat.leb_le, Nat.eqb_eq. reflexivity.
Qed.

End Turn.

End TurnFacts.

(** ** The claims on one turn *)

(** C7.  Whenever the loop has a turn to make and the tool name parsed in it
    is not a name of the catalogue, the loop ends there with
    [ValueError("Unknown tool: ...")], whatever the debug flag: nothing is
    logged or remembered, no tool is called, no further turn is made. *)
Theorem C7_unknown_tool_stops_the_run :
  forall (L : LLM) (R : Runtime) (w : Agent.world L) (prompt : string)
         (previous_responses : list string) (curr_prompt tool tool_input : string)
         (turns : nat),
    Agent.fill prompt previous_responses = inr curr_prompt ->
    Agent.parsed (Agent.reply w curr_prompt) = Some (tool, tool_input) ->
    ~ In tool (map name (Agent.tools (Agent.self w))) ->
    Agent.loop (S turns) prompt previous_responses w
      = (inl (ValueError ("Unknown tool: " ++ tool)), Agent.asked w curr_prompt)
    /\ Agent.errors_encountered (Agent.self (Agent.asked w curr_prompt))
       = Agent.errors_encountered (Agent.self w)
    /\ Agent.ai_responses (Agent.self (Agent.asked w curr_prompt))
       = Agent.ai_responses (Agent.self w)
    /\ Agent.task (Agent.asked w curr_prompt) = Agent.task w
    /\ Agent.calls (Agent.asked w curr_prompt)
       = (Agent.calls w
          ++ [Agent.Generated (Agent.user curr_prompt)
                              (Agent.stop_pattern (Agent.self w))])%list.
Proof.
  intros L R w prompt prev cp tool raw turns Hfill Hparsed Hnot.
  apply TurnFacts.tool_by_names_None in Hnot.
  repeat split.
  cbn [Agent.loop]. unfold Agent.bind at 1.
  rewrite (TurnFacts.turn_unknown w prompt prev cp tool raw Hfill Hparsed Hnot).
  reflexivity.
Qed.

Lemma C7_unknown_tool_stops_the_run_witness :
  let w := Sample.start
             (Sample.agent (L := Sample.scripted)
                [Sample.action "Lookup" Sample.cats] [Sample.Search] 5 false)
             (Sample.a_task "find cats") in
  Agent.loop (R := Sample.runtime) 5 "Q: {previous_responses}" [] w
  = (inl (ValueError "Unknown tool: Lookup"), Agent.asked w "Q: ").
Proof.
  intros w.
  refine (proj1 (C7_unknown_tool_stops_the_run Sample.scripted Sample.runtime w
                   "Q: {previous_responses}" [] "Q: " "Lookup" Sample.cats 4
                   _ _ _)).
  - reflexivity.
  - vm_compute. reflexivity.
  - vm_compute. intros [H|[H|[]]]; discriminate H.
Defined.

(** ** The formatter on text without braces *)

Module FmtFacts.

Import PyStr Fmt.

Section Scan.

Context {R : Runtime}.

Lemma scan_text_other (kw : kwargs) (c : ascii) (s : string) :
  mem c "{}" = false ->
  scan kw Text (String c s) = cons_out c (scan kw Text s).
Proof.
  destruct c as [b0 b1 b2 b3 b4 b5 b6 b7].
  destruct b0, b1, b2, b3, b4, b5, b6, b7;
    (discriminate || (intros _; reflexivity)).
Qed.

Lemma app_out_cons (c : ascii) (u : string) (r : exn + string) :
  cons_out c (app_out (inr u) r) = app_out (inr (String c u)) r.
Proof. destruct r; reflexivity. Qed.

Lemma app_out_nil (r : exn + string) : app_out (inr EmptyString) r = r.
Proof. destruct r; reflexivity. Qed.

(** Text without braces goes through the formatter as it is, whatever
    follows it. *)
Lemma scan_text_free (kw : kwargs) (u s : string) :
  Agent.brace_free u = true ->
  scan kw Text (u ++ s) = app_out (inr u) (scan kw Text s).
Proof.
  unfold Agent.brace_free. induction u as [|c u IH]; cbn [forallb append].
  - intros _. symmetry. apply app_out_nil.
  - intros H. apply andb_prop in H as [Hc Hu].
    apply negb_true_iff in Hc.
    rewrite (scan_text_other kw c (u ++ s) Hc), (IH Hu). apply app_out_cons.
Qed.

Lemma scan_open_other (kw : kwargs) (d : ascii) (s : string) :
  Ascii.eqb d "{" = false ->
  scan kw Text (String "{" (String d s)) = scan kw (Name EmptyString false) (String d s).
Proof.
  destruct d as [b0 b1 b2 b3 b4 b5 b6 b7].
  destruct b0, b1, b2, b3, b4, b5, b6, b7;
    (discriminate || (intros _; reflexivity)).
Qed.

Lemma scan_close_other (kw : kwargs) (d : ascii) (s : string) :
  Ascii.eqb d "}" = false ->
  scan kw Text (String "}" (String d s))
  = inl (ValueError "Single '}' encountered in format string").
Proof.
  destruct d as [b0 b1 b2 b3 b4 b5 b6 b7].
  destruct b0, b1, b2, b3, b4, b5, b6, b7;
    (discriminate || (intros _; reflexivity)).
Qed.

Lemma append_assoc (a b c : string) : (a ++ b) ++ c = a ++ (b ++ c).
Proof. induction a as [|x a IH]; cbn; [reflexivity|rewrite IH; reflexivity]. Qed.

Lemma app_out_assoc (a b : string) (r : exn + string) :
  app_out (inr a) (app_out (inr b) r) = app_out (inr (a ++ b)) r.
Proof. destruct r; [reflexivity|]. cbn. rewrite append_assoc. reflexivity. Qed.

Lemma app_out_inl (r : exn + string) (e : exn) :
  exists e' : exn, app_out r (inl e) = inl e'.
Proof. destruct r as [e0|a]; [exists e0|exists e]; reflexivity. Qed.

(** *** Text that renders can be followed by any text

    When the scan of [u] ends well, it ends in literal text, and the scan of
    [u ++ s] is the scan of [s] after it. *)

Lemma scan_app_field (kw : kwargs) (f : field) (u u' s : string) :
  (forall (m : mode) (u' : string),
      scan kw m u = inr u' ->
      scan kw m (u ++ s) = app_out (inr u') (scan kw Text s)) ->
  app_out (render_field kw f) (scan kw Text u) = inr u' ->
  app_out (render_field kw f) (scan kw Text (u ++ s))
  = app_out (inr u') (scan kw Text s).
Proof.
  intros Hu H. destruct (render_field kw f) as [e|a]; [discriminate H|].
  destruct (scan kw Text u) as [e|b] eqn:E; [discriminate H|].
  cbn in H. injection H as <-.
  rewrite (Hu Text b E). apply app_out_assoc.
Qed.

Lemma scan_app_cons (kw : kwargs) (c : ascii) (u u' s : string) :
  (forall (m : mode) (u' : string),
      scan kw m u = inr u' ->
      scan kw m (u ++ s) = app_out (inr u') (scan kw Text s)) ->
  cons_out c (scan kw Text u) = inr u' ->
  cons_out c (scan kw Text (u ++ s)) = app_out (inr u') (scan kw Text s).
Proof.
  intros Hu H. destruct (scan kw Text u) as [e|b] eqn:E; [discriminate H|].
  cbn in H. injection H as <-.
  rewrite (Hu Text b E). apply app_out_cons.
Qed.

Lemma scan_app_bounded (kw : kwargs) (s : string) (n : nat) :
  forall u : string, String.length u <= n ->
  forall (m : mode) (u' : string),
    scan kw m u = inr u' ->
    scan kw m (u ++ s) = app_out (inr u') (scan kw Text s).
Proof.
  induction n as [|n IH].
  - intros [|c u] Hlen; [|cbn in Hlen; lia].
    intros m u' H. destruct m; cbn in H; try discriminate H.
    injection H as <-. cbn. symmetry. apply app_out_nil.
  - intros [|c u] Hlen.
    { apply (IH EmptyString). cbn. lia. }
    cbn in Hlen.
    assert (Hu : forall (m : mode) (u' : string),
               scan kw m u = inr u' ->
               scan kw m (u ++ s) = app_out (inr u') (scan kw Text s))
      by (apply IH; lia).
    intros m u' H. destruct m as [|name bracket|name|name conv|name conv depth spec].
    + destruct (Ascii.eqb c "{") eqn:Eo.
      { apply Ascii.eqb_eq in Eo. subst c.
        destruct u as [|d u2]; [discriminate H|].
        destruct (Ascii.eqb d "{") eqn:Ed.
        - apply Ascii.eqb_eq in Ed. subst d.
          change (cons_out "{" (scan kw Text u2) = inr u') in H.
          change (cons_out "{" (scan kw Text (u2 ++ s))
                  = app_out (inr u') (scan kw Text s)).
          apply scan_app_cons; [apply IH; cbn in Hlen; lia|exact H].
        - rewrite (scan_open_other kw d u2 Ed) in H.
          cbn [append]. rewrite (scan_open_other kw d (u2 ++ s) Ed).
          exact (Hu _ u' H). }
      destruct (Ascii.eqb c "}") eqn:Ec.
      { apply Ascii.eqb_eq in Ec. subst c.
        destruct u as [|d u2]; [discriminate H|].
        destruct (Ascii.eqb d "}") eqn:Ed.
        - apply Ascii.eqb_eq in Ed. subst d.
          change (cons_out "}" (scan kw Text u2) = inr u') in H.
          change (cons_out "}" (scan kw Text (u2 ++ s))
                  = app_out (inr u') (scan kw Text s)).
          apply scan_app_cons; [apply IH; cbn in Hlen; lia|exact H].
        - rewrite (scan_close_other kw d u2 Ed) in H. discriminate H. }
      assert (Hc : mem c "{}" = false) by (cbn; rewrite Eo, Ec; reflexivity).
      rewrite (scan_text_other kw c u Hc) in H.
      cbn [append]. rewrite (scan_text_other kw c (u ++ s) Hc).
      apply scan_app_cons; assumption.
    + cbn [append scan] in *. destruct bracket; [exact (Hu _ u' H)|].
      destruct (Ascii.eqb c "{"); [discriminate H|].
      destruct (Ascii.eqb c "["); [exact (Hu _ u' H)|].
      destruct (Ascii.eqb c "}"); [apply scan_app_field; assumption|].
      destruct (Ascii.eqb c ":"); [exact (Hu _ u' H)|].
      destruct (Ascii.eqb c "!"); exact (Hu _ u' H).
    + cbn [append scan] in *. exact (Hu _ u' H).
    + cbn [append scan] in *.
      destruct (Ascii.eqb c "}"); [apply scan_app_field; assumption|].
      destruct (Ascii.eqb c ":"); [exact (Hu _ u' H)|discriminate H].
    + cbn [append scan] in *.
      destruct (Ascii.eqb c "{"); [exact (Hu _ u' H)|].
      destruct (Ascii.eqb c "}"); [|exact (Hu _ u' H)].
      destruct depth; [apply scan_app_field; assumption|exact (Hu _ u' H)].
Qed.

Lemma scan_app (kw : kwargs) (m : mode) (u u' s : string) :
  scan kw m u = inr u' ->
  scan kw m (u ++ s) = app_out (inr u') (scan kw Text s).
Proof. apply (scan_app_bounded kw s (String.length u) u (le_n _)). Qed.

(** *** The end of the default prompt around an opening brace

    Whatever comes before it and wherever the scan stands when it reaches
    it, the scan fails. *)

Lemma doomed_end (kw : kwargs) (m : mode) :
  exists e : exn, scan kw m (Agent.prompt_end "{") = inl e.
Proof.
  destruct m as [|name bracket|name|name conv|name conv depth spec];
    try destruct bracket; eexists; vm_compute; reflexivity.
Qed.

Lemma doomed_bounded (kw : kwargs) (n : nat) :
  forall u : string, String.length u <= n ->
  forall m : mode, exists e : exn, scan kw m (u ++ Agent.prompt_end "{") = inl e.
Proof.
  set (D := Agent.prompt_end "{").
  induction n as [|n IH].
  - intros [|c u] Hlen; [|cbn in Hlen; lia]. intros m. apply doomed_end.
  - intros [|c u] Hlen.
    { intros m. apply doomed_end. }
    cbn in Hlen.
    assert (Hu : forall m : mode, exists e : exn, scan kw m (u ++ D) = inl e)
      by (apply IH; lia).
    assert (Hfield : forall f : field,
               exists e : exn,
                 app_out (render_field kw f) (scan kw Text (u ++ D)) = inl e).
    { intros f. destruct (Hu Text) as [e He]. rewrite He. apply app_out_inl. }
    assert (Hcons : forall x : ascii,
               exists e : exn, cons_out x (scan kw Text (u ++ D)) = inl e).
    { intros x. destruct (Hu Text) as [e He]. rewrite He. exists e. reflexivity. }
    intros m. destruct m as [|name bracket|name|name conv|name conv depth spec].
    + destruct (Ascii.eqb c "{") eqn:Eo.
      { apply Ascii.eqb_eq in Eo. subst c.
        destruct u as [|d u2].
        - eexists. vm_compute. reflexivity.
        - destruct (Ascii.eqb d "{") eqn:Ed.
          + apply Ascii.eqb_eq in Ed. subst d.
            change (exists e, cons_out "{" (scan kw Text (u2 ++ D)) = inl e).
            destruct (IH u2 ltac:(cbn in Hlen; lia) Text) as [e He].
            fold D in He. rewrite He. exists e. reflexivity.
          + cbn [append]. rewrite (scan_open_other kw d (u2 ++ D) Ed).
            exact (Hu _). }
      destruct (Ascii.eqb c "}") eqn:Ec.
      { apply Ascii.eqb_eq in Ec. subst c.
        destruct u as [|d u2].
        - eexists. vm_compute. reflexivity.
        - destruct (Ascii.eqb d "}") eqn:Ed.
          + apply Ascii.eqb_eq in Ed. subst d.
            change (exists e, cons_out "}" (scan kw Text (u2 ++ D)) = inl e).
            destruct (IH u2 ltac:(cbn in Hlen; lia) Text) as [e He].
            fold D in He. rewrite He. exists e. reflexivity.
          + cbn [append]. rewrite (scan_close_other kw d (u2 ++ D) Ed).
            eexists. reflexivity. }
      assert (Hc : mem c "{}" = false) by (cbn; rewrite Eo, Ec; reflexivity).
      cbn [append]. rewrite (scan_text_other kw c (u ++ D) Hc).
      apply Hcons.
    + cbn [append scan]. destruct bracket; [exact (Hu _)|].
      destruct (Ascii.eqb c "{"); [eexists; reflexivity|].
      destruct (Ascii.eqb c "["); [exact (Hu _)|].
      destruct (Ascii.eqb c "}"); [apply Hfield|].
      destruct (Ascii.eqb c ":"); [exact (Hu _)|].
      destruct (Ascii.eqb c "!"); exact (Hu _).
    + cbn [append scan]. exact (Hu _).
    + cbn [append scan].
      destruct (Ascii.eqb c "}"); [apply Hfield|].
      destruct (Ascii.eqb c ":"); [exact (Hu _)|eexists; reflexivity].
    + cbn [append scan].
      destruct (Ascii.eqb c "{"); [exact (Hu _)|].
      destruct (Ascii.eqb c "}"); [|exact (Hu _)].
      destruct depth; [apply Hfield|exact (Hu _)].
Qed.

Lemma doomed (kw : kwargs) (u : string) :
  exists e : exn, Fmt.format (u ++ Agent.prompt_end "{") kw = inl e.
Proof. exact (doomed_bounded kw (String.length u) u (le_n _) Text). Qed.

Lemma template_split :
  Agent.PROMPT_TEMPLATE = Agent.TEMPLATE_HEAD ++ Agent.prompt_end "{goal}".
Proof. vm_compute. reflexivity. Qed.

End Scan.

End FmtFacts.

(** ** The whole run *)

Module RunFacts.

Import PyStr Agent.

Section Run.

Context {L : LLM} {R : Runtime}.

Lemma run_rendered (w : world L) (prompt : string) :
  first_prompt (self w) (task w) = inr prompt ->
  run w = loop (Z.to_nat (max_loops (self w))) prompt (ai_responses (self w)) w.
Proof.
  intros H. unfold run, bind, get, get_task, lift. rewrite H. reflexivity.
Qed.

Lemma run_unrendered (w : world L) (e : exn) :
  first_prompt (self w) (task w) = inl e -> run w = (inl e, w).
Proof.
  intros H. unfold run, bind, get, get_task, lift. rewrite H. reflexivity.
Qed.

Lemma tool_by_names_ext (a b : t L) (key : string) :
  tools a = tools b -> tool_by_names a key = tool_by_names b key.
Proof. intros H. unfold tool_by_names. rewrite H. reflexivity. Qed.

End Run.

End RunFacts.

(** C10.  A task whose goal is an opening brace, given to an agent with the
    default template and at least one turn to make, whatever its tools, its
    model and its debug flag: the first format succeeds and puts the goal in
    the prompt; the format of a turn reads the prompt again and raises,
    whatever the previous responses; so the run ends with that exception in
    its first turn, before the model or a tool is called, the state being as
    it was. *)
Theorem C10_brace_in_goal_breaks_the_prompt :
  forall (L : LLM) (R : Runtime) (w : Agent.world L),
    Agent.prompt_template (Agent.self w) = Agent.PROMPT_TEMPLATE ->
    goal (Agent.task w) = "{" ->
    (0 < Agent.max_loops (Agent.self w))%Z ->
    exists (prompt : string) (e : exn),
      Agent.first_prompt (Agent.self w) (Agent.task w) = inr prompt
      /\ Agent.fill prompt (Agent.ai_responses (Agent.self w)) = inl e
      /\ (forall previous_responses : list string,
             exists e' : exn, Agent.fill prompt previous_responses = inl e')
      /\ Agent.run w = (inl e, w).
Proof.
  intros L R w Htemplate Hgoal Hloops.
  assert (Hfirst : exists head : string,
             Agent.first_prompt (Agent.self w) (Agent.task w)
             = inr (head ++ Agent.prompt_end "{")).
  { unfold Agent.first_prompt, Fmt.format.
    rewrite Htemplate, Hgoal, FmtFacts.template_split.
    generalize (@today R), (Agent.tool_description (Agent.self w)),
      (Agent.tool_names (Agent.self w)).
    intros d td tn.
    destruct (Fmt.scan
                [("today", PDate d); ("tool_description", PStr td);
                 ("tool_names", PStr tn); ("goal", PStr "{");
                 ("previous_responses", PStr "{previous_responses}")]
                Fmt.Text Agent.TEMPLATE_HEAD) as [e|head] eqn:Ehead.
    - vm_compute in Ehead. discriminate Ehead.
    - exists head. rewrite (FmtFacts.scan_app _ _ _ head _ Ehead).
      vm_compute. reflexivity. }
  destruct Hfirst as [head Hfirst].
  assert (Hdoomed : forall prev : list string,
             exists e : exn,
               Agent.fill (head ++ Agent.prompt_end "{") prev = inl e).
  { intros prev. apply FmtFacts.doomed. }
  destruct (Hdoomed (Agent.ai_responses (Agent.self w))) as [e He].
  exists (head ++ Agent.prompt_end "{"), e.
  repeat split; try assumption.
  rewrite (RunFacts.run_rendered w _ Hfirst).
  destruct (Z.to_nat (Agent.max_loops (Agent.self w))) as [|turns] eqn:Hturns;
    [lia|].
  cbn [Agent.loop]. unfold Agent.bind at 1.
  rewrite (TurnFacts.turn_fill_raises w _ _ e He). reflexivity.
Qed.

Lemma C10_brace_in_goal_breaks_the_prompt_witness :
  let w := Sample.start
             (Sample.agent (L := Sample.scripted)
                [Sample.action "Search" Sample.cats] [Sample.Search] 5 false)
             (Sample.a_task "{") in
  Agent.run (R := Sample.runtime) w
  = (inl (ValueError "unmatched '{' in format spec"), w).
Proof.
  intros w.
  destruct (C10_brace_in_goal_breaks_the_prompt Sample.scripted Sample.runtime w
              eq_refl eq_refl eq_refl)
    as [prompt [e [Hfirst [Hfill [_ Hrun]]]]].
  vm_compute in Hfirst. injection Hfirst as <-.
  vm_compute in Hfill. injection Hfill as <-.
  exact Hrun.
Defined.

(** ** Runs of the sample agents *)

(** The whole run behind the witness of C2, with the default template. *)
Example run_returns_42 :
  let w := Sample.start
             (Sample.agent (L := Sample.scripted)
                [Sample.action "Search" Sample.cats;
                 Sample.action "Return Final Answer Tool" Sample.answer42]
                [Sample.Search] 5 false)
             (Sample.a_task "what is 6 x 7") in
  let result := Agent.run (R := Sample.runtime) w in
  fst result = inr (Some "42")
  /\ Agent.task (snd result)
     = {| goal := "what is 6 x 7"; raw_output := Some "42"; completed := true |}
  /\ Agent.generations (Agent.calls (snd result)) = 2
  /\ Agent.errors_encountered (Agent.self (snd result)) = [].
Proof. vm_compute. repeat split. Qed.

(** An answer given as bare text, as the template words it, is not a
    mapping: the call fails on unpacking it and the run returns the text put
    in place of the result. *)
Example bare_answer_is_not_unpacked :
  let w := Sample.start
             (Sample.agent (L := Sample.scripted)
                [Sample.action "Return Final Answer Tool" "42"] [] 5 false)
             (Sample.a_task "what is 6 x 7") in
  fst (Agent.run (R := Sample.runtime) w)
  = inr (Some ("Error from tool: ReturnFinalAnswerTool.run() argument after ** "
               ++ "must be a mapping, not int")).
Proof. vm_compute. reflexivity. Qed.

(** A tool of the final-answer class under another name: the turn goes
    through, nothing is returned and the task is not completed. *)
Example renamed_final_answer_tool_does_not_return :
  let w := Sample.start
             (Sample.agent (L := Sample.scripted)
                [Sample.action "Done" Sample.answer42] [Sample.Renamed] 1 false)
             (Sample.a_task "what is 6 x 7") in
  let result := Agent.run (R := Sample.runtime) w in
  Agent.tools (Agent.self w) = [Sample.Renamed]
  /\ fst result = inr None
  /\ Agent.task (snd result) = Agent.task w
  /\ Agent.calls (snd result)
     = [Agent.Generated
          (Agent.user
             (match Agent.first_prompt (R := Sample.runtime)
                      (Agent.self w) (Agent.task w) with
              | inr prompt =>
                  match Agent.fill (R := Sample.runtime) prompt [] with
                  | inr curr_prompt => curr_prompt
                  | inl _ => EmptyString
                  end
              | inl _ => EmptyString
              end))
          Agent.default_stop_pattern;
        Agent.Invoked "Done" [("final_answer", PStr "42")]].
Proof. vm_compute. repeat split. Qed.

(** A tool of another class under the name the loop tests for, later in the
    list than the tool of the final-answer class: it is the one the
    dictionary keeps, and its result ends the run. *)
Example impostor_returns :
  let w := Sample.start
             (Sample.agent (L := Sample.scripted)
                [Sample.action "Return Final Answer Tool" Sample.cats]
                [Sample.ReturnFinalAnswerTool; Sample.Impostor] 5 false)
             (Sample.a_task "find cats") in
  let result := Agent.run (R := Sample.runtime) w in
  Agent.tool_by_names (Agent.self w) "Return Final Answer Tool"
    = Some Sample.Impostor
  /\ fst result = inr (Some "results for cats")
  /\ Agent.task (snd result)
     = {| goal := "find cats"; raw_output := Some "results for cats";
          completed := true |}.
Proof. vm_compute. repeat split. Qed.


(** * Further properties of the agent *)

(** ** How a turn ends *)

Module TurnCases.

Import PyStr Agent.

Section Cases.

Context {L : LLM} {R : Runtime}.

Lemma turn_cases (w : world L) (prompt : string) (previous_responses : list string) :
  turn_ends w prompt previous_responses (turn prompt previous_responses w).
Proof.
  destruct (fill prompt previous_responses) as [e|cp] eqn:Hfill.
  { rewrite (TurnFacts.turn_fill_raises w _ _ e Hfill). apply Unrendered. exact Hfill. }
  destruct (parsed (reply w cp)) as [[tool raw]|] eqn:Hparsed.
  2:{ rewrite (TurnFacts.turn_parse_raises w _ _ cp Hfill Hparsed).
      apply (Unparsed w _ _ cp Hfill Hparsed). }
  destruct (tool_by_names (self w) tool) as [t|] eqn:Htool.
  2:{ rewrite (TurnFacts.turn_unknown w _ _ cp tool raw Hfill Hparsed Htool).
      apply (Unknown w _ _ cp tool raw Hfill Hparsed Htool). }
  assert (Hcall : forall (kept : pyobj) (w1 : world L),
             load_input raw (asked w cp) = (inr kept, w1) ->
             input_kept w cp raw kept w1 ->
             debug (self w1) = debug (self w) ->
             (debug (self w) = true ->
              json_loads (remove_control raw) = inr kept /\ w1 = asked w cp) ->
             turn_ends w prompt previous_responses
               (turn prompt previous_responses w)).
  { intros kept w1 Hload Hkept Hdbg Hstrict.
    destruct (apply_tool t kept) as [e|r] eqn:Happly.
    - destruct (is_exception e) eqn:Hclass.
      + pose proof (TurnFacts.dispatch_raised w1 t kept e Happly Hclass) as Hd.
        rewrite Hdbg in Hd. destruct (debug (self w)) eqn:Hdebug.
        * destruct (Hstrict eq_refl) as [Hjson ->].
          rewrite (TurnFacts.turn_dispatch_raises w _ _ _ _ cp tool raw t kept _
                     Hfill Hparsed Htool Hload Hd).
          apply (Failed w _ _ cp tool raw t kept e); assumption.
        * rewrite (TurnFacts.turn_finishes w _ _ _ _ cp tool raw t kept _
                     Hfill Hparsed Htool Hload Hd).
          apply (Finished w _ _ cp tool raw t kept w1); try assumption.
          right. exists e. repeat split; assumption.
      + pose proof (TurnFacts.dispatch_escaped w1 t kept e Happly Hclass) as Hd.
        rewrite (TurnFacts.turn_dispatch_raises w _ _ _ _ cp tool raw t kept _
                   Hfill Hparsed Htool Hload Hd).
        apply (Escaped_tool w _ _ cp tool raw t kept w1 e); assumption.
    - pose proof (TurnFacts.dispatch_returned w1 t kept r Happly) as Hd.
      rewrite (TurnFacts.turn_finishes w _ _ _ _ cp tool raw t kept _
                 Hfill Hparsed Htool Hload Hd).
      apply (Finished w _ _ cp tool raw t kept w1); try assumption.
      left. split; [assumption|reflexivity]. }
  destruct (json_loads (remove_control raw)) as [e|v] eqn:Hjson.
  - destruct (decoding_error e) as [msg|] eqn:Hclass.
    + apply TurnFacts.decoding_error_Some in Hclass. subst e.
      pose proof (TurnFacts.load_input_failed (asked w cp) raw msg Hjson) as Hload.
      change (debug (self (asked w cp))) with (debug (self w)) in Hload.
      destruct (debug (self w)) eqn:Hdebug.
      * rewrite (TurnFacts.turn_load_raises w _ _ _ cp tool raw t _
                   Hfill Hparsed Htool Hload).
        apply (Undecoded w _ _ cp tool raw t msg); assumption.
      * apply (Hcall _ _ Hload).
        -- right. exists msg. repeat split; assumption.
        -- exact Hdebug.
        -- intros H. discriminate H.
    + pose proof (TurnFacts.load_input_escaped (asked w cp) raw e Hjson Hclass)
        as Hload.
      rewrite (TurnFacts.turn_load_raises w _ _ _ cp tool raw t _
                 Hfill Hparsed Htool Hload).
      apply (Escaped_decoder w _ _ cp tool raw t e); assumption.
  - apply (Hcall _ _ (TurnFacts.load_input_decoded (asked w cp) raw v Hjson)).
    + left. split; [exact Hjson|reflexivity].
    + reflexivity.
    + intros _. split; reflexivity.
Qed.

End Cases.

End TurnCases.

(** ** What every turn and every run keeps *)

Module RunCases.

Import PyStr Agent.

Section Cases.

Context {L : LLM} {R : Runtime}.

Lemma invoked_calls (tool : BaseTool) (tool_input : pyobj) (w : world L) :
  calls (invoked tool tool_input w)
  = (calls w ++ match tool_input with
                | PDict items => [Invoked (name tool) items]
                | _ => []
                end)%list.
Proof. destruct tool_input; cbn; try rewrite app_nil_r; reflexivity. Qed.

Lemma extends_refl {A : Type} (l : list A) : extends l l.
Proof. exists []. symmetry. apply app_nil_r. Qed.

Lemma extends_trans {A : Type} (l1 l2 l3 : list A) :
  extends l1 l2 -> extends l2 l3 -> extends l1 l3.
Proof.
  intros [m ->] [m' ->]. exists (m ++ m')%list. symmetry. apply app_assoc.
Qed.

Lemma extends_app {A : Type} (l m : list A) : extends l (l ++ m)%list.
Proof. exists m. reflexivity. Qed.

Lemma extends_app2 {A : Type} (l m m' : list A) :
  extends l ((l ++ m) ++ m')%list.
Proof. exists (m ++ m')%list. symmetry. apply app_assoc. Qed.

(** The cases of [turn_cases], with the states of a turn that goes through
    spelled out. *)
Ltac turn_cases H :=
  inversion H; subst; clear H;
  repeat match goal with
         | K : input_kept _ _ _ _ _ |- _ =>
             destruct K as [[? ->]|(? & ? & ? & -> & ->)]
         | K : result_kept _ _ _ _ _ _ |- _ =>
             destruct K as [[? ->]|(? & ? & ? & ? & -> & ->)]
         end.

Lemma turn_same_configuration (w : world L) (prompt : string)
    (previous_responses : list string) :
  same_configuration w (snd (turn prompt previous_responses w)).
Proof.
  pose proof (TurnCases.turn_cases w prompt previous_responses) as H.
  destruct (turn prompt previous_responses w) as [out w'].
  unfold same_configuration.
  turn_cases H; try destruct (String.eqb tool FINAL_ANSWER); cbn;
    rewrite ?TurnFacts.invoked_self, ?TurnFacts.invoked_task; cbn;
    repeat split; reflexivity.
Qed.

Lemma turn_grown (w : world L) (prompt : string)
    (previous_responses : list string) :
  grown w (snd (turn prompt previous_responses w)).
Proof.
  pose proof (TurnCases.turn_cases w prompt previous_responses) as H.
  destruct (turn prompt previous_responses w) as [out w'].
  unfold grown.
  turn_cases H; try destruct (String.eqb tool FINAL_ANSWER); cbn;
    rewrite ?TurnFacts.invoked_self, ?invoked_calls; cbn;
    repeat split;
    first [apply extends_refl | apply extends_app | apply extends_app2].
Qed.

(** What holds from state to state, holds over the loop and over the run. *)
Lemma loop_steps (I : world L -> world L -> Prop) :
  (forall w, I w w) ->
  (forall w1 w2 w3, I w1 w2 -> I w2 w3 -> I w1 w3) ->
  (forall prompt previous_responses w,
      I w (snd (turn prompt previous_responses w))) ->
  forall turns prompt previous_responses w,
    I w (snd (loop turns prompt previous_responses w)).
Proof.
  intros Hrefl Htrans Hturn turns prompt.
  induction turns as [|turns IH]; intros prev w; [apply Hrefl|].
  cbn [loop]. unfold bind.
  pose proof (Hturn prompt prev w) as Hstep.
  destruct (turn prompt prev w) as [[e|[prev' [r|]]] w1]; cbn in *;
    try exact Hstep.
  apply (Htrans _ _ _ Hstep). apply IH.
Qed.

Lemma run_steps (I : world L -> world L -> Prop) :
  (forall w, I w w) ->
  (forall w1 w2 w3, I w1 w2 -> I w2 w3 -> I w1 w3) ->
  (forall prompt previous_responses w,
      I w (snd (turn prompt previous_responses w))) ->
  forall w, I w (snd (run w)).
Proof.
  intros Hrefl Htrans Hturn w.
  destruct (first_prompt (self w) (task w)) as [e|prompt] eqn:Hfirst.
  - rewrite (RunFacts.run_unrendered w e Hfirst). apply Hrefl.
  - rewrite (RunFacts.run_rendered w prompt Hfirst).
    apply loop_steps; assumption.
Qed.

Lemma same_configuration_refl (w : world L) : same_configuration w w.
Proof. unfold same_configuration. repeat split; reflexivity. Qed.

Lemma same_configuration_trans (w1 w2 w3 : world L) :
  same_configuration w1 w2 -> same_configuration w2 w3 ->
  same_configuration w1 w3.
Proof.
  unfold same_configuration.
  intros (A1 & A2 & A3 & A4 & A5 & A6 & A7) (B1 & B2 & B3 & B4 & B5 & B6 & B7).
  repeat split; congruence.
Qed.

Lemma grown_refl (w : world L) : grown w w.
Proof. unfold grown. repeat split; apply extends_refl. Qed.

Lemma grown_trans (w1 w2 w3 : world L) :
  grown w1 w2 -> grown w2 w3 -> grown w1 w3.
Proof.
  unfold grown. intros (A1 & A2 & A3) (B1 & B2 & B3).
  repeat split; eapply extends_trans; eassumption.
Qed.

(** The task after a turn: written when the turn returns a result, as it
    was otherwise. *)
Lemma turn_task (w : world L) (prompt : string) (previous_responses : list string) :
  match turn prompt previous_responses w with
  | (inr (_, Some tool_result), w') => task w' = completed_with (task w) tool_result
  | (_, w') => task w' = task w
  end.
Proof.
  pose proof (TurnCases.turn_cases w prompt previous_responses) as H.
  destruct (turn prompt previous_responses w) as [out w'].
  turn_cases H; try destruct (String.eqb tool FINAL_ANSWER); cbn;
    rewrite ?TurnFacts.invoked_task; reflexivity.
Qed.

Lemma loop_task (turns : nat) (prompt : string) :
  forall (previous_responses : list string) (w : world L),
    match loop turns prompt previous_responses w with
    | (inr (Some tool_result), w') => task w' = completed_with (task w) tool_result
    | (_, w') => task w' = task w
    end.
Proof.
  induction turns as [|turns IH]; intros prev w; [reflexivity|].
  cbn [loop]. unfold bind.
  pose proof (turn_task w prompt prev) as Hturn.
  destruct (turn prompt prev w) as [[e|[prev' [r|]]] w1]; cbn; try exact Hturn.
  specialize (IH prev' w1). rewrite Hturn in IH. exact IH.
Qed.

(** The counts of a turn: at most one call of the model and one of a tool;
    one response remembered when the turn goes through, none when it
    raises. *)
Lemma invocations_app (evs evs' : list event) :
  invocations (evs ++ evs') = invocations evs + invocations evs'.
Proof.
  induction evs as [|ev evs IH]; [reflexivity|].
  destruct ev; cbn; rewrite IH; reflexivity.
Qed.

Lemma asked_invocations (w : world L) (curr_prompt : string) :
  invocations (calls (asked w curr_prompt)) = invocations (calls w).
Proof. cbn. rewrite invocations_app. cbn. apply Nat.add_0_r. Qed.

Lemma invoked_invocations (tool : BaseTool) (tool_input : pyobj) (w : world L) :
  invocations (calls (invoked tool tool_input w))
  = invocations (calls w) + match tool_input with PDict _ => 1 | _ => 0 end.
Proof.
  rewrite invoked_calls, invocations_app. destruct tool_input; reflexivity.
Qed.

Lemma turn_counts (w : world L) (prompt : string) (previous_responses : list string) :
  let (out, w') := turn prompt previous_responses w in
  exists g i r : nat,
    generations (calls w') = generations (calls w) + g
    /\ invocations (calls w') = invocations (calls w) + i
    /\ length (ai_responses (self w')) = length (ai_responses (self w)) + r
    /\ (i <= g)%nat /\ (g <= 1)%nat
    /\ match out with inl _ => r = 0 | inr _ => r = 1 /\ g = 1 end.
Proof.
  pose proof (TurnCases.turn_cases w prompt previous_responses) as H.
  destruct (turn prompt previous_responses w) as [out w'].
  turn_cases H; try destruct (String.eqb tool FINAL_ANSWER);
    lazymatch goal with
    | |- context [invoked _ ?v _] =>
        exists 1, (match v with PDict _ => 1 | _ => 0 end)
    | |- context [asked _ _] => exists 1, 0
    | |- _ => exists 0, 0
    end;
    lazymatch goal with
    | |- context [with_response _ _] => exists 1
    | |- _ => exists 0
    end;
    cbn [self calls ai_responses with_error with_response with_output];
    rewrite ?TurnFacts.invoked_self, ?TurnFacts.invoked_generations,
      ?invoked_invocations, ?TurnFacts.asked_generations, ?asked_invocations;
    cbn [self calls ai_responses with_error with_response with_output asked
         with_call with_llm];
    rewrite ?length_app, ?TurnFacts.generations_app, ?invocations_app;
    cbn [length generations invocations];
    repeat split; try lia;
    first [destruct kept; cbn; lia | destruct decoded; cbn; lia | cbn; lia].
Qed.

Lemma loop_counts (turns : nat) (prompt : string) :
  forall (previous_responses : list string) (w : world L),
    let (out, w') := loop turns prompt previous_responses w in
    exists g i r : nat,
      generations (calls w') = generations (calls w) + g
      /\ invocations (calls w') = invocations (calls w) + i
      /\ length (ai_responses (self w')) = length (ai_responses (self w)) + r
      /\ (i <= g)%nat /\ (g <= turns)%nat /\ (r <= g)%nat /\ (g <= S r)%nat
      /\ match out with
         | inl _ => True
         | inr returned => r = g /\ (returned = None -> g = turns)
         end.
Proof.
  induction turns as [|turns IH]; intros prev w.
  { cbn. exists 0, 0, 0. repeat split; lia. }
  cbn [loop]. unfold bind.
  pose proof (turn_counts w prompt prev) as Hturn.
  destruct (turn prompt prev w) as [[e|[prev' [x|]]] w1];
    destruct Hturn as (g & i & r & Hg & Hi & Hr & Hig & Hg1 & Hout).
  - exists g, i, r. repeat split; try assumption; lia.
  - destruct Hout as [-> ->]. exists 1, i, 1.
    repeat split; try assumption; try lia. intros H. discriminate H.
  - destruct Hout as [-> ->]. specialize (IH prev' w1).
    destruct (loop turns prompt prev' w1) as [out w'].
    destruct IH as (g' & i' & r' & Hg' & Hi' & Hr' & Hig' & Hgt & Hrg & Hgr & Hout').
    exists (S g'), (i + i'), (S r'). repeat split; try lia.
    destruct out as [e|x]; [exact I|]. destruct Hout' as [-> Hnone].
    split; [reflexivity|]. intros Hx. rewrite (Hnone Hx). reflexivity.
Qed.

(** Being contained is a matter of the tools and the stop sequences,
    which a turn leaves as they were. *)
Lemma contained_ext (a b : t L) :
  tools b = tools a -> stop_pattern b = stop_pattern a ->
  contained a -> contained b.
Proof.
  intros Htools Hstop H st messages tool tool_input Hparsed.
  rewrite Hstop in Hparsed. destruct (H st messages tool tool_input Hparsed) as [H1 H2].
  split; [exact H1|]. intros t kept e Ht. apply H2.
  rewrite <- Ht. apply RunFacts.tool_by_names_ext. symmetry. exact Htools.
Qed.

Lemma contained_turn (w : world L) (prompt : string) (previous_responses : list string) :
  contained (self w) ->
  contained (self (snd (turn prompt previous_responses w))).
Proof.
  destruct (turn_same_configuration w prompt previous_responses)
    as (Htools & _ & _ & Hstop & _).
  apply contained_ext; assumption.
Qed.

(** Outside debug mode, and with nothing raised that the loop does not
    catch, a turn raises in three ways only. *)
Lemma turn_failure (w : world L) (prompt : string) (previous_responses : list string)
    (e : exn) (w' : world L) :
  debug (self w) = false ->
  contained (self w) ->
  turn prompt previous_responses w = (inl e, w') ->
  fill prompt previous_responses = inl e
  \/ e = AttributeError "'NoneType' object has no attribute 'group'"
  \/ exists tool : string,
       e = ValueError ("Unknown tool: " ++ tool)
       /\ tool_by_names (self w) tool = None.
Proof.
  intros Hdebug Hcontained Hturn.
  pose proof (TurnCases.turn_cases w prompt previous_responses) as H.
  rewrite Hturn in H. inversion H; subst; clear H.
  - left. assumption.
  - right. left. rewrite Hdebug. reflexivity.
  - right. right. exists tool. split; [reflexivity|assumption].
  - congruence.
  - exfalso.
    destruct (Hcontained (llm (self w)) (user curr_prompt) tool tool_input)
      as [Hdecoder _]; [assumption|].
    match goal with
    | Hj : json_loads _ = inl ?x, Hc : decoding_error ?x = None |- _ =>
        exact (Hdecoder x Hj Hc)
    end.
  - congruence.
  - exfalso.
    destruct (Hcontained (llm (self w)) (user curr_prompt) tool tool_input)
      as [_ Htool]; [assumption|].
    match goal with
    | Ha : apply_tool _ _ = inl ?r, Hc : is_exception ?r = false |- _ =>
        rewrite (Htool _ _ _ ltac:(eassumption) Ha) in Hc; discriminate Hc
    end.
Qed.

Lemma loop_failure (turns : nat) (prompt : string) :
  forall (previous_responses : list string) (w : world L) (e : exn) (w' : world L),
    debug (self w) = false ->
    contained (self w) ->
    loop turns prompt previous_responses w = (inl e, w') ->
    (exists responses : list string, fill prompt responses = inl e)
    \/ e = AttributeError "'NoneType' object has no attribute 'group'"
    \/ exists tool : string,
         e = ValueError ("Unknown tool: " ++ tool)
         /\ tool_by_names (self w) tool = None.
Proof.
  induction turns as [|turns IH]; intros prev w e w' Hdebug Hcontained Hloop.
  { discriminate Hloop. }
  cbn [loop] in Hloop. unfold bind in Hloop.
  pose proof (turn_same_configuration w prompt prev) as Hsame.
  pose proof (contained_turn w prompt prev Hcontained) as Hnext.
  destruct (turn prompt prev w) as [[e1|[prev' [x|]]] w1] eqn:Hturn.
  - injection Hloop as <- <-.
    destruct (turn_failure w prompt prev e1 w1 Hdebug Hcontained Hturn) as [H|[H|H]].
    + left. exists prev. exact H.
    + right. left. exact H.
    + right. right. exact H.
  - discriminate Hloop.
  - destruct Hsame as (Htools & _ & _ & _ & _ & Hd & _). cbn in Htools, Hd, Hnext.
    destruct (IH prev' w1 e w' (eq_trans Hd Hdebug) Hnext Hloop)
      as [H|[H|[tool [He Hnone]]]].
    + left. exact H.
    + right. left. exact H.
    + right. right. exists tool. split; [exact He|].
      rewrite <- Hnone. apply RunFacts.tool_by_names_ext. symmetry. exact Htools.
Qed.

(** Without a tool of the name the loop tests for, a turn returns nothing. *)
Lemma turn_never_completes (w : world L) (prompt : string)
    (previous_responses : list string) :
  tool_by_names (self w) FINAL_ANSWER = None ->
  forall (responses : list string) (tool_result : string) (w' : world L),
    turn prompt previous_responses w <> (inr (responses, Some tool_result), w').
Proof.
  intros Hnone responses r w' Hturn.
  pose proof (TurnCases.turn_cases w prompt previous_responses) as H.
  rewrite Hturn in H. inversion H; subst; clear H.
  destruct (String.eqb tool FINAL_ANSWER) eqn:Hname; [|discriminate].
  apply String.eqb_eq in Hname. subst tool. congruence.
Qed.

Lemma loop_never_completes (turns : nat) (prompt : string) :
  forall (previous_responses : list string) (w : world L),
    tool_by_names (self w) FINAL_ANSWER = None ->
    forall (tool_result : string) (w' : world L),
      loop turns prompt previous_responses w <> (inr (Some tool_result), w').
Proof.
  induction turns as [|turns IH]; intros prev w Hnone r w' Hloop.
  { discriminate Hloop. }
  cbn [loop] in Hloop. unfold bind in Hloop.
  pose proof (turn_same_configuration w prompt prev) as Hsame.
  destruct (turn prompt prev w) as [[e1|[prev' [x|]]] w1] eqn:Hturn.
  - discriminate Hloop.
  - exact (turn_never_completes w prompt prev Hnone _ _ _ Hturn).
  - destruct Hsame as (Htools & _). cbn in Htools.
    apply (IH prev' w1) with (tool_result := r) (w' := w'); [|exact Hloop].
    rewrite <- Hnone. apply RunFacts.tool_by_names_ext. exact Htools.
Qed.

(** The calls of a turn: none; or one of the model; or one of the model,
    then one of the tool the dictionary holds under the name parsed. *)
Lemma turn_calls (w : world L) (prompt : string) (previous_responses : list string) :
  let w' := snd (turn prompt previous_responses w) in
  calls w' = calls w
  \/ exists curr_prompt : string,
       fill prompt previous_responses = inr curr_prompt
       /\ let asking := Generated (user curr_prompt) (stop_pattern (self w)) in
          calls w' = (calls w ++ [asking])%list
          \/ exists (the_tool : BaseTool) (arguments : kwargs),
               tool_by_names (self w) (name the_tool) = Some the_tool
               /\ calls w' = (calls w ++ [asking; Invoked (name the_tool) arguments])%list.
Proof.
  pose proof (TurnCases.turn_cases w prompt previous_responses) as H.
  destruct (turn prompt previous_responses w) as [out w'].
  assert (Hinvoked : forall curr_prompt tool the_tool kept w2,
             fill prompt previous_responses = inr curr_prompt ->
             tool_by_names (self w) tool = Some the_tool ->
             calls w2 = calls (invoked the_tool kept (asked w curr_prompt)) ->
             calls w2 = calls w
             \/ exists curr_prompt : string,
                  fill prompt previous_responses = inr curr_prompt
                  /\ let asking := Generated (user curr_prompt) (stop_pattern (self w)) in
                     calls w2 = (calls w ++ [asking])%list
                     \/ exists (the_tool : BaseTool) (arguments : kwargs),
                          tool_by_names (self w) (name the_tool) = Some the_tool
                          /\ calls w2
                             = (calls w ++ [asking; Invoked (name the_tool) arguments])%list).
  { intros cp tool t kept w2 Hfill Htool Hcalls. right. exists cp.
    split; [exact Hfill|]. rewrite Hcalls, invoked_calls.
    destruct (TurnFacts.tool_by_names_Some _ _ _ Htool) as [Hname _].
    destruct kept; try (left; cbn; rewrite app_nil_r; reflexivity).
    right. exists t, items. rewrite Hname. split; [exact Htool|].
    cbn. rewrite <- app_assoc. reflexivity. }
  cbn [snd].
  turn_cases H; try destruct (String.eqb tool FINAL_ANSWER);
    try (left; reflexivity);
    try (right; exists curr_prompt; split; [assumption|left; reflexivity]);
    try (eapply Hinvoked; [eassumption|eassumption|reflexivity]).
  all: right; exists curr_prompt; split; [assumption|left; reflexivity].
Qed.

(** A turn that goes through and logs no error has decoded the input to a
    mapping and observed what the tool returned for it. *)
Lemma turn_unlogged (w : world L) (prompt : string) (previous_responses : list string)
    (responses : list string) (returned : option string) (w' : world L) :
  turn prompt previous_responses w = (inr (responses, returned), w') ->
  errors_encountered (self w') = errors_encountered (self w) ->
  exists (curr_prompt tool tool_input : string) (the_tool : BaseTool)
         (arguments : kwargs) (tool_result : string),
    fill prompt previous_responses = inr curr_prompt
    /\ parsed (reply w curr_prompt) = Some (tool, tool_input)
    /\ tool_by_names (self w) tool = Some the_tool
    /\ json_loads (remove_control tool_input) = inr (PDict arguments)
    /\ apply_tool the_tool (PDict arguments) = inr tool_result
    /\ responses
       = (previous_responses ++ [observed (reply w curr_prompt) tool_result])%list.
Proof.
  intros Hturn Hlog.
  pose proof (TurnCases.turn_cases w prompt previous_responses) as H.
  rewrite Hturn in H.
  assert (Hmore : forall (l : list exn) (e : exn), (l ++ [e])%list <> l).
  { intros l e Heq. apply (f_equal (@length exn)) in Heq.
    rewrite length_app in Heq. cbn in Heq. lia. }
  assert (Hmore2 : forall (l : list exn) (e e' : exn), ((l ++ [e]) ++ [e'])%list <> l).
  { intros l e e' Heq. apply (f_equal (@length exn)) in Heq.
    rewrite !length_app in Heq. cbn in Heq. lia. }
  turn_cases H; try destruct (String.eqb tool FINAL_ANSWER);
    cbn in Hlog; rewrite ?TurnFacts.invoked_self in Hlog; cbn in Hlog;
    try (exfalso; first [exact (Hmore _ _ Hlog) | exact (Hmore2 _ _ _ Hlog)]).
  all: destruct kept; try discriminate.
  all: exists curr_prompt, tool, tool_input, the_tool, items, tool_result;
    repeat split; assumption.
Qed.

Lemma run_task (w : world L) :
  match run w with
  | (inr (Some tool_result), w') => task w' = completed_with (task w) tool_result
  | (_, w') => task w' = task w
  end.
Proof.
  destruct (first_prompt (self w) (task w)) as [e|prompt] eqn:Hfirst.
  - rewrite (RunFacts.run_unrendered w e Hfirst). reflexivity.
  - rewrite (RunFacts.run_rendered w prompt Hfirst). apply loop_task.
Qed.

(** A turn whose prompt renders calls the model with it first. *)
Lemma turn_asks (w : world L) (prompt : string) (previous_responses : list string)
    (curr_prompt : string) :
  fill prompt previous_responses = inr curr_prompt ->
  exists more : list event,
    calls (snd (turn prompt previous_responses w))
    = (calls w ++ Generated (user curr_prompt) (stop_pattern (self w)) :: more)%list.
Proof.
  intros Hfill.
  pose proof (TurnCases.turn_cases w prompt previous_responses) as H.
  destruct (turn prompt previous_responses w) as [out w']. cbn [snd].
  turn_cases H; try congruence;
    match goal with
    | K : fill prompt previous_responses = inr ?cp |- _ =>
        assert (cp = curr_prompt) by congruence; subst cp
    end;
    try destruct (String.eqb tool FINAL_ANSWER);
    cbn [calls with_error with_response with_output];
    rewrite ?invoked_calls;
    cbn [calls with_error with_response with_output asked with_call with_llm];
    rewrite ?app_nil_r, <- ?app_assoc; cbn [app];
    eexists; reflexivity.
Qed.

(** In debug mode a turn logs an error only to raise: going through, it
    logs nothing; raising, it logs at most the error it raises for. *)
Lemma turn_debug_log (w : world L) (prompt : string) (previous_responses : list string) :
  debug (self w) = true ->
  let (out, w') := turn prompt previous_responses w in
  match out with
  | inr _ => errors_encountered (self w') = errors_encountered (self w)
  | inl _ =>
      exists es : list exn,
        errors_encountered (self w') = (errors_encountered (self w) ++ es)%list
        /\ (length es <= 1)%nat
  end.
Proof.
  intros Hdebug.
  pose proof (TurnCases.turn_cases w prompt previous_responses) as H.
  destruct (turn prompt previous_responses w) as [out w'].
  turn_cases H; try congruence;
    try destruct (String.eqb tool FINAL_ANSWER);
    cbn [self errors_encountered with_error with_response with_output];
    rewrite ?TurnFacts.invoked_self;
    cbn [self errors_encountered with_error with_response with_output asked
         with_call with_llm];
    first [reflexivity
          | exists []; rewrite app_nil_r; split; [reflexivity|cbn; lia]
          | eexists [_]; split; [reflexivity|cbn; lia]].
Qed.

Lemma loop_debug_log (turns : nat) (prompt : string) :
  forall (previous_responses : list string) (w : world L),
    debug (self w) = true ->
    let (out, w') := loop turns prompt previous_responses w in
    match out with
    | inr _ => errors_encountered (self w') = errors_encountered (self w)
    | inl _ =>
        exists es : list exn,
          errors_encountered (self w') = (errors_encountered (self w) ++ es)%list
          /\ (length es <= 1)%nat
    end.
Proof.
  induction turns as [|turns IH]; intros prev w Hdebug; [reflexivity|].
  cbn [loop]. unfold bind.
  pose proof (turn_debug_log w prompt prev Hdebug) as Hturn.
  pose proof (turn_same_configuration w prompt prev) as Hsame.
  destruct (turn prompt prev w) as [[e|[prev' [r|]]] w1]; try exact Hturn.
  destruct Hsame as (_ & _ & _ & _ & _ & Hd & _). cbn [snd] in Hd.
  specialize (IH prev' w1 (eq_trans Hd Hdebug)).
  destruct (loop turns prompt prev' w1) as [out w']. rewrite <- Hturn. exact IH.
Qed.

(** The calls of a turn, exactly: none when the prompt does not render;
    else the call of the model, and after it the call of the tool when the
    reply parses, the dictionary holds the name and the input decodes to a
    mapping. *)
Lemma turn_calls_exact (w : world L) (prompt : string)
    (previous_responses : list string) :
  let w' := snd (turn prompt previous_responses w) in
  match fill prompt previous_responses with
  | inl _ => calls w' = calls w
  | inr curr_prompt =>
      calls w'
      = (calls w
         ++ Generated (user curr_prompt) (stop_pattern (self w))
            :: match parsed (reply w curr_prompt) with
               | Some (tool, tool_input) =>
                   match tool_by_names (self w) tool with
                   | Some the_tool =>
                       match json_loads (remove_control tool_input) with
                       | inr (PDict arguments) => [Invoked (name the_tool) arguments]
                       | _ => []
                       end
                   | None => []
                   end
               | None => []
               end)%list
  end.
Proof.
  pose proof (TurnCases.turn_cases w prompt previous_responses) as H.
  destruct (turn prompt previous_responses w) as [out w']. cbn [snd].
  turn_cases H;
    repeat match goal with
           | K : fill _ _ = _ |- _ => rewrite K; clear K
           | K : parsed _ = _ |- _ => rewrite K; clear K
           | K : tool_by_names _ _ = _ |- _ => rewrite K; clear K
           | K : json_loads _ = _ |- _ => rewrite K; clear K
           end;
    try destruct (String.eqb tool FINAL_ANSWER);
    cbn [calls with_error with_response with_output];
    rewrite ?invoked_calls;
    cbn [calls with_error with_response with_output asked with_call with_llm];
    rewrite ?app_nil_r, <- ?app_assoc; cbn [app];
    try reflexivity.
  all: try (destruct e; try discriminate; reflexivity).
  all: try (destruct kept; reflexivity).
  all: try (destruct decoded; reflexivity).
Qed.

(** *** A turn that has chosen its tool *)

Lemma input_kept_through (w : world L) (curr_prompt tool_input : string) :
  match json_loads (remove_control tool_input) with
  | inr _ => True
  | inl e => debug (self w) = false /\ decoding_error e <> None
  end ->
  input_kept w curr_prompt tool_input (kept_input tool_input)
    match json_loads (remove_control tool_input) with
    | inl (JSONDecodeError msg) =>
        with_error (JSONDecodeError msg) (asked w curr_prompt)
    | _ => asked w curr_prompt
    end.
Proof.
  unfold input_kept, kept_input.
  destruct (json_loads (remove_control tool_input)) as [e|v]; intros H.
  - destruct H as [Hdebug He]. destruct e; try (exfalso; apply He; reflexivity).
    right. exists msg. repeat split. exact Hdebug.
  - left. split; reflexivity.
Qed.

Lemma load_input_kept (w : world L) (curr_prompt tool_input : string)
    (kept : pyobj) (w1 : world L) :
  input_kept w curr_prompt tool_input kept w1 ->
  load_input tool_input (asked w curr_prompt) = (inr kept, w1)
  /\ debug (self w1) = debug (self w).
Proof.
  intros [[Hjson ->]|(e & Hjson & Hdebug & -> & ->)].
  - split; [exact (TurnFacts.load_input_decoded _ _ _ Hjson)|reflexivity].
  - rewrite (TurnFacts.load_input_failed _ _ _ Hjson).
    change (debug (self (asked w curr_prompt))) with (debug (self w)).
    rewrite Hdebug. split; [reflexivity|exact Hdebug].
Qed.

Lemma goes_through_true (d : bool) (the_tool : BaseTool) (tool_input : string) :
  goes_through d the_tool tool_input = true ->
  match json_loads (remove_control tool_input) with
  | inr _ => True
  | inl e => d = false /\ decoding_error e <> None
  end
  /\ match apply_tool the_tool (kept_input tool_input) with
     | inr _ => True
     | inl e => d = false /\ is_exception e = true
     end.
Proof.
  unfold goes_through. intros H. apply andb_true_iff in H as [H1 H2]. split.
  - destruct (json_loads (remove_control tool_input)) as [e|v]; [|exact I].
    destruct e; try discriminate H1.
    split; [destruct d; [discriminate H1|reflexivity]|discriminate].
  - destruct (apply_tool the_tool (kept_input tool_input)) as [e|r]; [|exact I].
    apply andb_true_iff in H2 as [Hd He].
    split; [destruct d; [discriminate Hd|reflexivity]|exact He].
Qed.

(** A turn that goes through. *)
Lemma turn_through (w : world L) (prompt : string) (previous_responses : list string)
    (curr_prompt tool tool_input : string) (the_tool : BaseTool) :
  fill prompt previous_responses = inr curr_prompt ->
  parsed (reply w curr_prompt) = Some (tool, tool_input) ->
  tool_by_names (self w) tool = Some the_tool ->
  goes_through (debug (self w)) the_tool tool_input = true ->
  let tool_result := kept_result the_tool (kept_input tool_input) in
  turn prompt previous_responses w
  = (inr ((previous_responses
           ++ [observed (reply w curr_prompt) tool_result])%list,
          if String.eqb tool FINAL_ANSWER then Some tool_result else None),
     after_turn w curr_prompt tool tool_input the_tool).
Proof.
  intros Hfill Hparsed Htool Hgo r.
  destruct (goes_through_true _ _ _ Hgo) as [Hdec Hcall].
  pose proof (input_kept_through w curr_prompt tool_input Hdec) as Hkept.
  destruct (load_input_kept _ _ _ _ _ Hkept) as [Hload Hdebug].
  unfold after_turn. fold r.
  set (w1 := match json_loads (remove_control tool_input) with
             | inl (JSONDecodeError msg) =>
                 with_error (JSONDecodeError msg) (asked w curr_prompt)
             | _ => asked w curr_prompt
             end) in *.
  apply (TurnFacts.turn_finishes w w1 _ prompt previous_responses curr_prompt tool
           tool_input the_tool (kept_input tool_input) r Hfill Hparsed Htool Hload).
  unfold r, kept_result.
  destruct (apply_tool the_tool (kept_input tool_input)) as [e|x] eqn:Happly.
  - destruct Hcall as [Hd He].
    rewrite (TurnFacts.dispatch_raised w1 _ _ e Happly He), Hdebug, Hd. reflexivity.
  - exact (TurnFacts.dispatch_returned w1 _ _ x Happly).
Qed.

(** A turn that does not: it raises, with the task, the responses and the
    previous calls as they were. *)
Lemma turn_not_through (w : world L) (prompt : string)
    (previous_responses : list string)
    (curr_prompt tool tool_input : string) (the_tool : BaseTool) :
  fill prompt previous_responses = inr curr_prompt ->
  parsed (reply w curr_prompt) = Some (tool, tool_input) ->
  tool_by_names (self w) tool = Some the_tool ->
  goes_through (debug (self w)) the_tool tool_input = false ->
  exists (e : exn) (w' : world L),
    turn prompt previous_responses w = (inl e, w')
    /\ task w' = task w
    /\ ai_responses (self w') = ai_responses (self w).
Proof.
  intros Hfill Hparsed Htool Hgo.
  pose proof (TurnCases.turn_cases w prompt previous_responses) as H.
  destruct (turn prompt previous_responses w) as [out w'].
  turn_cases H; try congruence;
    match goal with
    | K : fill prompt previous_responses = inr ?cp |- _ =>
        assert (cp = curr_prompt) by congruence; subst cp
    end;
    match goal with
    | K : parsed (reply w curr_prompt) = Some (?a, ?b) |- _ =>
        assert (a = tool /\ b = tool_input) as [-> ->]
          by (split; congruence)
    end;
    match goal with
    | K : tool_by_names (self w) tool = Some ?x |- _ =>
        assert (x = the_tool) by congruence; subst x
    end;
    try (eexists; eexists; split; [reflexivity|];
         cbn [self task ai_responses with_error];
         rewrite ?TurnFacts.invoked_self, ?TurnFacts.invoked_task;
         split; reflexivity).
  all: exfalso; unfold goes_through, kept_input in Hgo;
    repeat match goal with
           | K : json_loads _ = _ |- _ => rewrite K in Hgo
           | K : apply_tool _ _ = _ |- _ => rewrite K in Hgo
           | K : is_exception _ = _ |- _ => rewrite K in Hgo
           | K : debug _ = _ |- _ => rewrite K in Hgo
           end;
    discriminate Hgo.
Qed.

(** What the state after a turn that goes through holds. *)
Lemma after_turn_holds (w : world L) (curr_prompt tool tool_input : string)
    (the_tool : BaseTool) :
  let tool_result := kept_result the_tool (kept_input tool_input) in
  let w' := after_turn w curr_prompt tool tool_input the_tool in
  errors_encountered (self w')
  = (errors_encountered (self w) ++ logged the_tool tool_input)%list
  /\ ai_responses (self w')
     = (ai_responses (self w)
        ++ [strip (observed (reply w curr_prompt) tool_result)])%list
  /\ task w' = (if String.eqb tool FINAL_ANSWER
                then completed_with (task w) tool_result else task w)
  /\ generations (calls w') = S (generations (calls w)).
Proof.
  unfold after_turn, logged.
  destruct (String.eqb tool FINAL_ANSWER);
    destruct (json_loads (remove_control tool_input)) as [[]|v];
    destruct (apply_tool the_tool (kept_input tool_input)) as [failure|x];
    cbn [self task calls errors_encountered ai_responses
         with_error with_response with_output];
    rewrite ?TurnFacts.invoked_self, ?TurnFacts.invoked_task,
      ?TurnFacts.invoked_generations;
    cbn [self task calls errors_encountered ai_responses
         with_error with_response with_output asked with_call with_llm];
    rewrite ?TurnFacts.generations_app, ?app_nil_r, <- ?app_assoc;
    cbn [generations app];
    repeat split; try reflexivity; lia.
Qed.

(** *** Runs that use the whole budget, runs that never end by a name *)




(** A model that never names [Return Final Answer Tool] never ends the loop
    by a name, whatever the tools are. *)
Lemma loop_never_named (turns : nat) (prompt : string) :
  forall (previous_responses : list string) (w : world L),
    never_names_final (self w) ->
    forall (tool_result : string) (w' : world L),
      loop turns prompt previous_responses w <> (inr (Some tool_result), w').
Proof.
  induction turns as [|turns IH]; intros prev w Hmodel r w' Hloop.
  { discriminate Hloop. }
  cbn [loop] in Hloop. unfold bind in Hloop.
  pose proof (turn_same_configuration w prompt prev) as Hsame.
  pose proof (TurnCases.turn_cases w prompt prev) as Hcases.
  destruct (turn prompt prev w) as [[e1|[prev' [x|]]] w1] eqn:Hturn.
  - discriminate Hloop.
  - inversion Hcases; subst.
    destruct (String.eqb tool FINAL_ANSWER) eqn:Hname; [|discriminate].
    apply String.eqb_eq in Hname.
    exact (Hmodel (llm (self w)) (user curr_prompt) tool tool_input
             ltac:(assumption) Hname).
  - destruct Hsame as (_ & _ & _ & Hstop & _). cbn [snd] in Hstop.
    apply (IH prev' w1) with (tool_result := r) (w' := w'); [|exact Hloop].
    unfold never_names_final. rewrite Hstop. exact Hmodel.
Qed.

End Cases.

End RunCases.

(** ** Turns and runs *)

(** X6.  The calls of a turn, however it ends.  When the prompt does not
    render, none.  When it renders, first one call of the model, with a
    single message of the role [user] holding the rendered prompt and with
    the stop sequences of the agent; and after it one call of a tool, when
    the reply parses, the dictionary holds a tool under the parsed name and
    the input decodes to a mapping: the call is of that tool, under its name,
    with that mapping; in every other case the call of the model is the only
    one. *)
Theorem turn_calls_the_model_then_a_tool :
  forall (L : LLM) (R : Runtime) (w : Agent.world L) (prompt : string)
         (previous_responses : list string),
    let w' := snd (Agent.turn prompt previous_responses w) in
    match Agent.fill prompt previous_responses with
    | inl _ => Agent.calls w' = Agent.calls w
    | inr curr_prompt =>
        Agent.calls w'
        = (Agent.calls w
           ++ Agent.Generated (Agent.user curr_prompt)
                (Agent.stop_pattern (Agent.self w))
              :: match Agent.parsed (Agent.reply w curr_prompt) with
                 | Some (tool, tool_input) =>
                     match Agent.tool_by_names (Agent.self w) tool with
                     | Some the_tool =>
                         match json_loads (Agent.remove_control tool_input) with
                         | inr (PDict arguments) =>
                             [Agent.Invoked (name the_tool) arguments]
                         | _ => []
                         end
                     | None => []
                     end
                 | None => []
                 end)%list
    end.
Proof. intros L R w prompt prev. exact (RunCases.turn_calls_exact w prompt prev). Qed.

(** X7.  A run, however it ends, leaves the tools, the template, the
    budget of turns, the stop sequences and the two flags of the agent and
    the goal of the task as they were, and it only appends to the responses
    and the errors the agent keeps and to the calls made: what was there
    before the run is still there, in front. *)
Theorem run_keeps_the_configuration_and_appends :
  forall (L : LLM) (R : Runtime) (w : Agent.world L),
    Agent.same_configuration w (snd (Agent.run w))
    /\ Agent.grown w (snd (Agent.run w)).
Proof.
  intros L R w. split.
  - apply RunCases.run_steps.
    + apply RunCases.same_configuration_refl.
    + apply RunCases.same_configuration_trans.
    + intros prompt prev w0. apply RunCases.turn_same_configuration.
  - apply RunCases.run_steps.
    + apply RunCases.grown_refl.
    + apply RunCases.grown_trans.
    + intros prompt prev w0. apply RunCases.turn_grown.
Qed.

(** X8.  The task is written exactly when the run returns a text: then its
    raw output is that text and it is completed, its goal being as it was;
    when the run returns nothing or raises, the task is as it was before the
    run. *)
Theorem run_writes_the_task_when_it_returns :
  forall (L : LLM) (R : Runtime) (w : Agent.world L),
    match Agent.run w with
    | (inr (Some tool_result), w') =>
        Agent.task w' = Agent.completed_with (Agent.task w) tool_result
    | (_, w') => Agent.task w' = Agent.task w
    end.
Proof. intros L R w. exact (RunCases.run_task w). Qed.

(** X9.  The counts of a run.  It calls the model at most [max_loops]
    times, and a tool at most once per call of the model.  Every turn that
    goes through remembers one response, so the responses added are as many
    as the calls of the model when the run returns, and at most one fewer
    when it raises.  A run that returns nothing has used the whole budget. *)
Theorem run_stays_within_its_budget :
  forall (L : LLM) (R : Runtime) (w : Agent.world L),
    let w' := snd (Agent.run w) in
    exists g i r : nat,
      Agent.generations (Agent.calls w') = Agent.generations (Agent.calls w) + g
      /\ Agent.invocations (Agent.calls w') = Agent.invocations (Agent.calls w) + i
      /\ length (Agent.ai_responses (Agent.self w'))
         = length (Agent.ai_responses (Agent.self w)) + r
      /\ (i <= g)%nat
      /\ (g <= Z.to_nat (Agent.max_loops (Agent.self w)))%nat
      /\ (r <= g)%nat /\ (g <= S r)%nat
      /\ (forall returned : option string,
             fst (Agent.run w) = inr returned ->
             r = g /\ (returned = None ->
                       g = Z.to_nat (Agent.max_loops (Agent.self w)))).
Proof.
  intros L R w.
  destruct (Agent.first_prompt (Agent.self w) (Agent.task w)) as [e|prompt] eqn:Hfirst.
  - rewrite (RunFacts.run_unrendered w e Hfirst). cbn.
    exists 0, 0, 0. repeat split; try lia; discriminate.
  - rewrite (RunFacts.run_rendered w prompt Hfirst).
    pose proof (RunCases.loop_counts (Z.to_nat (Agent.max_loops (Agent.self w)))
                  prompt (Agent.ai_responses (Agent.self w)) w) as H.
    destruct (Agent.loop _ prompt _ w) as [out w'].
    destruct H as (g & i & r & Hg & Hi & Hr & Hig & Hgt & Hrg & Hgr & Hout).
    exists g, i, r. cbn. repeat (split; [assumption|]).
    intros returned Hret. subst out. exact Hout.
Qed.

(** X10.  A run calls no tool but those of the catalogue: every call of a
    tool that is recorded after the run and was not recorded before it is a
    call under a name the dictionary of the agent holds. *)
Theorem run_calls_only_tools_of_the_catalogue :
  forall (L : LLM) (R : Runtime) (w : Agent.world L) (tool : string)
         (arguments : kwargs),
    In (Agent.Invoked tool arguments) (Agent.calls (snd (Agent.run w))) ->
    In (Agent.Invoked tool arguments) (Agent.calls w)
    \/ exists the_tool : BaseTool,
         Agent.tool_by_names (Agent.self w) tool = Some the_tool.
Proof.
  intros L R w tool arguments.
  set (I := fun w0 w1 : Agent.world L =>
              Agent.tools (Agent.self w1) = Agent.tools (Agent.self w0)
              /\ forall (tool : string) (arguments : kwargs),
                   In (Agent.Invoked tool arguments) (Agent.calls w1) ->
                   In (Agent.Invoked tool arguments) (Agent.calls w0)
                   \/ exists the_tool : BaseTool,
                        Agent.tool_by_names (Agent.self w0) tool = Some the_tool).
  assert (H : I w (snd (Agent.run w))); [|exact (proj2 H tool arguments)].
  apply RunCases.run_steps; unfold I; clear.
  - intros w. split; [reflexivity|]. intros tool arguments H. left. exact H.
  - intros w1 w2 w3 [Ht1 H1] [Ht2 H2]. split; [congruence|].
    intros tool arguments H. destruct (H2 tool arguments H) as [Hin|[t Hin]].
    + exact (H1 tool arguments Hin).
    + right. exists t. rewrite <- Hin.
      apply RunFacts.tool_by_names_ext. symmetry. exact Ht1.
  - intros prompt prev w. split.
    + exact (proj1 (RunCases.turn_same_configuration w prompt prev)).
    + intros tool arguments H.
      destruct (RunCases.turn_calls w prompt prev)
        as [Hc|[cp [_ [Hc|[t [kw [Ht Hc]]]]]]]; rewrite Hc in H.
      * left. exact H.
      * apply in_app_or in H as [H|[H|[]]]; [left; exact H|discriminate H].
      * apply in_app_or in H as [H|[H|[H|[]]]]; [left; exact H|discriminate H|].
        injection H as <- _. right. exists t. exact Ht.
Qed.

Lemma run_calls_only_tools_of_the_catalogue_witness :
  let reply := Sample.action "Search" Sample.cats in
  let w := Sample.start
             (Sample.agent (L := Sample.constant reply) tt [Sample.Search] 1 false)
             (Sample.a_task "find cats") in
  let call := Agent.Invoked "Search" [("q", PStr "cats")] in
  In call (Agent.calls (snd (Agent.run (R := Sample.runtime) w)))
  /\ (In call (Agent.calls w)
      \/ exists the_tool : BaseTool,
           Agent.tool_by_names (Agent.self w) "Search" = Some the_tool).
Proof.
  intros reply w call.
  assert (Hin : In call (Agent.calls (snd (Agent.run (R := Sample.runtime) w)))).
  { vm_compute. right. left. reflexivity. }
  split; [exact Hin|].
  exact (run_calls_only_tools_of_the_catalogue
           (Sample.constant reply) Sample.runtime w "Search" _ Hin).
Defined.

(** X11.  Outside debug mode, and as long as the decoder and the tools
    raise nothing but what the loop catches (a [JSONDecodeError] for the
    decoder, an instance of [Exception] for a tool), a run raises in three
    ways only: a format of
    the template or of the prompt raises, and the run raises that; or a
    reply of the model does not parse, and the run raises the
    [AttributeError] of the missing match; or a reply names a tool the
    dictionary does not hold, and the run raises [ValueError] with
    [Unknown tool:] and the name.  An input that does not decode and a tool
    that raises do not make the run raise. *)
Theorem run_raises_in_three_ways_outside_debug_mode :
  forall (L : LLM) (R : Runtime) (w : Agent.world L) (e : exn) (w' : Agent.world L),
    Agent.debug (Agent.self w) = false ->
    Agent.contained (Agent.self w) ->
    Agent.run w = (inl e, w') ->
    Agent.first_prompt (Agent.self w) (Agent.task w) = inl e
    \/ (exists (prompt : string) (responses : list string),
          Agent.first_prompt (Agent.self w) (Agent.task w) = inr prompt
          /\ Agent.fill prompt responses = inl e)
    \/ e = AttributeError "'NoneType' object has no attribute 'group'"
    \/ exists tool : string,
         e = ValueError ("Unknown tool: " ++ tool)
         /\ Agent.tool_by_names (Agent.self w) tool = None.
Proof.
  intros L R w e w' Hdebug Hcontained Hrun.
  destruct (Agent.first_prompt (Agent.self w) (Agent.task w)) as [e0|prompt] eqn:Hfirst.
  - rewrite (RunFacts.run_unrendered w e0 Hfirst) in Hrun.
    injection Hrun as <- _. left. reflexivity.
  - rewrite (RunFacts.run_rendered w prompt Hfirst) in Hrun.
    destruct (RunCases.loop_failure _ prompt _ w e w' Hdebug Hcontained Hrun)
      as [[responses H]|[H|H]].
    + right. left. exists prompt, responses. split; [reflexivity|exact H].
    + right. right. left. exact H.
    + right. right. right. exact H.
Qed.

Lemma run_raises_in_three_ways_outside_debug_mode_witness :
  let w := Sample.start
             (Sample.agent (L := Sample.constant "I do not know") tt
                [Sample.Search] 3 false)
             (Sample.a_task "find cats") in
  exists (e : exn) (w' : Agent.world (Sample.constant "I do not know")),
    Agent.run (R := Sample.runtime) w = (inl e, w')
    /\ (Agent.first_prompt (R := Sample.runtime) (Agent.self w) (Agent.task w) = inl e
        \/ (exists (prompt : string) (responses : list string),
              Agent.first_prompt (R := Sample.runtime) (Agent.self w) (Agent.task w)
              = inr prompt
              /\ Agent.fill (R := Sample.runtime) prompt responses = inl e)
        \/ e = AttributeError "'NoneType' object has no attribute 'group'"
        \/ exists tool : string,
             e = ValueError ("Unknown tool: " ++ tool)
             /\ Agent.tool_by_names (Agent.self w) tool = None).
Proof.
  intros w.
  destruct (Agent.run (R := Sample.runtime) w) as [[e|returned] w'] eqn:Hrun.
  2:{ vm_compute in Hrun. discriminate Hrun. }
  exists e, w'. split; [reflexivity|].
  apply (run_raises_in_three_ways_outside_debug_mode
           (Sample.constant "I do not know") Sample.runtime w e w' eq_refl);
    [|exact Hrun].
  intros st messages tool tool_input Hparsed. vm_compute in Hparsed.
  discriminate Hparsed.
Defined.

(** X13.  The loop ends a run by the name [Return Final Answer Tool]
    alone.  When the dictionary of the agent holds no tool of that name, as
    after the constructor was given a tool of the final-answer class under
    another name, no run returns a text, and the task is always as it was:
    neither completed nor given an output. *)
Theorem run_never_returns_without_the_final_name :
  forall (L : LLM) (R : Runtime) (w : Agent.world L),
    Agent.tool_by_names (Agent.self w) Agent.FINAL_ANSWER = None ->
    (forall tool_result : string, fst (Agent.run w) <> inr (Some tool_result))
    /\ Agent.task (snd (Agent.run w)) = Agent.task w.
Proof.
  intros L R w Hnone.
  assert (Hnever : forall tool_result : string,
             fst (Agent.run w) <> inr (Some tool_result)).
  { intros r Hrun.
    destruct (Agent.first_prompt (Agent.self w) (Agent.task w)) as [e|prompt] eqn:Hfirst.
    - rewrite (RunFacts.run_unrendered w e Hfirst) in Hrun. discriminate Hrun.
    - rewrite (RunFacts.run_rendered w prompt Hfirst) in Hrun.
      destruct (Agent.loop _ prompt _ w) as [out w'] eqn:Hloop. cbn in Hrun.
      subst out. exact (RunCases.loop_never_completes _ _ _ w Hnone _ _ Hloop). }
  split; [exact Hnever|].
  pose proof (RunCases.run_task w) as Htask.
  destruct (Agent.run w) as [[e|[r|]] w']; cbn in *; try exact Htask.
  exfalso. exact (Hnever r eq_refl).
Qed.

Lemma run_never_returns_without_the_final_name_witness :
  let reply := Sample.action "Return Final Answer Tool" Sample.answer42 in
  let w := Sample.start
             (Sample.agent (L := Sample.constant reply) tt [Sample.Renamed] 3 false)
             (Sample.a_task "find cats") in
  Agent.tools (Agent.self w) = [Sample.Renamed]
  /\ (forall tool_result : string,
         fst (Agent.run (R := Sample.runtime) w) <> inr (Some tool_result))
  /\ Agent.task (snd (Agent.run (R := Sample.runtime) w)) = Agent.task w.
Proof.
  intros reply w. split; [reflexivity|].
  exact (run_never_returns_without_the_final_name
           (Sample.constant reply) Sample.runtime w eq_refl).
Defined.

(** X4.  With a budget of turns that is zero or negative the run makes no
    turn, but it still formats the template first: it raises what that
    format raises, and returns nothing otherwise; neither the model nor a
    tool is called, and the agent and the task are as they were. *)
Theorem run_without_turns_only_formats :
  forall (L : LLM) (R : Runtime) (w : Agent.world L),
    (Agent.max_loops (Agent.self w) <= 0)%Z ->
    Agent.run w
    = (match Agent.first_prompt (Agent.self w) (Agent.task w) with
       | inl e => inl e
       | inr _ => inr None
       end, w).
Proof.
  intros L R w Hbudget.
  destruct (Agent.first_prompt (Agent.self w) (Agent.task w)) as [e|prompt] eqn:Hfirst.
  - exact (RunFacts.run_unrendered w e Hfirst).
  - rewrite (RunFacts.run_rendered w prompt Hfirst).
    replace (Z.to_nat (Agent.max_loops (Agent.self w))) with 0%nat by lia.
    reflexivity.
Qed.

Lemma run_without_turns_only_formats_witness :
  let reply := Sample.action "Search" Sample.cats in
  let w := Sample.start
             (Sample.agent (L := Sample.constant reply) tt [Sample.Search] (-2) false)
             (Sample.a_task "find cats") in
  Agent.run (R := Sample.runtime) w = (inr None, w).
Proof.
  intros reply w.
  rewrite (run_without_turns_only_formats (Sample.constant reply) Sample.runtime w);
    [|cbn; lia].
  destruct (Agent.first_prompt (R := Sample.runtime) (Agent.self w) (Agent.task w))
    as [e|prompt] eqn:Hfirst; [|reflexivity].
  vm_compute in Hfirst. discriminate Hfirst.
Defined.

(** X12.  No observation is replaced in silence.  When a turn goes through
    and the errors the agent keeps are as they were, the input of the action
    was decoded to a mapping, the tool of the dictionary returned for it, and
    the observation added to the reply is what the tool returned. *)
Theorem turn_without_logged_error_observes_the_tool :
  forall (L : LLM) (R : Runtime) (w : Agent.world L) (prompt : string)
         (previous_responses responses : list string) (returned : option string)
         (w' : Agent.world L),
    Agent.turn prompt previous_responses w = (inr (responses, returned), w') ->
    Agent.errors_encountered (Agent.self w')
    = Agent.errors_encountered (Agent.self w) ->
    exists (curr_prompt tool tool_input : string) (the_tool : BaseTool)
           (arguments : kwargs) (tool_result : string),
      Agent.fill prompt previous_responses = inr curr_prompt
      /\ Agent.parsed (Agent.reply w curr_prompt) = Some (tool, tool_input)
      /\ Agent.tool_by_names (Agent.self w) tool = Some the_tool
      /\ json_loads (Agent.remove_control tool_input) = inr (PDict arguments)
      /\ Agent.apply_tool the_tool (PDict arguments) = inr tool_result
      /\ responses
         = (previous_responses
            ++ [Agent.observed (Agent.reply w curr_prompt) tool_result])%list.
Proof.
  intros L R w prompt prev responses returned w'.
  exact (RunCases.turn_unlogged w prompt prev responses returned w').
Qed.

Lemma turn_without_logged_error_observes_the_tool_witness :
  let reply := Sample.action "Search" Sample.cats in
  let w := Sample.start
             (Sample.agent (L := Sample.constant reply) tt [Sample.Search] 1 false)
             (Sample.a_task "find cats") in
  exists (responses : list string) (returned : option string)
         (w' : Agent.world (Sample.constant reply)),
    Agent.turn (R := Sample.runtime) "go" [] w = (inr (responses, returned), w')
    /\ exists (curr_prompt tool tool_input : string) (the_tool : BaseTool)
              (arguments : kwargs) (tool_result : string),
         Agent.fill (R := Sample.runtime) "go" [] = inr curr_prompt
         /\ Agent.parsed (Agent.reply w curr_prompt) = Some (tool, tool_input)
         /\ Agent.tool_by_names (Agent.self w) tool = Some the_tool
         /\ json_loads (Runtime := Sample.runtime) (Agent.remove_control tool_input)
            = inr (PDict arguments)
         /\ Agent.apply_tool the_tool (PDict arguments) = inr tool_result
         /\ responses
            = [Agent.observed (Agent.reply w curr_prompt) tool_result].
Proof.
  intros reply w.
  destruct (Agent.turn (R := Sample.runtime) "go" [] w)
    as [[e|[responses returned]] w'] eqn:Hturn.
  { vm_compute in Hturn. discriminate Hturn. }
  exists responses, returned, w'. split; [reflexivity|].
  apply (turn_without_logged_error_observes_the_tool
           (Sample.constant reply) Sample.runtime w "go" [] responses returned w' Hturn).
  vm_compute in Hturn. injection Hturn as _ _ <-. reflexivity.
Defined.

(** ** The parser on the texts of the protocol *)

Module ActionFacts.

Import PyStr Sre.

(** The equations of the matcher, node by node. *)
Lemma match_mark (i : nat) (k : pattern) (s : string) (pos : nat) (ms : marks) :
  match_here (Mark i :: k) s pos ms = match_here k s pos ((i, pos) :: ms).
Proof. reflexivity. Qed.

Lemma match_star (cs : cset) (k : pattern) (s : string) (pos : nat) (ms : marks) :
  match_here (Star cs :: k) s pos ms
  = match s with
    | String x s' =>
        if cset_mem cs x then
          match match_here (Star cs :: k) s' (S pos) ms with
          | Some r => Some r
          | None => match_here k s pos ms
          end
        else match_here k s pos ms
    | EmptyString => match_here k s pos ms
    end.
Proof. destruct s; reflexivity. Qed.

Lemma match_lazy (cs : cset) (k : pattern) (s : string) (pos : nat) (ms : marks) :
  match_here (MinStar cs :: k) s pos ms
  = match match_here k s pos ms with
    | Some r => Some r
    | None =>
        match s with
        | String x s' =>
            if cset_mem cs x then match_here (MinStar cs :: k) s' (S pos) ms
            else None
        | EmptyString => None
        end
    end.
Proof. destruct s; reflexivity. Qed.

Lemma match_opt (cs : cset) (k : pattern) (s : string) (pos : nat) (ms : marks) :
  match_here (Opt cs :: k) s pos ms
  = match s with
    | String x s' =>
        if cset_mem cs x then
          match match_here k s' (S pos) ms with
          | Some r => Some r
          | None => match_here k s pos ms
          end
        else match_here k s pos ms
    | EmptyString => match_here k s pos ms
    end.
Proof. destruct s; reflexivity. Qed.

(** Literal characters match themselves. *)
Lemma match_lits_app (x : string) (q : pattern) (s : string) :
  forall (pos : nat) (ms : marks),
    match_here (lits x ++ q)%list (x ++ s) pos ms
    = match_here q s (pos + String.length x) ms.
Proof.
  induction x as [|a x IH]; intros pos ms; cbn.
  - rewrite Nat.add_0_r. reflexivity.
  - rewrite Ascii.eqb_refl, IH. f_equal. lia.
Qed.

(** A text that begins across the end of [t] has the character after [t]
    in it. *)
Lemma startswith_sep (x : string) :
  forall (t : string) (c : ascii) (rest : string),
    startswith x (t ++ String c rest) = true ->
    startswith x t = true \/ mem c x = true.
Proof.
  induction x as [|a x IH]; intros t c rest H.
  - left. destruct t; reflexivity.
  - destruct t as [|b t]; cbn in H |- *.
    + apply andb_true_iff in H as [Hac _]. right.
      apply Ascii.eqb_eq in Hac. subst a. rewrite Ascii.eqb_refl. reflexivity.
    + apply andb_true_iff in H as [Hab H].
      destruct (IH t c rest H) as [Ht|Hc].
      * left. rewrite Hab, Ht. reflexivity.
      * right. rewrite Hc. apply orb_true_r.
Qed.

Lemma startswith_sep_tail (a : ascii) (x : string) (b : ascii) (t : string)
    (c : ascii) (rest : string) :
  startswith (String a x) (String b t ++ String c rest) = true ->
  startswith (String a x) (String b t) = true \/ mem c x = true.
Proof.
  cbn. intros H. apply andb_true_iff in H as [Hab H].
  destruct (startswith_sep x t c rest H) as [Ht|Hc].
  - left. rewrite Hab, Ht. reflexivity.
  - right. exact Hc.
Qed.

Lemma contains_app_r (x a b : string) :
  contains x b = true -> contains x (a ++ b) = true.
Proof.
  intros H. induction a as [|c a IH]; [exact H|].
  cbn [append]. apply SreFacts.contains_cons. exact IH.
Qed.

(** The end of the pattern, from the run of whitespace on, matches any
    text: group 2 begins after the leading whitespace and goes to the end. *)
Lemma star_any (s : string) :
  forall (pos : nat) (ms : marks),
    match_here [Star AnyChar; Mark 3] s pos ms
    = Some ((3, pos + String.length s) :: ms).
Proof.
  induction s as [|c s IH]; intros pos ms; rewrite match_star.
  - cbn. rewrite Nat.add_0_r. reflexivity.
  - cbn [cset_mem]. rewrite IH. cbn [String.length]. do 3 f_equal. lia.
Qed.

Lemma lstrip_by_length (p : ascii -> bool) (s : string) :
  (String.length (lstrip_by p s) <= String.length s)%nat.
Proof.
  induction s as [|c s IH]; cbn; [lia|]. destruct (p c); cbn; lia.
Qed.

Lemma tail_matches (s : string) :
  forall (pos : nat) (ms : marks),
    match_here [Star Space; Mark 2; Star AnyChar; Mark 3] s pos ms
    = Some ((3, pos + String.length s)
            :: (2, pos + (String.length s - String.length (lstrip_by isspace s)))
            :: ms).
Proof.
  induction s as [|c s IH]; intros pos ms; rewrite match_star.
  - rewrite match_mark, star_any. cbn. rewrite !Nat.add_0_r. reflexivity.
  - cbn [cset_mem lstrip_by]. destruct (isspace c).
    + rewrite IH. pose proof (lstrip_by_length isspace s). cbn [String.length].
      f_equal; f_equal; [f_equal; lia|f_equal; f_equal; lia].
    + rewrite match_mark, star_any. cbn [String.length].
      f_equal; f_equal; f_equal; f_equal; lia.
Qed.

(** The lazy run stops at the first offset where the rest of the pattern
    matches. *)
Lemma lazy_here (k : pattern) (v : string) (pos : nat) (ms r : marks) :
  match_here k v pos ms = Some r ->
  match_here (MinStar AnyChar :: k) v pos ms = Some r.
Proof. intros H. rewrite match_lazy, H. reflexivity. Qed.

Lemma lazy_skip (k : pattern) (ms : marks) (u : string) :
  forall (v : string) (pos : nat),
    (forall (u1 : string) (c : ascii) (u2 : string),
        u = u1 ++ String c u2 ->
        forall pos' : nat, match_here k (String c u2 ++ v) pos' ms = None) ->
    match_here (MinStar AnyChar :: k) (u ++ v) pos ms
    = match_here (MinStar AnyChar :: k) v (pos + String.length u) ms.
Proof.
  induction u as [|c u IH]; intros v pos Hfail.
  - cbn [append String.length]. rewrite Nat.add_0_r. reflexivity.
  - rewrite match_lazy, (Hfail EmptyString c u eq_refl pos).
    cbn [append cset_mem String.length]. rewrite IH.
    + f_equal. lia.
    + intros u1 d u2 Hu pos'. apply (Hfail (String c u1) d u2).
      rewrite Hu. reflexivity.
Qed.

(** The search stops at the first offset where the pattern matches. *)
Lemma search_here (p : pattern) (s : string) (pos : nat) (r : marks) :
  match_here p s pos [] = Some r -> search_from p s pos = Some r.
Proof. intros H. destruct s; cbn [search_from]; rewrite H; reflexivity. Qed.

Lemma search_skip (p : pattern) (u : string) :
  forall (v : string) (pos : nat),
    (forall (u1 : string) (c : ascii) (u2 : string),
        u = u1 ++ String c u2 ->
        forall pos' : nat, match_here p (String c u2 ++ v) pos' [] = None) ->
    search_from p (u ++ v) pos = search_from p v (pos + String.length u).
Proof.
  induction u as [|c u IH]; intros v pos Hfail.
  - cbn [append String.length]. rewrite Nat.add_0_r. reflexivity.
  - pose proof (Hfail EmptyString c u eq_refl pos) as Hhere.
    cbn [append String.length search_from] in Hhere |- *.
    rewrite Hhere, IH.
    + f_equal. lia.
    + intros u1 d u2 Hu pos'. apply (Hfail (String c u1) d u2).
      rewrite Hu. reflexivity.
Qed.

(** Taking a group out of the subject. *)
Lemma substring_app (a b c : string) :
  substring (String.length a) (String.length b) (a ++ b ++ c) = b.
Proof.
  induction a as [|x a IH]; cbn.
  - induction b as [|y b IHb]; cbn; [destruct c; reflexivity|].
    rewrite IHb. reflexivity.
  - exact IH.
Qed.

Lemma substring_end (a b : string) :
  substring (String.length a) (String.length b) (a ++ b) = b.
Proof.
  induction a as [|x a IH]; cbn; [|exact IH].
  induction b as [|y b IHb]; cbn; [reflexivity|]. rewrite IHb. reflexivity.
Qed.

(** A text already trimmed is left as it is. *)
Lemma lstrip_by_id (p : ascii -> bool) (s : string) :
  match first s with Some a => p a = false | None => True end ->
  lstrip_by p s = s.
Proof. destruct s as [|c s]; cbn; [reflexivity|]. intros ->. reflexivity. Qed.

Lemma rstrip_by_id (p : ascii -> bool) (s : string) :
  match last s with Some b => p b = false | None => True end ->
  rstrip_by p s = s.
Proof.
  induction s as [|c s IH]; [reflexivity|].
  cbn [last rstrip_by]. destruct s as [|d s].
  - cbn. intros ->. reflexivity.
  - intros H. rewrite (IH H). reflexivity.
Qed.

Lemma strip_by_trimmed (p : ascii -> bool) (s : string) :
  Agent.trimmed p s = true -> strip_by p s = s.
Proof.
  unfold Agent.trimmed, strip_by. intros H.
  destruct (first s) as [a|] eqn:Ha.
  - destruct (last s) as [b|] eqn:Hb.
    + apply andb_true_iff in H as [H1 H2].
      rewrite rstrip_by_id, lstrip_by_id; try reflexivity.
      * rewrite Ha. destruct (p a); [discriminate H1|reflexivity].
      * rewrite Hb. destruct (p b); [discriminate H2|reflexivity].
    + destruct s as [|c s]; [discriminate Ha|].
      exfalso. clear -Hb. revert c Hb. induction s as [|d s IH]; intros c Hb.
      * discriminate Hb.
      * exact (IH d Hb).
  - destruct s; [reflexivity|discriminate Ha].
Qed.

Lemma lstrip_by_split (p : ascii -> bool) (s : string) :
  exists ws : string,
    s = ws ++ lstrip_by p s
    /\ String.length ws = String.length s - String.length (lstrip_by p s).
Proof.
  induction s as [|c s [ws [Hs Hlen]]].
  - exists EmptyString. split; reflexivity.
  - cbn [lstrip_by]. destruct (p c).
    + exists (String c ws). split; [cbn; rewrite <- Hs; reflexivity|].
      pose proof (lstrip_by_length p s). cbn [String.length]. lia.
    + exists EmptyString. split; [reflexivity|]. cbn. lia.
Qed.

Lemma forallb_split (p : ascii -> bool) (u1 : string) (c : ascii) (u2 : string) :
  forallb p (u1 ++ String c u2) = true -> p c = true.
Proof.
  induction u1 as [|d u1 IH]; cbn; intros H;
    apply andb_true_iff in H as [H1 H2]; [exact H1|exact (IH H2)].
Qed.

Lemma length_append (a b : string) :
  String.length (a ++ b) = String.length a + String.length b.
Proof. induction a as [|c a IH]; cbn; [reflexivity|]. rewrite IH. reflexivity. Qed.

Lemma mem_app (c : ascii) (a b : string) :
  mem c (a ++ b) = mem c a || mem c b.
Proof.
  induction a as [|d a IH]; cbn; [reflexivity|]. rewrite IH. apply orb_assoc.
Qed.

(** Inside the tool name the rest of the pattern, from the end of group 1
    on, does not match. *)
Lemma after_name_fails (c : ascii) (u2 : string) (d : ascii) (rest : string)
    (pos : nat) (ms : marks) :
  mem c ("]" ++ nl) = false ->
  contains "Action Input:" (String c u2) = false ->
  mem d "ction Input:" = false ->
  match_here
    (Mark 1 :: Opt (OneOf "]") :: Star (OneOf nl)
     :: lits "Action Input:" ++ [Star Space; Mark 2; Star AnyChar; Mark 3])%list
    (String c u2 ++ String d rest) pos ms = None.
Proof.
  intros Hc Hno Hd. rewrite mem_app in Hc. apply orb_false_elim in Hc as [Hc1 Hc2].
  rewrite match_mark, match_opt. cbn [append cset_mem]. rewrite Hc1.
  rewrite match_star. cbn [cset_mem]. rewrite Hc2.
  destruct (match_here _ _ _ _) as [r|] eqn:E; [|reflexivity].
  apply SreFacts.match_lits in E.
  change (String c (u2 ++ String d rest)) with (String c u2 ++ String d rest) in E.
  apply startswith_sep_tail in E as [E|E].
  - rewrite (SreFacts.contains_startswith _ _ E) in Hno. discriminate Hno.
  - rewrite E in Hd. discriminate Hd.
Qed.

(** At the end of the name it matches, and the marks are these. *)
Lemma after_name_matches (rest : string) (pos : nat) (ms : marks) :
  match_here
    (Mark 1 :: Opt (OneOf "]") :: Star (OneOf nl)
     :: lits "Action Input:" ++ [Star Space; Mark 2; Star AnyChar; Mark 3])%list
    (nl ++ "Action Input:" ++ rest) pos ms
  = Some ((3, S pos + 13 + String.length rest)
          :: (2, S pos + 13
                 + (String.length rest - String.length (lstrip_by isspace rest)))
          :: (1, pos) :: ms).
Proof.
  rewrite match_mark, match_opt.
  change (nl ++ "Action Input:" ++ rest)
    with (String (ascii_of_nat 10) ("Action Input:" ++ rest)).
  replace (cset_mem (OneOf "]") (ascii_of_nat 10)) with false by reflexivity.
  rewrite match_star.
  replace (cset_mem (OneOf nl) (ascii_of_nat 10)) with true by reflexivity.
  rewrite (match_star _ _ ("Action Input:" ++ rest)).
  change ("Action Input:" ++ rest) with (String "A" ("ction Input:" ++ rest)) at 1.
  replace (cset_mem (OneOf nl) "A") with false by reflexivity.
  change (String "A" ("ction Input:" ++ rest)) with ("Action Input:" ++ rest).
  rewrite match_lits_app, tail_matches. reflexivity.
Qed.

Lemma contains_suffix_false (x u1 t : string) :
  contains x (u1 ++ t) = false -> contains x t = false.
Proof.
  intros H. destruct (contains x t) eqn:E; [|reflexivity].
  rewrite (contains_app_r x u1 t E) in H. discriminate H.
Qed.

(** The marks of the match on an action written without brackets. *)
Lemma regex_spans (before tool rest : string) :
  contains "Action: " before = false ->
  contains "Action Input:" tool = false ->
  forallb (fun c => negb (mem c ("]" ++ nl))) tool = true ->
  first tool <> Some "["%char ->
  let p0 := String.length before + 8 in
  let p1 := p0 + String.length tool in
  search_from regex (before ++ "Action: " ++ tool ++ nl ++ "Action Input:" ++ rest) 0
  = Some [(3, S p1 + 13 + String.length rest);
          (2, S p1 + 13
              + (String.length rest - String.length (lstrip_by isspace rest)));
          (1, p1); (0, p0)].
Proof.
  intros Hbefore Hname Hchars Hfirst p0 p1.
  set (K := (Mark 1 :: Opt (OneOf "]") :: Star (OneOf nl)
             :: lits "Action Input:" ++ [Star Space; Mark 2; Star AnyChar; Mark 3])%list).
  change regex
    with (lits "Action: " ++ Opt (OneOf "[") :: Mark 0 :: MinStar AnyChar :: K)%list.
  rewrite search_skip.
  2:{ intros u1 c u2 Hu pos'.
      destruct (match_here _ _ _ _) as [r|] eqn:E; [|reflexivity].
      apply SreFacts.match_lits in E.
      change (String c u2 ++ "Action: " ++ tool ++ nl ++ "Action Input:" ++ rest)
        with (String c u2
              ++ String "A" ("ction: " ++ tool ++ nl ++ "Action Input:" ++ rest)) in E.
      apply startswith_sep_tail in E as [E|E].
      - rewrite Hu in Hbefore. apply contains_suffix_false in Hbefore.
        rewrite (SreFacts.contains_startswith _ _ E) in Hbefore. discriminate Hbefore.
      - vm_compute in E. discriminate E. }
  apply search_here. rewrite match_lits_app, match_opt.
  assert (Hopen : match tool ++ nl ++ "Action Input:" ++ rest with
                  | String x _ => cset_mem (OneOf "[") x = false
                  | EmptyString => True
                  end).
  { destruct tool as [|x tool]; [reflexivity|]. cbn.
    destruct (Ascii.eqb x "[") eqn:E; [|reflexivity].
    apply Ascii.eqb_eq in E. subst x. exfalso. apply Hfirst. reflexivity. }
  assert (Hgo : match_here (Mark 0 :: MinStar AnyChar :: K)
                  (tool ++ nl ++ "Action Input:" ++ rest)
                  (0 + String.length before + String.length "Action: ") []
                = Some [(3, S p1 + 13 + String.length rest);
                        (2, S p1 + 13
                            + (String.length rest
                               - String.length (lstrip_by isspace rest)));
                        (1, p1); (0, p0)]).
  { rewrite match_mark, lazy_skip.
    - apply lazy_here. unfold K. rewrite after_name_matches. reflexivity.
    - intros u1 c u2 Hu pos'.
      change (nl ++ "Action Input:" ++ rest)
        with (String (ascii_of_nat 10) ("Action Input:" ++ rest)).
      apply after_name_fails.
      + rewrite Hu in Hchars. apply forallb_split in Hchars.
        destruct (mem c ("]" ++ nl)); [discriminate Hchars|reflexivity].
      + rewrite Hu in Hname. exact (contains_suffix_false _ _ _ Hname).
      + reflexivity. }
  destruct (tool ++ nl ++ "Action Input:" ++ rest) as [|x s] eqn:Htext.
  - exact Hgo.
  - rewrite Hopen. exact Hgo.
Qed.

(** Where the pattern matches, the text has the two markers in turn. *)
Lemma startswith_split (x : string) :
  forall s : string, startswith x s = true -> exists s' : string, s = x ++ s'.
Proof.
  induction x as [|a x IH]; intros s H.
  - exists s. reflexivity.
  - destruct s as [|b s]; [discriminate H|]. cbn in H.
    apply andb_true_iff in H as [Hab H]. apply Ascii.eqb_eq in Hab. subst b.
    destruct (IH s H) as [s' ->]. exists s'. reflexivity.
Qed.

Lemma contains_split (x : string) :
  forall s : string,
    contains x s = true -> exists b c : string, s = b ++ x ++ c.
Proof.
  induction s as [|d s IH]; cbn [contains]; intros H;
    apply orb_true_iff in H as [H|H]; try discriminate H.
  - destruct (startswith_split x _ H) as [c Hc]. exists EmptyString, c. exact Hc.
  - destruct (startswith_split x _ H) as [c Hc]. exists EmptyString, c. exact Hc.
  - destruct (IH H) as [b [c ->]]. exists (String d b), c. reflexivity.
Qed.

Lemma search_from_split (p : pattern) :
  forall (s : string) (pos : nat) (r : marks),
    search_from p s pos = Some r ->
    exists (a s' : string) (pos' : nat),
      s = a ++ s' /\ match_here p s' pos' [] = Some r.
Proof.
  induction s as [|c s IH]; intros pos r H; cbn [search_from] in H.
  - destruct (match_here p EmptyString pos []) as [r'|] eqn:E; [|discriminate H].
    exists EmptyString, EmptyString, pos. split; [reflexivity|]. rewrite E. exact H.
  - destruct (match_here p (String c s) pos []) as [r'|] eqn:E.
    + exists EmptyString, (String c s), pos. split; [reflexivity|]. rewrite E. exact H.
    + destruct (IH _ _ H) as (a & s' & pos' & -> & Hm).
      exists (String c a), s', pos'. split; [reflexivity|exact Hm].
Qed.

(** A text that has the two markers in turn is matched. *)
Lemma search_from_later (p : pattern) (s : string) :
  (forall pos : nat, match_here p s pos [] <> None) ->
  forall (a : string) (pos : nat), search_from p (a ++ s) pos <> None.
Proof.
  intros Hs. induction a as [|c a IH]; intros pos.
  - cbn [append]. specialize (Hs pos).
    destruct s; cbn [search_from]; destruct (match_here _ _ _ _); congruence.
  - cbn [append search_from].
    destruct (match_here p (String c (a ++ s)) pos []); [discriminate|apply IH].
Qed.

Lemma lazy_later (k : pattern) (v : string) :
  (forall (pos : nat) (ms : marks), match_here k v pos ms <> None) ->
  forall (b : string) (pos : nat) (ms : marks),
    match_here (MinStar AnyChar :: k) (b ++ v) pos ms <> None.
Proof.
  intros Hv. induction b as [|c b IH]; intros pos ms; rewrite match_lazy.
  - cbn [append]. specialize (Hv pos ms).
    destruct (match_here k v pos ms); congruence.
  - destruct (match_here k (String c b ++ v) pos ms); [discriminate|].
    cbn [append cset_mem]. apply IH.
Qed.

Lemma regex_matches_markers (b c : string) (pos : nat) :
  match_here regex ("Action: " ++ b ++ "Action Input:" ++ c) pos [] <> None.
Proof.
  set (K := (Mark 1 :: Opt (OneOf "]") :: Star (OneOf nl)
             :: lits "Action Input:" ++ [Star Space; Mark 2; Star AnyChar; Mark 3])%list).
  change regex
    with (lits "Action: " ++ Opt (OneOf "[") :: Mark 0 :: MinStar AnyChar :: K)%list.
  rewrite match_lits_app.
  assert (HK : forall (pos : nat) (ms : marks),
             match_here K ("Action Input:" ++ c) pos ms <> None).
  { intros pos' ms. unfold K. rewrite match_mark, match_opt.
    change ("Action Input:" ++ c) with (String "A" ("ction Input:" ++ c)).
    replace (cset_mem (OneOf "]") "A") with false by reflexivity.
    rewrite match_star.
    replace (cset_mem (OneOf nl) "A") with false by reflexivity.
    change (String "A" ("ction Input:" ++ c)) with ("Action Input:" ++ c).
    rewrite match_lits_app, tail_matches. discriminate. }
  assert (Hlazy : forall (s : string) (pos : nat),
             (exists b' : string, s = b' ++ "Action Input:" ++ c) ->
             match_here (Mark 0 :: MinStar AnyChar :: K) s pos [] <> None).
  { intros s pos' [b' ->]. rewrite match_mark. apply lazy_later. exact HK. }
  assert (Hopt : forall (s : string) (pos : nat),
             (exists b' : string, s = b' ++ "Action Input:" ++ c) ->
             match_here (Opt (OneOf "[") :: Mark 0 :: MinStar AnyChar :: K) s pos []
             <> None).
  { intros s pos' Hs. rewrite match_opt. destruct s as [|x s]; [exact (Hlazy _ _ Hs)|].
    destruct (cset_mem (OneOf "[") x); [|exact (Hlazy _ _ Hs)].
    destruct (match_here _ s _ _); [discriminate|exact (Hlazy _ _ Hs)]. }
  apply Hopt. exists b. reflexivity.
Qed.

Lemma parsed_iff (generated : string) :
  Agent.parsed generated <> None
  <-> exists a b c : string,
        generated = a ++ "Action: " ++ b ++ "Action Input:" ++ c.
Proof.
  unfold Agent.parsed, search. split.
  - destruct (search_from regex generated 0) as [r|] eqn:E; [intros _|congruence].
    destruct (search_from_split _ _ _ _ E) as (a & s & pos & -> & Hm).
    pose proof (SreFacts.match_lits "Action: " _ _ _ _ _ Hm) as Hs.
    destruct (startswith_split _ _ Hs) as [s' ->].
    change regex
      with (lits "Action: "
            ++ [Opt (OneOf "["); Mark 0; MinStar AnyChar; Mark 1;
                Opt (OneOf "]"); Star (OneOf nl)]
            ++ lits "Action Input:"
            ++ [Star Space; Mark 2; Star AnyChar; Mark 3])%list in Hm.
    rewrite match_lits_app in Hm.
    apply SreFacts.match_here_contains in Hm.
    destruct (contains_split _ _ Hm) as [b [c ->]].
    exists a, b, c. reflexivity.
  - intros (a & b & c & ->).
    pose proof (search_from_later regex _ (regex_matches_markers b c) a 0) as H.
    destruct (search_from regex _ 0); [discriminate|congruence].
Qed.

Lemma newline_input_matches (rest : string) (pos : nat) (ms : marks) :
  match_here
    (Star (OneOf nl)
     :: lits "Action Input:" ++ [Star Space; Mark 2; Star AnyChar; Mark 3])%list
    (nl ++ "Action Input:" ++ rest) pos ms
  = Some ((3, S pos + 13 + String.length rest)
          :: (2, S pos + 13
                 + (String.length rest - String.length (lstrip_by isspace rest)))
          :: ms).
Proof.
  change (nl ++ "Action Input:" ++ rest)
    with (String (ascii_of_nat 10) ("Action Input:" ++ rest)).
  rewrite match_star.
  replace (cset_mem (OneOf nl) (ascii_of_nat 10)) with true by reflexivity.
  rewrite (match_star _ _ ("Action Input:" ++ rest)).
  change ("Action Input:" ++ rest) with (String "A" ("ction Input:" ++ rest)) at 1.
  replace (cset_mem (OneOf nl) "A") with false by reflexivity.
  change (String "A" ("ction Input:" ++ rest)) with ("Action Input:" ++ rest).
  rewrite match_lits_app, tail_matches. reflexivity.
Qed.

Lemma after_bracket_matches (rest : string) (pos : nat) (ms : marks) :
  match_here
    (Mark 1 :: Opt (OneOf "]") :: Star (OneOf nl)
     :: lits "Action Input:" ++ [Star Space; Mark 2; Star AnyChar; Mark 3])%list
    ("]" ++ nl ++ "Action Input:" ++ rest) pos ms
  = Some ((3, S (S pos) + 13 + String.length rest)
          :: (2, S (S pos) + 13
                 + (String.length rest - String.length (lstrip_by isspace rest)))
          :: (1, pos) :: ms).
Proof.
  change ("]" ++ nl ++ "Action Input:" ++ rest)
    with (String "]" (nl ++ "Action Input:" ++ rest)).
  rewrite match_mark, match_opt.
  replace (cset_mem (OneOf "]") "]") with true by reflexivity.
  rewrite newline_input_matches. reflexivity.
Qed.

(** The marks of the match on an action whose name is in brackets. *)
Lemma regex_spans_bracketed (before tool rest : string) :
  contains "Action: " before = false ->
  contains "Action Input:" tool = false ->
  forallb (fun c => negb (mem c ("]" ++ nl))) tool = true ->
  let p0 := String.length before + 9 in
  let p1 := p0 + String.length tool in
  search_from regex
    (before ++ "Action: " ++ "[" ++ tool ++ "]" ++ nl ++ "Action Input:" ++ rest) 0
  = Some [(3, S (S p1) + 13 + String.length rest);
          (2, S (S p1) + 13
              + (String.length rest - String.length (lstrip_by isspace rest)));
          (1, p1); (0, p0)].
Proof.
  intros Hbefore Hname Hchars p0 p1.
  set (K := (Mark 1 :: Opt (OneOf "]") :: Star (OneOf nl)
             :: lits "Action Input:" ++ [Star Space; Mark 2; Star AnyChar; Mark 3])%list).
  change regex
    with (lits "Action: " ++ Opt (OneOf "[") :: Mark 0 :: MinStar AnyChar :: K)%list.
  rewrite search_skip.
  2:{ intros u1 c u2 Hu pos'.
      destruct (match_here _ _ _ _) as [r|] eqn:E; [|reflexivity].
      apply SreFacts.match_lits in E.
      change (String c u2 ++ "Action: " ++ "[" ++ tool ++ "]" ++ nl
              ++ "Action Input:" ++ rest)
        with (String c u2
              ++ String "A" ("ction: " ++ "[" ++ tool ++ "]" ++ nl
                             ++ "Action Input:" ++ rest)) in E.
      apply startswith_sep_tail in E as [E|E].
      - rewrite Hu in Hbefore. apply contains_suffix_false in Hbefore.
        rewrite (SreFacts.contains_startswith _ _ E) in Hbefore. discriminate Hbefore.
      - vm_compute in E. discriminate E. }
  apply search_here. rewrite match_lits_app.
  change ("[" ++ tool ++ "]" ++ nl ++ "Action Input:" ++ rest)
    with (String "[" (tool ++ "]" ++ nl ++ "Action Input:" ++ rest)).
  assert (Hin : forall pos : nat,
             match_here (Mark 0 :: MinStar AnyChar :: K)
               (tool ++ "]" ++ nl ++ "Action Input:" ++ rest) pos []
             = Some [(3, S (S (pos + String.length tool)) + 13 + String.length rest);
                     (2, S (S (pos + String.length tool)) + 13
                         + (String.length rest
                            - String.length (lstrip_by isspace rest)));
                     (1, pos + String.length tool); (0, pos)]).
  { intros pos. rewrite match_mark, lazy_skip.
    - apply lazy_here. apply after_bracket_matches.
    - intros u1 c u2 Hu pos'.
      change ("]" ++ nl ++ "Action Input:" ++ rest)
        with (String "]" (nl ++ "Action Input:" ++ rest)).
      apply after_name_fails.
      + rewrite Hu in Hchars. apply forallb_split in Hchars.
        destruct (mem c ("]" ++ nl)); [discriminate Hchars|reflexivity].
      + rewrite Hu in Hname. exact (contains_suffix_false _ _ _ Hname).
      + reflexivity. }
  rewrite match_opt.
  replace (cset_mem (OneOf "[") "[") with true by reflexivity.
  rewrite Hin. unfold p1, p0. cbn [String.length].
  replace (S (0 + String.length before + 8)) with (String.length before + 9) by lia.
  reflexivity.
Qed.

(** The two groups, read off such marks. *)
Lemma groups_of_spans (a tool b rest : string) (p0 p1 p2 e : nat) :
  p0 = String.length a ->
  p1 = p0 + String.length tool ->
  p2 = p1 + String.length b
       + (String.length rest - String.length (lstrip_by isspace rest)) ->
  e = p1 + String.length b + String.length rest ->
  let m := {| subject := a ++ tool ++ b ++ rest;
              spans := [(3, e); (2, p2); (1, p1); (0, p0)] |} in
  group 1 m = tool /\ group 2 m = lstrip_by isspace rest.
Proof.
  intros Hp0 Hp1 Hp2 He m. unfold group, m.
  cbn [spans subject get_mark Nat.eqb Nat.mul Nat.sub Nat.add].
  split.
  - replace (p1 - p0) with (String.length tool) by lia. rewrite Hp0.
    apply substring_app.
  - destruct (lstrip_by_split isspace rest) as [ws [Hrest Hws]].
    pose proof (lstrip_by_length isspace rest) as Hle.
    replace (e - p2) with (String.length (lstrip_by isspace rest)) by lia.
    replace p2 with (String.length (((a ++ tool) ++ b) ++ ws))
      by (rewrite !length_append; lia).
    replace (a ++ tool ++ b ++ rest)
      with ((((a ++ tool) ++ b) ++ ws) ++ lstrip_by isspace rest).
    + apply substring_end.
    + rewrite !FmtFacts.append_assoc. rewrite <- Hrest. reflexivity.
Qed.

Lemma parsed_action_any (before tool tool_input : string) :
  contains "Action: " before = false ->
  contains "Action Input:" tool = false ->
  forallb (fun c => negb (mem c ("]" ++ nl))) tool = true ->
  first tool <> Some "["%char ->
  Agent.parsed (before ++ "Action: " ++ tool ++ nl ++ "Action Input: " ++ tool_input)
  = Some (strip tool,
          strip_chars dq (strip_chars " " (lstrip_by isspace tool_input))).
Proof.
  intros Hbefore Hname Hchars Hfirst.
  change ("Action Input: " ++ tool_input) with ("Action Input:" ++ " " ++ tool_input).
  set (rest := " " ++ tool_input).
  pose proof (regex_spans before tool rest Hbefore Hname Hchars Hfirst) as Hs.
  cbv zeta in Hs. unfold Agent.parsed, search. rewrite Hs.
  replace (before ++ "Action: " ++ tool ++ nl ++ "Action Input:" ++ rest)
    with ((before ++ "Action: ") ++ tool ++ (nl ++ "Action Input:") ++ rest)
    by (rewrite !FmtFacts.append_assoc; reflexivity).
  pose proof (groups_of_spans (before ++ "Action: ") tool (nl ++ "Action Input:") rest
                (String.length before + 8)
                (String.length before + 8 + String.length tool)
                (S (String.length before + 8 + String.length tool) + 13
                 + (String.length rest - String.length (lstrip_by isspace rest)))
                (S (String.length before + 8 + String.length tool) + 13
                 + String.length rest)) as H.
  cbv zeta in H. destruct H as [H1 H2].
  - rewrite length_append. reflexivity.
  - reflexivity.
  - cbn [String.length nl chr append]. lia.
  - cbn [String.length nl chr append]. lia.
  - rewrite H1, H2. reflexivity.
Qed.

Lemma parsed_action (before tool tool_input : string) :
  contains "Action: " before = false ->
  contains "Action Input:" tool = false ->
  forallb (fun c => negb (mem c ("]" ++ nl))) tool = true ->
  first tool <> Some "["%char ->
  Agent.trimmed isspace tool = true ->
  Agent.parsed (before ++ "Action: " ++ tool ++ nl ++ "Action Input: " ++ tool_input)
  = Some (tool, strip_chars dq (strip_chars " " (lstrip_by isspace tool_input))).
Proof.
  intros Hbefore Hname Hchars Hfirst Htrim.
  rewrite (parsed_action_any before tool tool_input Hbefore Hname Hchars Hfirst).
  unfold strip. rewrite (strip_by_trimmed _ _ Htrim). reflexivity.
Qed.

Lemma parsed_action_bracketed_any (before tool tool_input : string) :
  contains "Action: " before = false ->
  contains "Action Input:" tool = false ->
  forallb (fun c => negb (mem c ("]" ++ nl))) tool = true ->
  Agent.parsed (before ++ "Action: " ++ "[" ++ tool ++ "]" ++ nl
                ++ "Action Input: " ++ tool_input)
  = Some (strip tool,
          strip_chars dq (strip_chars " " (lstrip_by isspace tool_input))).
Proof.
  intros Hbefore Hname Hchars.
  change ("Action Input: " ++ tool_input) with ("Action Input:" ++ " " ++ tool_input).
  set (rest := " " ++ tool_input).
  pose proof (regex_spans_bracketed before tool rest Hbefore Hname Hchars) as Hs.
  cbv zeta in Hs. unfold Agent.parsed, search. rewrite Hs.
  replace (before ++ "Action: " ++ "[" ++ tool ++ "]" ++ nl ++ "Action Input:" ++ rest)
    with ((before ++ "Action: [") ++ tool ++ ("]" ++ nl ++ "Action Input:") ++ rest)
    by (rewrite !FmtFacts.append_assoc; reflexivity).
  pose proof (groups_of_spans (before ++ "Action: [") tool
                ("]" ++ nl ++ "Action Input:") rest
                (String.length before + 9)
                (String.length before + 9 + String.length tool)
                (S (S (String.length before + 9 + String.length tool)) + 13
                 + (String.length rest - String.length (lstrip_by isspace rest)))
                (S (S (String.length before + 9 + String.length tool)) + 13
                 + String.length rest)) as H.
  cbv zeta in H. destruct H as [H1 H2].
  - rewrite length_append. reflexivity.
  - reflexivity.
  - cbn [String.length nl chr append]. lia.
  - cbn [String.length nl chr append]. lia.
  - rewrite H1, H2. reflexivity.
Qed.

Lemma parsed_action_bracketed (before tool tool_input : string) :
  contains "Action: " before = false ->
  contains "Action Input:" tool = false ->
  forallb (fun c => negb (mem c ("]" ++ nl))) tool = true ->
  Agent.trimmed isspace tool = true ->
  Agent.parsed (before ++ "Action: " ++ "[" ++ tool ++ "]" ++ nl
                ++ "Action Input: " ++ tool_input)
  = Some (tool, strip_chars dq (strip_chars " " (lstrip_by isspace tool_input))).
Proof.
  intros Hbefore Hname Hchars Htrim.
  rewrite (parsed_action_bracketed_any before tool tool_input Hbefore Hname Hchars).
  unfold strip. rewrite (strip_by_trimmed _ _ Htrim). reflexivity.
Qed.





End ActionFacts.

(** X15.  The parser reads back an action written in the form the prompt
    asks for.  Take a text without [Action: ] in front, then [Action: ], a
    tool name, a newline, [Action Input: ] and an input, where the name has
    no whitespace at its ends, no closing square bracket, no newline and no
    [Action Input:] in it.  The parser returns that name, and the input
    without its leading whitespace, its trailing spaces and then the double
    quotes at its ends; the state is as it was.  This is so for a name that
    does not begin with an opening square bracket, and also when the name is
    written between square brackets, which are dropped. *)
Theorem action_text_parses_back :
  forall (L : LLM) (w : Agent.world L) (before tool tool_input : string),
    PyStr.contains "Action: " before = false ->
    PyStr.contains "Action Input:" tool = false ->
    PyStr.forallb (fun c => negb (PyStr.mem c ("]" ++ PyStr.nl))) tool = true ->
    Agent.trimmed PyStr.isspace tool = true ->
    let read :=
      PyStr.strip_chars PyStr.dq
        (PyStr.strip_chars " " (PyStr.lstrip_by PyStr.isspace tool_input)) in
    (PyStr.first tool <> Some "["%char ->
     Agent._parse
       (before ++ "Action: " ++ tool ++ PyStr.nl ++ "Action Input: " ++ tool_input) w
     = (inr (tool, read), w))
    /\ Agent._parse
         (before ++ "Action: " ++ "[" ++ tool ++ "]" ++ PyStr.nl
          ++ "Action Input: " ++ tool_input) w
       = (inr (tool, read), w).
Proof.
  intros L w before tool tool_input Hbefore Hname Hchars Htrim read. split.
  - intros Hfirst. apply ParseFacts.parse_matched.
    exact (ActionFacts.parsed_action before tool tool_input
             Hbefore Hname Hchars Hfirst Htrim).
  - apply ParseFacts.parse_matched.
    exact (ActionFacts.parsed_action_bracketed before tool tool_input
             Hbefore Hname Hchars Htrim).
Qed.

Lemma action_text_parses_back_witness :
  let w := Sample.start (Sample.agent (L := Sample.scripted) [] [] 5 false)
                        (Sample.a_task "find cats") in
  Agent._parse
    ("Thought: x" ++ PyStr.nl ++ "Action: Return Final Answer Tool" ++ PyStr.nl
     ++ "Action Input:   " ++ PyStr.dq ++ "42" ++ PyStr.dq ++ "  ") w
  = (inr ("Return Final Answer Tool", "42"), w)
  /\ Agent._parse
       ("Thought: x" ++ PyStr.nl ++ "Action: [Search]" ++ PyStr.nl
        ++ "Action Input: " ++ Sample.cats) w
     = (inr ("Search", Sample.cats), w).
Proof.
  intros w. split.
  - exact (proj1 (action_text_parses_back Sample.scripted w
                    ("Thought: x" ++ PyStr.nl) "Return Final Answer Tool"
                    ("  " ++ PyStr.dq ++ "42" ++ PyStr.dq ++ "  ")
                    eq_refl eq_refl eq_refl eq_refl)
             ltac:(intros H; discriminate H)).
  - exact (proj2 (action_text_parses_back Sample.scripted w
                    ("Thought: x" ++ PyStr.nl) "Search" Sample.cats
                    eq_refl eq_refl eq_refl eq_refl)).
Defined.

(** X16.  The texts the parser accepts are exactly those that have
    [Action: ], with its space, and somewhere after it [Action Input:]:
    for these it returns a pair and leaves the state as it was, whatever
    stands before, between and after the two; for every other text it
    returns nothing. *)
Theorem parser_accepts_exactly_the_marked_texts :
  forall (L : LLM) (w : Agent.world L) (generated : string),
    (exists tool tool_input : string,
        Agent._parse generated w = (inr (tool, tool_input), w))
    <-> exists a b c : string,
          generated = a ++ "Action: " ++ b ++ "Action Input:" ++ c.
Proof.
  intros L w generated. rewrite <- ActionFacts.parsed_iff. split.
  - intros (tool & tool_input & H) Hnone.
    rewrite (ParseFacts.parse_unmatched w generated Hnone) in H. discriminate H.
  - intros H. destruct (Agent.parsed generated) as [[tool tool_input]|] eqn:E.
    + exists tool, tool_input. exact (ParseFacts.parse_matched w _ _ _ E).
    + exfalso. apply H. reflexivity.
Qed.

(** ** The catalogue *)

Module CatalogueFacts.

Import PyStr Agent.

Lemma fold_keeps (key : string) (after : list BaseTool) (found : option BaseTool) :
  (forall tool : BaseTool, In tool after -> name tool <> key) ->
  fold_left (fun found tool => if String.eqb (name tool) key then Some tool else found)
    after found
  = found.
Proof.
  revert found. induction after as [|t after IH]; intros found H; [reflexivity|].
  cbn. destruct (String.eqb (name t) key) eqn:E.
  - apply String.eqb_eq in E. exfalso. exact (H t (or_introl eq_refl) E).
  - apply IH. intros tool Hin. apply H. right. exact Hin.
Qed.

Lemma lookup_last {L : LLM} (a : t L) (before : list BaseTool) (tool : BaseTool)
    (after : list BaseTool) :
  tools a = (before ++ tool :: after)%list ->
  (forall other : BaseTool, In other after -> name other <> name tool) ->
  tool_by_names a (name tool) = Some tool.
Proof.
  intros Htools Hafter. unfold tool_by_names. rewrite Htools, fold_left_app.
  cbn [fold_left]. rewrite String.eqb_refl. apply fold_keeps. exact Hafter.
Qed.

Lemma startswith_app (x rest : string) : startswith x (x ++ rest) = true.
Proof.
  induction x as [|c x IH]; [destruct rest; reflexivity|].
  cbn. rewrite Ascii.eqb_refl. exact IH.
Qed.

Lemma startswith_refl (x : string) : startswith x x = true.
Proof.
  induction x as [|c x IH]; [reflexivity|]. cbn. rewrite Ascii.eqb_refl. exact IH.
Qed.

Lemma contains_join (sep x : string) (l : list string) :
  In x l -> contains x (join sep l) = true.
Proof.
  induction l as [|y l IH]; intros Hin; [destruct Hin|].
  destruct l as [|z l].
  - destruct Hin as [->|[]]. apply SreFacts.contains_startswith.
    apply startswith_refl.
  - change (join sep (y :: z :: l)) with (y ++ sep ++ join sep (z :: l)).
    destruct Hin as [->|Hin].
    + apply SreFacts.contains_startswith. apply startswith_app.
    + apply ActionFacts.contains_app_r. apply ActionFacts.contains_app_r.
      exact (IH Hin).
Qed.

End CatalogueFacts.

(** X1.  The tool the constructor appends is the one found under its
    name.  When the list given has no tool of the final-answer class, the
    dictionary of the new agent holds the appended tool under its name,
    whatever the list holds: a tool of the list that has the same name is
    no longer found. *)
Theorem appended_tool_is_found_under_its_name :
  forall (L : LLM) (ReturnFinalAnswerTool : BaseTool) (llm : llm_state)
         (tools : list BaseTool) (prompt_template : string) (max_loops : Z)
         (stop_pattern : list string) (verbose debug : bool),
    existsb is_final_answer tools = false ->
    Agent.tool_by_names
      (Agent.__init__ ReturnFinalAnswerTool llm tools prompt_template max_loops
         stop_pattern verbose debug)
      (name ReturnFinalAnswerTool)
    = Some ReturnFinalAnswerTool.
Proof.
  intros L rfat llm tools pt ml sp v d Hnone.
  apply (CatalogueFacts.lookup_last _ tools rfat []).
  - cbn. rewrite Hnone. reflexivity.
  - intros other [].
Qed.

Lemma appended_tool_is_found_under_its_name_witness :
  Agent.tool_by_names
    (Sample.agent (L := Sample.scripted) [] [Sample.Impostor; Sample.Search] 5 false)
    "Return Final Answer Tool"
  = Some Sample.ReturnFinalAnswerTool.
Proof.
  exact (appended_tool_is_found_under_its_name Sample.scripted
           Sample.ReturnFinalAnswerTool [] [Sample.Impostor; Sample.Search]
           Agent.PROMPT_TEMPLATE 5 Agent.default_stop_pattern false false eq_refl).
Defined.

(** X2.  The two texts of the catalogue that go into the prompt name every
    tool: the name of each tool of the agent is in [tool_names], and its
    line, made of its name, its description and how to run it, is in
    [tool_description]. *)
Theorem catalogue_texts_have_every_tool :
  forall (L : LLM) (a : Agent.t L) (tool : BaseTool),
    In tool (Agent.tools a) ->
    PyStr.contains (name tool) (Agent.tool_names a) = true
    /\ PyStr.contains
         (name tool ++ ": " ++ description tool ++ ". how to run: "
          ++ _describe_run tool)
         (Agent.tool_description a) = true.
Proof.
  intros L a tool Hin. split.
  - apply CatalogueFacts.contains_join. apply in_map. exact Hin.
  - apply CatalogueFacts.contains_join.
    exact (in_map (fun tool => name tool ++ ": " ++ description tool
                               ++ ". how to run: " ++ _describe_run tool)
             _ _ Hin).
Qed.

Lemma catalogue_texts_have_every_tool_witness :
  let a := Sample.agent (L := Sample.scripted) [] [Sample.Search] 5 false in
  PyStr.contains "Search" (Agent.tool_names a) = true
  /\ PyStr.contains "Search: searches the web. how to run: run(q)"
       (Agent.tool_description a) = true.
Proof.
  intros a.
  exact (catalogue_texts_have_every_tool Sample.scripted a Sample.Search
           (or_introl eq_refl)).
Defined.

(** X3.  The dictionary of the tools keeps one tool per name, the last of
    the list: a tool after which the list has no tool of the same name is
    the one found under its name, also when the list has tools of that
    name before it.  So when the names of the list are all different, every
    tool is found under its own name. *)
Theorem dictionary_keeps_the_last_tool_of_a_name :
  forall (L : LLM) (a : Agent.t L) (before : list BaseTool) (tool : BaseTool)
         (after : list BaseTool),
    Agent.tools a = (before ++ tool :: after)%list ->
    (forall other : BaseTool, In other after -> name other <> name tool) ->
    Agent.tool_by_names a (name tool) = Some tool.
Proof.
  intros L a before tool after. apply CatalogueFacts.lookup_last.
Qed.

Lemma dictionary_keeps_the_last_tool_of_a_name_witness :
  let a := Sample.agent (L := Sample.scripted) []
             [Sample.Impostor; Sample.BrokenFinal; Sample.Search] 5 false in
  Agent.tools a = [Sample.Impostor; Sample.BrokenFinal; Sample.Search]
  /\ name Sample.Impostor = name Sample.BrokenFinal
  /\ Agent.tool_by_names a "Return Final Answer Tool" = Some Sample.BrokenFinal.
Proof.
  intros a. split; [reflexivity|]. split; [reflexivity|].
  apply (dictionary_keeps_the_last_tool_of_a_name Sample.scripted a
           [Sample.Impostor] Sample.BrokenFinal [Sample.Search] eq_refl).
  intros other [<-|[]] H. discriminate H.
Defined.

(** ** The default prompt *)

Module PromptFacts.

Import PyStr Fmt.

Section Prompt.

Context {R : Runtime}.

(** A literal stretch, then a replacement field or a text without
    braces. *)
Lemma scan_then (kw : kwargs) (lit lit' u u' rest : string) :
  scan kw Text lit = inr lit' ->
  (forall s : string, scan kw Text (u ++ s) = app_out (inr u') (scan kw Text s)) ->
  scan kw Text (lit ++ u ++ rest) = app_out (inr (lit' ++ u')) (scan kw Text rest).
Proof.
  intros Hlit Hu.
  rewrite (FmtFacts.scan_app kw Text lit lit' _ Hlit), Hu.
  apply FmtFacts.app_out_assoc.
Qed.

(** The literal stretches of the head of the default template. *)
Lemma head_split :
  let T := Agent.TEMPLATE_HEAD in
  T = substring 0 9 T ++ "{today}"
      ++ substring 16 124 T ++ "{tool_description}"
      ++ substring 158 115 T ++ "{tool_names}"
      ++ substring 285 280 T ++ "{tool_names}"
      ++ substring 577 382 T ++ "{tool_names}"
      ++ substring 971 314 T.
Proof. vm_compute. reflexivity. Qed.

(** The head of the default template after the first format, and what the
    format of a turn makes of it. *)
Lemma head_twice (d td tn g : string) :
  Agent.brace_free d = true ->
  Agent.brace_free td = true ->
  Agent.brace_free tn = true ->
  exists head1 head2 : string,
    scan [("today", PDate d); ("tool_description", PStr td);
          ("tool_names", PStr tn); ("goal", PStr g);
          ("previous_responses", PStr "{previous_responses}")]
      Text Agent.TEMPLATE_HEAD = inr head1
    /\ forall (kw : kwargs) (s : string),
         scan kw Text (head1 ++ s) = app_out (inr head2) (scan kw Text s).
Proof.
  intros Hd Htd Htn.
  set (kw1 := [("today", PDate d); ("tool_description", PStr td);
               ("tool_names", PStr tn); ("goal", PStr g);
               ("previous_responses", PStr "{previous_responses}")]).
  set (once := fun s : string =>
                 match scan [] Text s with inr x => x | inl _ => EmptyString end).
  pose proof head_split as HT. cbv zeta in HT.
  set (S1 := substring 0 9 Agent.TEMPLATE_HEAD) in HT.
  set (S2 := substring 16 124 Agent.TEMPLATE_HEAD) in HT.
  set (S3 := substring 158 115 Agent.TEMPLATE_HEAD) in HT.
  set (S4 := substring 285 280 Agent.TEMPLATE_HEAD) in HT.
  set (S5 := substring 577 382 Agent.TEMPLATE_HEAD) in HT.
  set (S6 := substring 971 314 Agent.TEMPLATE_HEAD) in HT.
  exists ((once S1 ++ d) ++ (once S2 ++ td) ++ (once S3 ++ tn)
          ++ (once S4 ++ tn) ++ (once S5 ++ tn) ++ once S6),
         ((once (once S1) ++ d) ++ (once (once S2) ++ td) ++ (once (once S3) ++ tn)
          ++ (once (once S4) ++ tn) ++ (once (once S5) ++ tn) ++ once (once S6)).
  split.
  - rewrite HT.
    rewrite (scan_then kw1 S1 (once S1) "{today}" d);
      [|vm_compute; reflexivity|intros s; reflexivity].
    rewrite (scan_then kw1 S2 (once S2) "{tool_description}" td);
      [|vm_compute; reflexivity|intros s; reflexivity].
    rewrite (scan_then kw1 S3 (once S3) "{tool_names}" tn);
      [|vm_compute; reflexivity|intros s; reflexivity].
    rewrite (scan_then kw1 S4 (once S4) "{tool_names}" tn);
      [|vm_compute; reflexivity|intros s; reflexivity].
    rewrite (scan_then kw1 S5 (once S5) "{tool_names}" tn);
      [|vm_compute; reflexivity|intros s; reflexivity].
    replace (scan kw1 Text S6) with (@inr exn string (once S6))
      by (vm_compute; reflexivity).
    reflexivity.
  - intros kw s. rewrite !FmtFacts.append_assoc.
    rewrite (scan_then kw (once S1) (once (once S1)) d d);
      [|vm_compute; reflexivity|intros s'; apply FmtFacts.scan_text_free; exact Hd].
    rewrite (scan_then kw (once S2) (once (once S2)) td td);
      [|vm_compute; reflexivity|intros s'; apply FmtFacts.scan_text_free; exact Htd].
    rewrite (scan_then kw (once S3) (once (once S3)) tn tn);
      [|vm_compute; reflexivity|intros s'; apply FmtFacts.scan_text_free; exact Htn].
    rewrite (scan_then kw (once S4) (once (once S4)) tn tn);
      [|vm_compute; reflexivity|intros s'; apply FmtFacts.scan_text_free; exact Htn].
    rewrite (scan_then kw (once S5) (once (once S5)) tn tn);
      [|vm_compute; reflexivity|intros s'; apply FmtFacts.scan_text_free; exact Htn].
    rewrite (FmtFacts.scan_app kw Text (once S6) (once (once S6)) s);
      [|vm_compute; reflexivity].
    rewrite !FmtFacts.app_out_assoc, !FmtFacts.append_assoc. reflexivity.
Qed.

End Prompt.

End PromptFacts.

(** X5.  The default template renders for texts without braces, and the
    prompt of a turn ends with the responses so far.  When the date, the
    two texts of the catalogue and the goal have no brace, the first format
    succeeds, and the format of every turn succeeds too: what it gives ends
    with the goal, the line [First Thought:], and the previous responses,
    joined by newlines and without whitespace at the ends, as they are;
    what stands before the goal is the same at every turn. *)
Theorem default_prompt_ends_with_the_responses :
  forall (L : LLM) (R : Runtime) (w : Agent.world L),
    Agent.prompt_template (Agent.self w) = Agent.PROMPT_TEMPLATE ->
    Agent.brace_free today = true ->
    Agent.brace_free (Agent.tool_description (Agent.self w)) = true ->
    Agent.brace_free (Agent.tool_names (Agent.self w)) = true ->
    Agent.brace_free (goal (Agent.task w)) = true ->
    exists prompt head : string,
      Agent.first_prompt (Agent.self w) (Agent.task w) = inr prompt
      /\ forall previous_responses : list string,
           Agent.fill prompt previous_responses
           = inr (head ++ PyStr.nl ++ goal (Agent.task w) ++ PyStr.nl ++ PyStr.nl
                  ++ "First Thought:" ++ PyStr.nl
                  ++ PyStr.strip (PyStr.join PyStr.nl previous_responses)
                  ++ PyStr.nl).
Proof.
  intros L R w Htemplate Hd Htd Htn Hg.
  destruct (PromptFacts.head_twice today (Agent.tool_description (Agent.self w))
              (Agent.tool_names (Agent.self w)) (goal (Agent.task w)) Hd Htd Htn)
    as (head1 & head2 & Hfirst & Hturn).
  exists (head1 ++ Agent.prompt_end (goal (Agent.task w))), head2. split.
  - unfold Agent.first_prompt, Fmt.format.
    rewrite Htemplate, FmtFacts.template_split.
    rewrite (FmtFacts.scan_app _ _ _ head1 _ Hfirst).
    generalize (goal (Agent.task w)), (Agent.tool_description (Agent.self w)),
      (Agent.tool_names (Agent.self w)), (@today R).
    intros g td tn d. vm_compute. reflexivity.
  - intros previous_responses. unfold Agent.fill, Fmt.format.
    generalize (PyStr.strip (PyStr.join PyStr.nl previous_responses)).
    intros v. rewrite Hturn. unfold Agent.prompt_end.
    rewrite (PromptFacts.scan_then _ PyStr.nl PyStr.nl
               (goal (Agent.task w)) (goal (Agent.task w)));
      [|reflexivity|intros s; apply FmtFacts.scan_text_free; exact Hg].
    rewrite FmtFacts.app_out_assoc.
    replace (Fmt.scan [("previous_responses", PStr v)] Fmt.Text
               (PyStr.nl ++ PyStr.nl ++ "First Thought:" ++ PyStr.nl
                ++ "{previous_responses}" ++ PyStr.nl))
      with (@inr exn string
              (PyStr.nl ++ PyStr.nl ++ "First Thought:" ++ PyStr.nl ++ v ++ PyStr.nl))
      by (vm_compute; reflexivity).
    cbn [Fmt.app_out]. rewrite !FmtFacts.append_assoc. reflexivity.
Qed.

Lemma default_prompt_ends_with_the_responses_witness :
  let w := Sample.start
             (Sample.agent (L := Sample.scripted) [] [Sample.Search] 5 false)
             (Sample.a_task "find cats") in
  exists prompt head : string,
    Agent.first_prompt (R := Sample.runtime) (Agent.self w) (Agent.task w)
    = inr prompt
    /\ forall previous_responses : list string,
         Agent.fill (R := Sample.runtime) prompt previous_responses
         = inr (head ++ PyStr.nl ++ "find cats" ++ PyStr.nl ++ PyStr.nl
                ++ "First Thought:" ++ PyStr.nl
                ++ PyStr.strip (PyStr.join PyStr.nl previous_responses)
                ++ PyStr.nl).
Proof.
  intros w.
  exact (default_prompt_ends_with_the_responses Sample.scripted Sample.runtime w
           eq_refl eq_refl eq_refl eq_refl eq_refl).
Defined.

(** X14.  A run goes on from the responses the agent remembers.  When the
    template renders and the run has a turn to make, the first call it
    makes is a call of the model, and the prompt of that call is the prompt
    of the run filled with all the responses remembered by the agent before
    the run, those of earlier runs included. *)
Theorem run_first_asks_with_the_remembered_responses :
  forall (L : LLM) (R : Runtime) (w : Agent.world L) (prompt curr_prompt : string),
    Agent.first_prompt (Agent.self w) (Agent.task w) = inr prompt ->
    Agent.fill prompt (Agent.ai_responses (Agent.self w)) = inr curr_prompt ->
    (0 < Agent.max_loops (Agent.self w))%Z ->
    exists more : list Agent.event,
      Agent.calls (snd (Agent.run w))
      = (Agent.calls w
         ++ Agent.Generated (Agent.user curr_prompt)
              (Agent.stop_pattern (Agent.self w)) :: more)%list.
Proof.
  intros L R w prompt cp Hfirst Hfill Hbudget.
  rewrite (RunFacts.run_rendered w prompt Hfirst).
  destruct (Z.to_nat (Agent.max_loops (Agent.self w))) as [|turns] eqn:Hturns;
    [lia|].
  cbn [Agent.loop]. unfold Agent.bind at 1.
  destruct (RunCases.turn_asks w prompt _ cp Hfill) as [more Hasks].
  destruct (Agent.turn prompt (Agent.ai_responses (Agent.self w)) w)
    as [[e|[prev' [r|]]] w1]; cbn [snd] in Hasks |- *;
    try (exists more; exact Hasks).
  assert (Hgrown : Agent.grown w1 (snd (Agent.loop turns prompt prev' w1))).
  { apply RunCases.loop_steps.
    - apply RunCases.grown_refl.
    - apply RunCases.grown_trans.
    - intros p prev w0. apply RunCases.turn_grown. }
  destruct Hgrown as (_ & _ & [later Hlater]).
  exists (more ++ later)%list. rewrite Hlater, Hasks, <- app_assoc. reflexivity.
Qed.

Lemma run_first_asks_with_the_remembered_responses_witness :
  let reply := Sample.action "Search" Sample.cats in
  let w := Sample.start
             (Sample.agent (L := Sample.constant reply) tt [Sample.Search] 2 false)
             (Sample.a_task "find cats") in
  exists (curr_prompt : string) (more : list Agent.event),
    Agent.fill (R := Sample.runtime)
      (match Agent.first_prompt (R := Sample.runtime) (Agent.self w) (Agent.task w)
       with inr prompt => prompt | inl _ => EmptyString end)
      (Agent.ai_responses (Agent.self w)) = inr curr_prompt
    /\ Agent.calls (snd (Agent.run (R := Sample.runtime) w))
       = (Agent.calls w
          ++ Agent.Generated (Agent.user curr_prompt)
               (Agent.stop_pattern (Agent.self w)) :: more)%list.
Proof.
  intros reply w.
  destruct (Agent.first_prompt (R := Sample.runtime) (Agent.self w) (Agent.task w))
    as [e|prompt] eqn:Hfirst.
  { vm_compute in Hfirst. discriminate Hfirst. }
  destruct (Agent.fill (R := Sample.runtime) prompt (Agent.ai_responses (Agent.self w)))
    as [e|cp] eqn:Hfill.
  { vm_compute in Hfirst. injection Hfirst as <-.
    vm_compute in Hfill. discriminate Hfill. }
  destruct (run_first_asks_with_the_remembered_responses
              (Sample.constant reply) Sample.runtime w prompt cp Hfirst Hfill eq_refl)
    as [more Hmore].
  exists cp, more. split; [reflexivity|exact Hmore].
Defined.

(** X17.  Debug mode fails fast.  In debug mode a run that returns, with
    a text or with nothing, has logged no error; a run that raises has
    logged at most one, in the turn that raised.  So every error logged in
    debug mode ends the run. *)
Theorem debug_run_logs_only_to_raise :
  forall (L : LLM) (R : Runtime) (w : Agent.world L),
    Agent.debug (Agent.self w) = true ->
    match Agent.run w with
    | (inr _, w') =>
        Agent.errors_encountered (Agent.self w')
        = Agent.errors_encountered (Agent.self w)
    | (inl _, w') =>
        exists es : list exn,
          Agent.errors_encountered (Agent.self w')
          = (Agent.errors_encountered (Agent.self w) ++ es)%list
          /\ (length es <= 1)%nat
    end.
Proof.
  intros L R w Hdebug.
  destruct (Agent.first_prompt (Agent.self w) (Agent.task w)) as [e|prompt] eqn:Hfirst.
  - rewrite (RunFacts.run_unrendered w e Hfirst).
    exists []. rewrite app_nil_r. split; [reflexivity|cbn; lia].
  - rewrite (RunFacts.run_rendered w prompt Hfirst).
    exact (RunCases.loop_debug_log _ prompt _ w Hdebug).
Qed.

Lemma debug_run_logs_only_to_raise_witness :
  let reply := Sample.action "Broken" Sample.cats in
  let w := Sample.start
             (Sample.agent (L := Sample.constant reply) tt [Sample.Broken] 3 true)
             (Sample.a_task "find cats") in
  exists (e : exn) (w' : Agent.world (Sample.constant reply)) (es : list exn),
    Agent.run (R := Sample.runtime) w = (inl e, w')
    /\ Agent.errors_encountered (Agent.self w')
       = (Agent.errors_encountered (Agent.self w) ++ es)%list
    /\ (length es <= 1)%nat.
Proof.
  intros reply w.
  pose proof (debug_run_logs_only_to_raise (Sample.constant reply) Sample.runtime w
                eq_refl) as H.
  destruct (Agent.run (R := Sample.runtime) w) as [[e|x] w'] eqn:Hrun.
  - destruct H as [es [Hes Hlen]]. exists e, w', es.
    split; [reflexivity|]. split; assumption.
  - vm_compute in Hrun. discriminate Hrun.
Defined.

(** * The claims on the two [try] blocks and on the end of a run *)

(** C6.  What the loop does with a call of a tool that raises an exception
    [e] of the class [Exception], whether the input was decoded or is the
    text that did not decode.  In debug mode the exception is logged and the
    run raises [ValueError("Error from tool: " + str(e))]; nothing is
    remembered and the task is as it was.  Outside debug mode the exception
    is logged, the observation is ["Error from tool: " + str(e)], and the
    reply with that observation is added to the responses; then, when the
    name of the tool is not [Return Final Answer Tool], the loop goes on with
    the turns it has left, but when it is that name the loop does not go on:
    the run returns the error text as its answer and the task is completed
    with it. *)
Theorem C6_failing_tool_is_observed_or_ends_the_run :
  forall (L : LLM) (R : Runtime) (w : Agent.world L) (turns : nat) (prompt : string)
         (previous_responses : list string) (curr_prompt tool tool_input : string)
         (the_tool : BaseTool) (e : raised),
    Agent.fill prompt previous_responses = inr curr_prompt ->
    Agent.parsed (Agent.reply w curr_prompt) = Some (tool, tool_input) ->
    Agent.tool_by_names (Agent.self w) tool = Some the_tool ->
    match json_loads (Agent.remove_control tool_input) with
    | inr _ => True
    | inl x => Agent.debug (Agent.self w) = false /\ Agent.decoding_error x <> None
    end ->
    Agent.apply_tool the_tool (Agent.kept_input tool_input) = inl e ->
    is_exception e = true ->
    let observation := "Error from tool: " ++ exc_str e in
    let generated := Agent.observed (Agent.reply w curr_prompt) observation in
    if Agent.debug (Agent.self w)
    then exists w' : Agent.world L,
           Agent.loop (S turns) prompt previous_responses w
           = (inl (ValueError observation), w')
           /\ Agent.errors_encountered (Agent.self w')
              = (Agent.errors_encountered (Agent.self w) ++ [Raised e])%list
           /\ Agent.ai_responses (Agent.self w') = Agent.ai_responses (Agent.self w)
           /\ Agent.task w' = Agent.task w
    else let w' := Agent.after_turn w curr_prompt tool tool_input the_tool in
         Agent.errors_encountered (Agent.self w')
         = (Agent.errors_encountered (Agent.self w)
            ++ match json_loads (Agent.remove_control tool_input) with
               | inl (JSONDecodeError msg) => [JSONDecodeError msg]
               | _ => []
               end ++ [Raised e])%list
         /\ Agent.ai_responses (Agent.self w')
            = (Agent.ai_responses (Agent.self w) ++ [PyStr.strip generated])%list
         /\ Agent.turn prompt previous_responses w
            = (inr ((previous_responses ++ [generated])%list,
                    if String.eqb tool Agent.FINAL_ANSWER
                    then Some observation else None), w')
         /\ (tool <> Agent.FINAL_ANSWER ->
             Agent.task w' = Agent.task w
             /\ Agent.loop (S turns) prompt previous_responses w
                = Agent.loop turns prompt (previous_responses ++ [generated])%list w')
         /\ (tool = Agent.FINAL_ANSWER ->
             Agent.task w' = Agent.completed_with (Agent.task w) observation
             /\ Agent.loop (S turns) prompt previous_responses w
                = (inr (Some observation), w')).
Proof.
  intros L R w turns prompt prev cp tool raw t e Hfill Hparsed Htool Hdec Hcall He
         observation generated.
  destruct (Agent.debug (Agent.self w)) eqn:Hdebug.
  - destruct (json_loads (Agent.remove_control raw)) as [x|v] eqn:Hjson;
      [destruct Hdec as [Hd _]; discriminate Hd|].
    unfold Agent.kept_input in Hcall. rewrite Hjson in Hcall.
    pose proof (TurnFacts.load_input_decoded (Agent.asked w cp) raw v Hjson) as Hload.
    pose proof (TurnFacts.dispatch_raised (Agent.asked w cp) t v e Hcall He) as Hdisp.
    change (Agent.debug (Agent.self (Agent.asked w cp)))
      with (Agent.debug (Agent.self w)) in Hdisp.
    rewrite Hdebug in Hdisp.
    eexists. split.
    + cbn [Agent.loop]. unfold Agent.bind at 1.
      rewrite (TurnFacts.turn_dispatch_raises w _ _ prompt prev cp tool raw t v _
                 Hfill Hparsed Htool Hload Hdisp).
      reflexivity.
    + cbn [Agent.self Agent.task Agent.errors_encountered Agent.ai_responses
           Agent.with_error].
      rewrite TurnFacts.invoked_self, TurnFacts.invoked_task.
      repeat split; reflexivity.
  - assert (Hgo : Agent.goes_through (Agent.debug (Agent.self w)) t raw = true).
    { unfold Agent.goes_through. rewrite Hcall, He, Hdebug.
      destruct (json_loads (Agent.remove_control raw)) as [x|v]; [|reflexivity].
      destruct Hdec as [_ Hx]. destruct x; try (exfalso; apply Hx; reflexivity).
      reflexivity. }
    pose proof (RunCases.turn_through w prompt prev cp tool raw t
                  Hfill Hparsed Htool Hgo) as Hturn.
    destruct (RunCases.after_turn_holds w cp tool raw t)
      as (Herrors & Hresponses & Htask & _).
    unfold Agent.logged in Herrors. unfold Agent.kept_result in *.
    rewrite Hcall in *. cbv zeta in *. fold observation in Hturn, Hresponses, Htask.
    fold generated in Hturn, Hresponses.
    split; [exact Herrors|]. split; [exact Hresponses|]. split; [exact Hturn|].
    split.
    + intros Hname. apply String.eqb_neq in Hname. rewrite Hname in Hturn, Htask.
      split; [exact Htask|].
      cbn [Agent.loop]. unfold Agent.bind at 1. rewrite Hturn. reflexivity.
    + intros Hname. subst tool. rewrite String.eqb_refl in Hturn, Htask.
      split; [exact Htask|].
      cbn [Agent.loop]. unfold Agent.bind at 1. rewrite Hturn. reflexivity.
Qed.

Lemma C6_failing_tool_is_observed_or_ends_the_run_witness :
  let reply := Sample.action "Return Final Answer Tool" Sample.cats in
  let failure := {| exc_class := "ValueError"; exc_str := "bad param";
                    is_exception := true |} in
  let w := Sample.start
             (Sample.agent (L := Sample.constant reply) tt [Sample.BrokenFinal] 3 false)
             (Sample.a_task "find cats") in
  exists w' : Agent.world (Sample.constant reply),
    Agent.run (R := Sample.runtime) w
    = (inr (Some "Error from tool: bad param"), w')
    /\ Agent.task w'
       = {| goal := "find cats"; raw_output := Some "Error from tool: bad param";
            completed := true |}
    /\ Agent.errors_encountered (Agent.self w') = [Raised failure].
Proof.
  intros reply failure w.
  destruct (Agent.first_prompt (R := Sample.runtime) (Agent.self w) (Agent.task w))
    as [e|prompt] eqn:Hfirst.
  { vm_compute in Hfirst. discriminate Hfirst. }
  destruct (Agent.fill (R := Sample.runtime) prompt []) as [e|cp] eqn:Hfill.
  { vm_compute in Hfirst. injection Hfirst as <-.
    vm_compute in Hfill. discriminate Hfill. }
  pose proof (C6_failing_tool_is_observed_or_ends_the_run
                (Sample.constant reply) Sample.runtime w 2 prompt [] cp
                "Return Final Answer Tool" Sample.cats Sample.BrokenFinal failure
                Hfill eq_refl eq_refl I eq_refl eq_refl) as H.
  cbv zeta in H.
  change (Agent.debug (Agent.self w)) with false in H. cbv iota in H.
  destruct H as (Herrors & _ & _ & _ & Hfinal).
  destruct (Hfinal eq_refl) as [Htask Hloop].
  eexists. split; [|split; [exact Htask|exact Herrors]].
  rewrite (RunFacts.run_rendered w prompt Hfirst). exact Hloop.
Defined.








(** C9, as stated: in debug mode a tool of the catalogue whose name is the
    literal [Return Final Answer Tool] raises when it is called.  The run
    does not end through the final-answer path: it raises [ValueError], and
    the task is neither completed nor given an output. *)
Lemma C9_named_tool_raises_in_debug_mode :
  let reply := Sample.action "Return Final Answer Tool" Sample.cats in
  let w := Sample.start
             (Sample.agent (L := Sample.constant reply) tt [Sample.BrokenFinal] 3 true)
             (Sample.a_task "find cats") in
  let result := Agent.run (R := Sample.runtime) w in
  Agent.parsed reply = Some ("Return Final Answer Tool", Sample.cats)
  /\ Agent.tool_by_names (Agent.self w) "Return Final Answer Tool"
     = Some Sample.BrokenFinal
  /\ fst result = inl (ValueError "Error from tool: bad param")
  /\ Agent.task (snd result) = Sample.a_task "find cats".
Proof. vm_compute. repeat split. Qed.

(** C9, amended.  The loop ends a run through the final-answer path by the
    parsed name alone; the class of the tool is not read.

    - Every turn: one that raises leaves the task as it was; one that goes
      through has parsed the name of a tool of the dictionary, and it
      returns a text and completes the task with it exactly when that name
      is [Return Final Answer Tool].
    - A model that never gives that name never ends a run through this
      path, whatever the classes of the tools: the run returns no text and
      the task is as it was.
    - A turn that parses that name, with a tool under it in the dictionary
      of whatever class: when it goes through, the loop returns the tool
      result at once and the task is completed with it; when it does not,
      the loop raises and the task is as it was.
    - The turn goes through exactly when the decoder returns, or fails with
      a [JSONDecodeError] outside debug mode, and the call returns, or
      raises an [Exception] outside debug mode. *)
Theorem C9_final_answer_is_by_name :
  forall (L : LLM) (R : Runtime) (w : Agent.world L),
    (forall (prompt : string) (previous_responses : list string),
        match Agent.turn prompt previous_responses w with
        | (inl _, w') => Agent.task w' = Agent.task w
        | (inr (_, returned), w') =>
            exists (curr_prompt tool tool_input : string) (the_tool : BaseTool),
              Agent.fill prompt previous_responses = inr curr_prompt
              /\ Agent.parsed (Agent.reply w curr_prompt) = Some (tool, tool_input)
              /\ Agent.tool_by_names (Agent.self w) tool = Some the_tool
              /\ name the_tool = tool
              /\ if String.eqb tool "Return Final Answer Tool"
                 then exists tool_result : string,
                     returned = Some tool_result
                     /\ Agent.task w' = {| goal := goal (Agent.task w);
                                           raw_output := Some tool_result;
                                           completed := true |}
                 else returned = None /\ Agent.task w' = Agent.task w
        end)
    /\ (Agent.never_names_final (Agent.self w) ->
        (forall tool_result : string, fst (Agent.run w) <> inr (Some tool_result))
        /\ Agent.task (snd (Agent.run w)) = Agent.task w)
    /\ (forall (turns : nat) (prompt : string) (previous_responses : list string)
               (curr_prompt tool_input : string) (the_tool : BaseTool),
           Agent.fill prompt previous_responses = inr curr_prompt ->
           Agent.parsed (Agent.reply w curr_prompt)
           = Some ("Return Final Answer Tool", tool_input) ->
           Agent.tool_by_names (Agent.self w) "Return Final Answer Tool"
           = Some the_tool ->
           let tool_result :=
             Agent.kept_result the_tool (Agent.kept_input tool_input) in
           if Agent.goes_through (Agent.debug (Agent.self w)) the_tool tool_input
           then let w' := Agent.after_turn w curr_prompt "Return Final Answer Tool"
                            tool_input the_tool in
                Agent.loop (S turns) prompt previous_responses w
                = (inr (Some tool_result), w')
                /\ Agent.task w' = {| goal := goal (Agent.task w);
                                      raw_output := Some tool_result;
                                      completed := true |}
           else exists (e : exn) (w' : Agent.world L),
                  Agent.loop (S turns) prompt previous_responses w = (inl e, w')
                  /\ Agent.task w' = Agent.task w)
    /\ (forall (the_tool : BaseTool) (tool_input : string),
           Agent.goes_through (Agent.debug (Agent.self w)) the_tool tool_input = true
           <-> (match json_loads (Agent.remove_control tool_input) with
                | inr _ => True
                | inl x => Agent.debug (Agent.self w) = false
                           /\ Agent.decoding_error x <> None
                end
                /\ match Agent.apply_tool the_tool (Agent.kept_input tool_input) with
                   | inr _ => True
                   | inl e => Agent.debug (Agent.self w) = false
                              /\ is_exception e = true
                   end)).
Proof.
  intros L R w. split; [|split; [|split]].
  - intros prompt prev.
    pose proof (RunCases.turn_task w prompt prev) as Htask.
    pose proof (TurnCases.turn_cases w prompt prev) as Hcases.
    destruct (Agent.turn prompt prev w) as [[e|[prev' returned]] w'];
      [destruct e; exact Htask|].
    inversion Hcases; subst.
    exists curr_prompt, tool, tool_input, the_tool.
    destruct (TurnFacts.tool_by_names_Some _ _ _ ltac:(eassumption)) as [Hname _].
    repeat (split; [assumption|]).
    change "Return Final Answer Tool" with Agent.FINAL_ANSWER.
    destruct (String.eqb tool Agent.FINAL_ANSWER).
    + exists tool_result. split; [reflexivity|exact Htask].
    + split; [reflexivity|exact Htask].
  - intros Hmodel.
    assert (Hnever : forall tool_result : string,
               fst (Agent.run w) <> inr (Some tool_result)).
    { intros r Hrun.
      destruct (Agent.first_prompt (Agent.self w) (Agent.task w))
        as [e|prompt] eqn:Hfirst.
      - rewrite (RunFacts.run_unrendered w e Hfirst) in Hrun. discriminate Hrun.
      - rewrite (RunFacts.run_rendered w prompt Hfirst) in Hrun.
        destruct (Agent.loop _ prompt _ w) as [out w'] eqn:Hloop. cbn in Hrun.
        subst out. exact (RunCases.loop_never_named _ _ _ w Hmodel _ _ Hloop). }
    split; [exact Hnever|].
    pose proof (RunCases.run_task w) as Htask.
    destruct (Agent.run w) as [[e|[r|]] w']; cbn in *; try exact Htask.
    exfalso. exact (Hnever r eq_refl).
  - intros turns prompt prev cp raw t Hfill Hparsed Htool r.
    destruct (Agent.goes_through (Agent.debug (Agent.self w)) t raw) eqn:Hgo.
    + pose proof (RunCases.turn_through w prompt prev cp _ raw t
                    Hfill Hparsed Htool Hgo) as Hturn.
      destruct (RunCases.after_turn_holds w cp "Return Final Answer Tool" raw t)
        as (_ & _ & Htask & _).
      cbv zeta in Hturn, Htask. fold r in Hturn, Htask.
      change (String.eqb "Return Final Answer Tool" Agent.FINAL_ANSWER)
        with true in Hturn, Htask.
      split; [|exact Htask].
      cbn [Agent.loop]. unfold Agent.bind at 1. rewrite Hturn. reflexivity.
    + destruct (RunCases.turn_not_through w prompt prev cp _ raw t
                  Hfill Hparsed Htool Hgo) as (e & w' & Hturn & Htask & _).
      exists e, w'. split; [|exact Htask].
      cbn [Agent.loop]. unfold Agent.bind at 1. rewrite Hturn. reflexivity.
  - intros t raw. split; [apply RunCases.goes_through_true|].
    intros [Hdec Hcall]. unfold Agent.goes_through. apply andb_true_iff. split.
    + destruct (json_loads (Agent.remove_control raw)) as [x|v]; [|reflexivity].
      destruct Hdec as [Hd Hx]. rewrite Hd.
      destruct x; try (exfalso; apply Hx; reflexivity). reflexivity.
    + destruct (Agent.apply_tool t (Agent.kept_input raw)) as [e|x]; [|reflexivity].
      destruct Hcall as [Hd He]. rewrite Hd, He. reflexivity.
Qed.

Lemma C9_final_answer_is_by_name_witness :
  let named := Sample.action "Return Final Answer Tool" Sample.cats in
  let other := Sample.action "Done" Sample.answer42 in
  let w := Sample.start
             (Sample.agent (L := Sample.constant named) tt
                [Sample.ReturnFinalAnswerTool; Sample.Impostor] 3 false)
             (Sample.a_task "find cats") in
  let v := Sample.start
             (Sample.agent (L := Sample.constant other) tt [Sample.Renamed] 3 false)
             (Sample.a_task "what is 6 x 7") in
  (is_final_answer Sample.Impostor = false
   /\ exists w' : Agent.world (Sample.constant named),
        Agent.run (R := Sample.runtime) w = (inr (Some "results for cats"), w')
        /\ Agent.task w' = {| goal := "find cats";
                              raw_output := Some "results for cats";
                              completed := true |})
  /\ (is_final_answer Sample.Renamed = true
      /\ Agent.tool_by_names (Agent.self v) "Done" = Some Sample.Renamed
      /\ (forall tool_result : string,
             fst (Agent.run (R := Sample.runtime) v) <> inr (Some tool_result))
      /\ Agent.task (snd (Agent.run (R := Sample.runtime) v)) = Agent.task v).
Proof.
  intros named other w v. split.
  - split; [reflexivity|].
    destruct (Agent.first_prompt (R := Sample.runtime) (Agent.self w) (Agent.task w))
      as [e|prompt] eqn:Hfirst.
    { vm_compute in Hfirst. discriminate Hfirst. }
    destruct (Agent.fill (R := Sample.runtime) prompt []) as [e|cp] eqn:Hfill.
    { vm_compute in Hfirst. injection Hfirst as <-.
      vm_compute in Hfill. discriminate Hfill. }
    destruct (C9_final_answer_is_by_name (Sample.constant named) Sample.runtime w)
      as (_ & _ & H & _).
    specialize (H 2 prompt [] cp Sample.cats Sample.Impostor Hfill eq_refl eq_refl).
    cbv zeta in H.
    change (Agent.goes_through (R := Sample.runtime) (Agent.debug (Agent.self w))
              Sample.Impostor Sample.cats) with true in H.
    cbv iota in H. destruct H as [Hloop Htask].
    eexists. split; [|exact Htask].
    rewrite (RunFacts.run_rendered w prompt Hfirst). exact Hloop.
  - split; [reflexivity|]. split; [reflexivity|].
    destruct (C9_final_answer_is_by_name (Sample.constant other) Sample.runtime v)
      as (_ & H & _).
    apply H. intros st messages tool tool_input Hparsed.
    vm_compute in Hparsed. injection Hparsed as <- _. intros Hname.
    discriminate Hname.
Defined.

(** C5, as stated: outside debug mode the input of the action is an integer
    of 4301 digits.  The decoder fails on it, with the [ValueError] of [int]
    and not with a [JSONDecodeError]: the error is not recorded, the text is
    not kept as the tool input, no call of the tool is attempted, and the
    run raises that error. *)
Lemma C5_long_integer_is_not_caught :
  let reply := Sample.action "Search" (Sample.ones 4301) in
  let w := Sample.start
             (Sample.agent (L := Sample.constant reply) tt [Sample.Search] 3 false)
             (Sample.a_task "find cats") in
  let result := Agent.run (R := Sample.runtime) w in
  let error :=
    ValueError ("Exceeds the limit (4300 digits) for integer string conversion: "
                ++ "value has 4301 digits; use sys.set_int_max_str_digits() "
                ++ "to increase the limit") in
  Agent.parsed reply = Some ("Search", Sample.ones 4301)
  /\ json_loads (Runtime := Sample.runtime) (Agent.remove_control (Sample.ones 4301))
     = inl error
  /\ fst result = inl error
  /\ Agent.errors_encountered (Agent.self (snd result)) = []
  /\ Agent.ai_responses (Agent.self (snd result)) = []
  /\ Agent.invocations (Agent.calls (snd result)) = 0.
Proof. vm_compute. repeat split. Qed.

(** C5, amended.  The control characters are the codes up to 31 and 127.
    The loop removes them from the input wherever they stand and keeps the
    other characters in their order; what is given to the decoder is the
    input without them, so that a decodable text with a control character
    after it or in it decodes to what the text decodes to.  When the decoder
    fails with a [JSONDecodeError], that error is added to the errors of the
    agent; in debug mode the turn raises
    [ValueError("Error parsing JSON: ...")] with nothing else written;
    otherwise the cleaned text stays as the tool input and the call of the
    tool is attempted with it: unpacking a [str] raises a [TypeError], which
    is added to the errors in its turn and becomes the observation, the tool
    itself not being entered.  Any other exception of the decoder is not
    caught: in either mode the turn raises it as it is, after the call of the
    model, and nothing is added to the errors or to the responses. *)
Theorem C5_input_is_cleaned_then_decoded :
  forall (L : LLM) (R : Runtime),
    (forall c : ascii,
        Agent.is_control c = true <-> (PyStr.code c <= 31 \/ PyStr.code c = 127))
    /\ (Agent.remove_control EmptyString = EmptyString
        /\ (forall (c : ascii) (s : string),
               Agent.remove_control (String c s)
               = if Agent.is_control c then Agent.remove_control s
                 else String c (Agent.remove_control s))
        /\ (forall a b : string,
               Agent.remove_control (a ++ b)
               = Agent.remove_control a ++ Agent.remove_control b)
        /\ (forall tool_input : string,
               PyStr.forallb (fun c => negb (Agent.is_control c))
                 (Agent.remove_control tool_input) = true))
    /\ (forall (w : Agent.world L) (tool_input : string) (decoded : pyobj),
           json_loads (Agent.remove_control tool_input) = inr decoded ->
           Agent.load_input tool_input w = (inr decoded, w))
    /\ (forall (w : Agent.world L) (before after : string) (c : ascii)
               (decoded : pyobj),
           Agent.is_control c = true ->
           json_loads (Agent.remove_control (before ++ after)) = inr decoded ->
           Agent.load_input (before ++ String c after) w = (inr decoded, w))
    /\ (forall (w : Agent.world L) (prompt : string)
               (previous_responses : list string)
               (curr_prompt tool tool_input : string) (the_tool : BaseTool)
               (msg : string),
           Agent.fill prompt previous_responses = inr curr_prompt ->
           Agent.parsed (Agent.reply w curr_prompt) = Some (tool, tool_input) ->
           Agent.tool_by_names (Agent.self w) tool = Some the_tool ->
           json_loads (Agent.remove_control tool_input) = inl (JSONDecodeError msg) ->
           let failure :=
             {| exc_class := "TypeError";
                exc_str := run_qualname the_tool
                           ++ "() argument after ** must be a mapping, not str";
                is_exception := true |} in
           let tool_result := "Error from tool: " ++ exc_str failure in
           let generated := Agent.observed (Agent.reply w curr_prompt) tool_result in
           exists w' : Agent.world L,
             Agent.turn prompt previous_responses w
             = (if Agent.debug (Agent.self w)
                then inl (ValueError ("Error parsing JSON: " ++ msg))
                else inr ((previous_responses ++ [generated])%list,
                          if String.eqb tool Agent.FINAL_ANSWER
                          then Some tool_result else None),
                w')
             /\ Agent.errors_encountered (Agent.self w')
                = (Agent.errors_encountered (Agent.self w)
                   ++ if Agent.debug (Agent.self w)
                      then [JSONDecodeError msg]
                      else [JSONDecodeError msg; Raised failure])%list
             /\ Agent.ai_responses (Agent.self w')
                = (Agent.ai_responses (Agent.self w)
                   ++ if Agent.debug (Agent.self w)
                      then [] else [PyStr.strip generated])%list
             /\ Agent.calls w'
                = (Agent.calls w
                   ++ [Agent.Generated (Agent.user curr_prompt)
                         (Agent.stop_pattern (Agent.self w))])%list)
    /\ (forall (w : Agent.world L) (prompt : string)
               (previous_responses : list string)
               (curr_prompt tool tool_input : string) (the_tool : BaseTool)
               (e : exn),
           Agent.fill prompt previous_responses = inr curr_prompt ->
           Agent.parsed (Agent.reply w curr_prompt) = Some (tool, tool_input) ->
           Agent.tool_by_names (Agent.self w) tool = Some the_tool ->
           json_loads (Agent.remove_control tool_input) = inl e ->
           Agent.decoding_error e = None ->
           exists w' : Agent.world L,
             Agent.turn prompt previous_responses w = (inl e, w')
             /\ Agent.errors_encountered (Agent.self w')
                = Agent.errors_encountered (Agent.self w)
             /\ Agent.ai_responses (Agent.self w') = Agent.ai_responses (Agent.self w)
             /\ Agent.task w' = Agent.task w
             /\ Agent.calls w'
                = (Agent.calls w
                   ++ [Agent.Generated (Agent.user curr_prompt)
                         (Agent.stop_pattern (Agent.self w))])%list).
Proof.
  intros L R. split; [exact TurnFacts.is_control_spec|].
  split; [|split; [|split; [|split]]].
  - split; [reflexivity|]. split.
    + intros c s. unfold Agent.remove_control. cbn [PyStr.filter].
      destruct (Agent.is_control c); reflexivity.
    + split; [intros a b; apply PyStrFacts.filter_app
             |exact TurnFacts.remove_control_clean].
  - intros w raw decoded. apply TurnFacts.load_input_decoded.
  - intros w before after c decoded Hc Hdec.
    apply TurnFacts.load_input_decoded.
    replace (Agent.remove_control (before ++ String c after))
      with (Agent.remove_control (before ++ after)); [exact Hdec|].
    unfold Agent.remove_control. rewrite !PyStrFacts.filter_app.
    cbn [PyStr.filter]. rewrite Hc. reflexivity.
  - intros w prompt prev cp tool raw t msg Hfill Hparsed Htool Hjson
           failure tool_result generated.
    pose proof (RunCases.turn_calls_exact w prompt prev) as Hcalls.
    cbv zeta in Hcalls. rewrite Hfill, Hparsed, Htool, Hjson in Hcalls.
    destruct (Agent.debug (Agent.self w)) eqn:Hdebug.
    + pose proof (TurnFacts.load_input_failed (Agent.asked w cp) raw msg Hjson)
        as Hload.
      change (Agent.debug (Agent.self (Agent.asked w cp)))
        with (Agent.debug (Agent.self w)) in Hload.
      rewrite Hdebug in Hload.
      pose proof (TurnFacts.turn_load_raises w _ prompt prev cp tool raw t _
                    Hfill Hparsed Htool Hload) as Hturn.
      rewrite Hturn in Hcalls. cbn [snd] in Hcalls.
      eexists. split; [exact Hturn|].
      split; [reflexivity|]. split; [|exact Hcalls].
      cbn. symmetry. apply app_nil_r.
    + assert (Hcall : Agent.apply_tool t (Agent.kept_input raw) = inl failure).
      { unfold Agent.kept_input. rewrite Hjson. reflexivity. }
      assert (Hgo : Agent.goes_through (Agent.debug (Agent.self w)) t raw = true).
      { unfold Agent.goes_through. rewrite Hcall, Hjson, Hdebug. reflexivity. }
      pose proof (RunCases.turn_through w prompt prev cp tool raw t
                    Hfill Hparsed Htool Hgo) as Hturn.
      destruct (RunCases.after_turn_holds w cp tool raw t)
        as (Herrors & Hresponses & _ & _).
      unfold Agent.logged in Herrors. unfold Agent.kept_result in *.
      rewrite Hcall in *. rewrite Hjson in Herrors. cbv zeta in *.
      rewrite Hturn in Hcalls. cbn [snd] in Hcalls.
      eexists. split; [exact Hturn|].
      split; [exact Herrors|]. split; [exact Hresponses|exact Hcalls].
  - intros w prompt prev cp tool raw t e Hfill Hparsed Htool Hjson He.
    pose proof (RunCases.turn_calls_exact w prompt prev) as Hcalls.
    cbv zeta in Hcalls. rewrite Hfill, Hparsed, Htool, Hjson in Hcalls.
    pose proof (TurnFacts.load_input_escaped (Agent.asked w cp) raw e Hjson He)
      as Hload.
    pose proof (TurnFacts.turn_load_raises w _ prompt prev cp tool raw t _
                  Hfill Hparsed Htool Hload) as Hturn.
    rewrite Hturn in Hcalls. cbn [snd] in Hcalls.
    exists (Agent.asked w cp). split; [exact Hturn|].
    repeat (split; [reflexivity|]). exact Hcalls.
Qed.

Lemma C5_input_is_cleaned_then_decoded_witness :
  let reply := Sample.action "Search" "cats" in
  let w := Sample.start
             (Sample.agent (L := Sample.constant reply) tt [Sample.Search] 5 false)
             (Sample.a_task "find cats") in
  let failure :=
    {| exc_class := "TypeError";
       exc_str := "Search.run() argument after ** must be a mapping, not str";
       is_exception := true |} in
  Agent.load_input (R := Sample.runtime) (Sample.cats ++ PyStr.chr 7) w
    = (inr (PDict [("q", PStr "cats")]), w)
  /\ exists w' : Agent.world (Sample.constant reply),
       Agent.turn (R := Sample.runtime) "Q: {previous_responses}" [] w
       = (inr ([Agent.observed reply ("Error from tool: " ++ exc_str failure)], None),
          w')
       /\ Agent.errors_encountered (Agent.self w')
          = [JSONDecodeError "Expecting value: line 1 column 1 (char 0)";
             Raised failure]
       /\ Agent.invocations (Agent.calls w') = 0.
Proof.
  intros reply w failure.
  destruct (C5_input_is_cleaned_then_decoded (Sample.constant reply) Sample.runtime)
    as (_ & _ & _ & Hclean & Hfail & _).
  split.
  - exact (Hclean w Sample.cats EmptyString (ascii_of_nat 7) _ eq_refl eq_refl).
  - destruct (Hfail w "Q: {previous_responses}" [] "Q: " "Search" "cats"
                Sample.Search "Expecting value: line 1 column 1 (char 0)"
                eq_refl eq_refl eq_refl eq_refl)
      as (w' & Hturn & Herrors & _ & Hcalls).
    exists w'. split; [exact Hturn|]. split; [exact Herrors|].
    rewrite Hcalls. reflexivity.
Defined.

(** * The claim on the parser *)



